(** * The embedding policy of rasa_core: a shallow embedding and its properties

    Source: [rasa_core/policies/embedding_policy.py].

    Conventions of the embedding.
    - Python values whose type is not fixed by the code (the entries of the
      configuration dictionary) are values of [pyval].
    - Floating-point tensors are nested lists over the real numbers [R]: the
      arithmetic of the program is read in exact real arithmetic, so rounding,
      overflow and NaN are outside the model.
    - Code that raises returns [Raise e]; code that logs records the level of
      each message, in order.
    - The random generator, the trained network and the dense layers of the
      tensor library are taken as they are from outside: a stream of draws, a
      function from feeds to outputs, a pre-activation per unit. *)

From Stdlib Require Import Reals Lra Lia ZArith List String.
From stdpp Require Import gmap strings list pretty.

(* ===================================================================== *)
(** ** Python values, exceptions and the log *)
(* ===================================================================== *)

#[warnings="-register-all"]
Inductive pyval : Type :=
| PNone
| PBool (b : bool)
| PInt (z : Z)
| PFloat (r : R)
| PStr (s : string)
| PList (l : list pyval).

Inductive pyerr : Type :=
| ValueError
| TypeError
| KeyError (k : string)
| IndexError
| ImportError
| AttributeError
| Exception.

Inductive loglevel : Type := DEBUG | INFO | WARNING | ERROR.

Inductive result (A : Type) : Type :=
| Ok (a : A)
| Raise (e : pyerr).
Arguments Ok {A} a.
Arguments Raise {A} e.

(** A computation yields the messages logged so far and then a value or an
    exception. *)
Definition py (A : Type) : Type := (list loglevel * result A)%type.

Definition py_ret {A} (a : A) : py A := ([], Ok a).
Definition py_raise {A} (e : pyerr) : py A := ([], Raise e).
Definition py_log (l : loglevel) : py unit := ([l], Ok tt).

Definition py_bind {A B} (m : py A) (k : A -> py B) : py B :=
  match m with
  | (w, Ok a) => let '(w', r) := k a in (w ++ w', r)
  | (w, Raise e) => (w, Raise e)
  end.

#[global] Instance py_mret : MRet py := @py_ret.
#[global] Instance py_mbind : MBind py := fun A B k m => py_bind m k.

Definition logs {A} (m : py A) : list loglevel := fst m.
Definition outcome {A} (m : py A) : result A := snd m.

(** [isinstance(v, list)] *)
Definition is_list (v : pyval) : bool :=
  match v with PList _ => true | _ => false end.

(** The number a Python value denotes in a comparison, if it is one. *)
Definition py_num (v : pyval) : option R :=
  match v with
  | PBool b => Some (if b then 1%R else 0%R)
  | PInt z => Some (IZR z)
  | PFloat r => Some r
  | _ => None
  end.

Definition Reqb (x y : R) : bool := if Req_dec_T x y then true else false.
Definition Rltb (x y : R) : bool := if Rlt_dec x y then true else false.

(** Python's [==] on the values of the configuration. *)
Fixpoint py_eq (a b : pyval) : bool :=
  match a, b with
  | PNone, PNone => true
  | PStr s, PStr s' => bool_decide (s = s')
  | PList l, PList l' =>
      (fix go (l l' : list pyval) : bool :=
         match l, l' with
         | [], [] => true
         | x :: xs, y :: ys => py_eq x y && go xs ys
         | _, _ => false
         end) l l'
  | _, _ =>
      match py_num a, py_num b with
      | Some x, Some y => Reqb x y
      | _, _ => false
      end
  end.

(** [int(r)] on a float: truncation towards zero. *)
Definition trunc (r : R) : Z :=
  if Rle_dec 0 r then Int_part r else (- Int_part (- r))%Z.

(** [int(v)] on the numeric values; the parsing of strings is not modelled
    and a string is rejected like a malformed one. *)
Definition py_int (v : pyval) : py Z :=
  match v with
  | PBool b => py_ret (if b then 1 else 0)%Z
  | PInt z => py_ret z
  | PFloat r => py_ret (trunc r)
  | PStr _ => py_raise ValueError
  | _ => py_raise TypeError
  end.

(** [v < 1] as used on [calc_acc_ones_in_epochs]. *)
Definition py_lt_one (v : pyval) : py bool :=
  match py_num v with
  | Some x => py_ret (Rltb x 1)
  | None => py_raise TypeError
  end.

(** [min(a, b)] on numbers: the first argument wins a tie. *)
Definition py_min (a b : pyval) : py pyval :=
  match py_num a, py_num b with
  | Some x, Some y => py_ret (if Rltb y x then b else a)
  | _, _ => py_raise TypeError
  end.

(* ===================================================================== *)
(** ** Configuration: [defaults], [_check_hidden_layer_sizes], [_load_params] *)
(* ===================================================================== *)

Definition defaults : gmap string pyval :=
  list_to_map
    [ ("num_hidden_layers_a", PInt 0);
      ("hidden_layer_size_a", PList []);
      ("num_hidden_layers_b", PInt 0);
      ("hidden_layer_size_b", PList []);
      ("rnn_size", PInt 32);
      ("batch_size", PInt 16);
      ("epochs", PInt 1);
      ("embed_dim", PInt 20);
      ("mu_pos", PFloat (8 / 10));
      ("mu_neg", PFloat (- (2 / 10)));
      ("similarity_type", PStr "cosine");
      ("num_neg", PInt 20);
      ("use_max_sim_neg", PBool true);
      ("C2", PFloat (1 / 1000));
      ("C_emb", PFloat (8 / 10));
      ("droprate_a", PFloat 0);
      ("droprate_b", PFloat 0);
      ("droprate_slt", PFloat 0);
      ("droprate_rnn", PFloat (1 / 10));
      ("droprate_out", PFloat (1 / 10));
      ("score_noise", PFloat 0);
      ("use_attention", PBool true);
      ("attn_shift_range", PNone);
      ("calc_acc_ones_in_epochs", PInt 50);
      ("calc_acc_on_num_examples", PInt 100) ].

(** [config[k]] *)
Definition getitem (config : gmap string pyval) (k : string) : py pyval :=
  match config !! k with
  | Some v => py_ret v
  | None => py_raise (KeyError k)
  end.

Definition _check_hidden_layer_sizes (num_layers : pyval) (layer_size : pyval)
  : py (Z * pyval) :=
  num_layers ← py_int num_layers;
  num_layers ← (if (num_layers <? 0)%Z
                then _ ← py_log ERROR; mret 0%Z
                else mret num_layers);
  layer_size ←
    match layer_size with
    | PList l =>
        if bool_decide (Z.of_nat (length l) ≠ num_layers) then
          match l with
          | [] => py_raise ValueError
          | first :: _ => _ ← py_log ERROR; mret first
          end
        else mret layer_size
    | _ => mret layer_size
    end;
  let layer_size :=
    if is_list layer_size then layer_size
    else PList (replicate (Z.to_nat num_layers) layer_size) in
  mret (num_layers, layer_size).

(** The attributes set by [_load_params]. *)
Record Params : Type := {
  num_hidden_layers_a : Z;
  hidden_layer_size_a : pyval;
  num_hidden_layers_b : Z;
  hidden_layer_size_b : pyval;
  rnn_size : pyval;
  batch_size : pyval;
  epochs : pyval;
  embed_dim : pyval;
  mu_pos : pyval;
  mu_neg : pyval;
  similarity_type : pyval;
  num_neg : pyval;
  use_max_sim_neg : pyval;
  C2 : pyval;
  C_emb : pyval;
  droprate : gmap string pyval;
  score_noise : pyval;
  use_attention : pyval;
  attn_shift_range : pyval;
  calc_acc_ones_in_epochs : pyval;
  calc_acc_on_num_examples : pyval
}.

Record NNArchitecture : Type := {
  arch_num_a : Z; arch_size_a : pyval;
  arch_num_b : Z; arch_size_b : pyval;
  arch_rnn_size : pyval; arch_batch_size : pyval; arch_epochs : pyval
}.

Definition _load_nn_architecture_params (share_embedding : bool)
    (config : gmap string pyval) : py NNArchitecture :=
  na ← getitem config "num_hidden_layers_a";
  sa ← getitem config "hidden_layer_size_a";
  '(na, sa) ← _check_hidden_layer_sizes na sa;
  nb ← getitem config "num_hidden_layers_b";
  sb ← getitem config "hidden_layer_size_b";
  '(nb, sb) ← _check_hidden_layer_sizes nb sb;
  '(nb, sb) ←
    (if share_embedding then
       if bool_decide (na ≠ nb) || negb (py_eq sa sb)
       then _ ← py_log DEBUG; mret (na, sa)
       else mret (nb, sb)
     else mret (nb, sb));
  rnn ← getitem config "rnn_size";
  bs ← getitem config "batch_size";
  ep ← getitem config "epochs";
  mret {| arch_num_a := na; arch_size_a := sa;
          arch_num_b := nb; arch_size_b := sb;
          arch_rnn_size := rnn; arch_batch_size := bs; arch_epochs := ep |}.

Definition _load_regularization_droprate (config : gmap string pyval)
  : py (gmap string pyval) :=
  da ← getitem config "droprate_a";
  db ← getitem config "droprate_b";
  ds ← getitem config "droprate_slt";
  dr ← getitem config "droprate_rnn";
  do ← getitem config "droprate_out";
  mret (<["out" := do]> (<["rnn" := dr]> (<["slt" := ds]>
         (<["b" := db]> (<["a" := da]> ∅))))).

Definition _load_visual_params (epochs : pyval) (config : gmap string pyval)
  : py (pyval * pyval) :=
  ones ← getitem config "calc_acc_ones_in_epochs";
  small ← py_lt_one ones;
  let ones := if (small : bool) then epochs else ones in
  num ← getitem config "calc_acc_on_num_examples";
  mret (ones, num).

(** [_load_params]: the keyword arguments [kwargs] override [defaults]. *)
Definition _load_params (share_embedding : bool) (kwargs : gmap string pyval)
  : py Params :=
  let config := kwargs ∪ defaults in
  arch ← _load_nn_architecture_params share_embedding config;
  (* embedding parameters *)
  ed ← getitem config "embed_dim";
  mp ← getitem config "mu_pos";
  mn ← getitem config "mu_neg";
  st ← getitem config "similarity_type";
  nn ← getitem config "num_neg";
  um ← getitem config "use_max_sim_neg";
  (* regularization *)
  c2 ← getitem config "C2";
  ce ← getitem config "C_emb";
  dr ← _load_regularization_droprate config;
  (* attention parameters *)
  sn ← getitem config "score_noise";
  ua ← getitem config "use_attention";
  asr ← getitem config "attn_shift_range";
  (* visualization of accuracy *)
  '(ones, num) ← _load_visual_params (arch_epochs arch) config;
  mret {| num_hidden_layers_a := arch_num_a arch;
          hidden_layer_size_a := arch_size_a arch;
          num_hidden_layers_b := arch_num_b arch;
          hidden_layer_size_b := arch_size_b arch;
          rnn_size := arch_rnn_size arch;
          batch_size := arch_batch_size arch;
          epochs := arch_epochs arch;
          embed_dim := ed; mu_pos := mp; mu_neg := mn;
          similarity_type := st; num_neg := nn; use_max_sim_neg := um;
          C2 := c2; C_emb := ce; droprate := dr;
          score_noise := sn; use_attention := ua; attn_shift_range := asr;
          calc_acc_ones_in_epochs := ones;
          calc_acc_on_num_examples := num |}.

(** What [_load_params()] computes: every attribute at its default. *)
Definition default_params : Params :=
  {| num_hidden_layers_a := 0; hidden_layer_size_a := PList [];
     num_hidden_layers_b := 0; hidden_layer_size_b := PList [];
     rnn_size := PInt 32; batch_size := PInt 16; epochs := PInt 1;
     embed_dim := PInt 20; mu_pos := PFloat (8 / 10);
     mu_neg := PFloat (- (2 / 10)); similarity_type := PStr "cosine";
     num_neg := PInt 20; use_max_sim_neg := PBool true;
     C2 := PFloat (1 / 1000); C_emb := PFloat (8 / 10);
     droprate := <["out" := PFloat (1 / 10)]> (<["rnn" := PFloat (1 / 10)]>
                   (<["slt" := PFloat 0]> (<["b" := PFloat 0]>
                   (<["a" := PFloat 0]> ∅))));
     score_noise := PFloat 0; use_attention := PBool true;
     attn_shift_range := PNone;
     calc_acc_ones_in_epochs := PInt 50;
     calc_acc_on_num_examples := PInt 100 |}.

(* ===================================================================== *)
(** ** The policy object, inference and persistence *)
(* ===================================================================== *)

Abbreviation tensor2 := (list (list R)).
Abbreviation tensor3 := (list (list (list R))).

(** The name of a tensor of a graph. *)
Definition handle : Type := string.

Inductive feedval : Type :=
| FeedFloat3 (x : tensor3)
| FeedInt4 (y : list (list (list (list Z))))
| FeedBool (b : bool).

Definition feed_dict : Type := list (option handle * feedval).

(** A session of the tensor library, seen through what [session.run] on the
    pair [similarity, alignment history] returns for a feed dictionary. *)
Record Session : Type := {
  session_run : option handle -> option (list (option handle)) -> feed_dict ->
                result (tensor3 * list tensor3)
}.

(** A graph, seen through its named collections. *)
Record Graph : Type := {
  collections : gmap string (list (option handle))
}.

Definition clear_collection (name : string) (g : Graph) : Graph :=
  {| collections := delete name (collections g) |}.

Definition add_to_collection (name : string) (v : option handle) (g : Graph)
  : Graph :=
  {| collections :=
       <[name := default [] (collections g !! name) ++ [v]]> (collections g) |}.

Definition get_collection (name : string) (g : Graph) : list (option handle) :=
  default [] (collections g !! name).

(** Modelled from the spec: the domain ([rasa_core.domain]) is not under
    src/; the code reads only its number of actions. *)
Record Domain : Type := {
  num_actions : nat
}.

Section Policy.

(** Modelled from the spec: dialogue trackers ([rasa_core.trackers]) are
    not under src/ and are only handed on to the featurizer. *)
Variable DialogueStateTracker : Type.

Record TrainingData : Type := {
  data_X : tensor3;
  data_y : tensor3;
  true_length : list Z
}.

(** Modelled from the spec: the featurizer ([rasa_core.featurizers]) is not
    under src/. It turns trackers into tensors whose last axis is laid out as
    user features, slot features, previous-action features at offsets it
    reports, and yields one encoded vector per action of the domain. *)
Record Featurizer : Type := {
  is_full_dialogue : bool;
  share_vocab : option bool;
  user_feature_len : nat;
  slot_feature_len : nat;
  create_X : list DialogueStateTracker -> Domain -> tensor3;
  featurize_for_training :
    list DialogueStateTracker -> Domain -> gmap string pyval -> TrainingData;
  create_encoded_all_actions : Domain -> list (list Z)
}.

Inductive file : Type :=
| FDir
| FFeaturizer (f : Featurizer)
| FMetaGraph (g : Graph)
| FCheckpoint (s : Session)
| FPickle (a : option (list (list Z))).

Record EmbeddingPolicy : Type := {
  featurizer : Featurizer;
  share_embedding : bool;
  params : Params;
  characteristic_time : option R;
  encoded_all_actions : option (list (list Z));
  session : option Session;
  graph : option Graph;
  a_in : option handle;
  b_in : option handle;
  c_in : option handle;
  b_prev_in : option handle;
  sim_op : option handle;
  alignment_history : option (list (option handle));
  train_op : option handle;
  is_training : option handle
}.

(** Whether [import tensorflow] succeeded. *)
Variable tf_imported : bool.

(** [FullDialogueTrackerFeaturizer(LabelTokenizerSingleStateFeaturizer())] *)
Variable _standard_featurizer : Featurizer.

Definition _check_tensorflow : py unit :=
  if tf_imported then mret tt else py_raise ImportError.

(** Modelled from the spec: the base class [Policy] is not under src/; its
    constructor keeps the featurizer it is given and falls back on the
    standard one. *)
Definition Policy_init (featurizer : option Featurizer) : Featurizer :=
  match featurizer with
  | Some f => f
  | None => _standard_featurizer
  end.

Definition EmbeddingPolicy_init
    (featurizer : option Featurizer)
    (encoded_all_actions : option (list (list Z)))
    (session : option Session)
    (graph : option Graph)
    (intent_placeholder action_placeholder slots_placeholder
       prev_act_placeholder similarity_op : option handle)
    (alignment_history : option (list (option handle)))
  : py EmbeddingPolicy :=
  _ ← _check_tensorflow;
  _ ← match featurizer with
      | Some f => if is_full_dialogue f then mret tt else py_raise TypeError
      | None => mret tt
      end;
  let featurizer := Policy_init featurizer in
  let share_embedding := default false (share_vocab featurizer) in
  params ← _load_params share_embedding ∅;
  mret {| featurizer := featurizer;
          share_embedding := share_embedding;
          params := params;
          characteristic_time := None;
          encoded_all_actions := encoded_all_actions;
          session := session;
          graph := graph;
          a_in := intent_placeholder;
          b_in := action_placeholder;
          c_in := slots_placeholder;
          b_prev_in := prev_act_placeholder;
          sim_op := similarity_op;
          alignment_history := alignment_history;
          train_op := None;
          is_training := None |}.

(** [_create_all_Y_d]: the encoded actions stacked once per dialogue step. *)
Definition _create_all_Y_d (encoded : list (list Z)) (dialogue_len : nat)
  : list (list (list Z)) :=
  replicate dialogue_len encoded.

(** [_create_X_slots]: the three slices of the last axis. *)
Definition _create_X_slots (f : Featurizer) (data_X : tensor3)
  : tensor3 * tensor3 * tensor3 :=
  let slot_start := user_feature_len f in
  let prev_start := (slot_start + slot_feature_len f)%nat in
  let X := map (map (take slot_start)) data_X in
  let slots := map (map (fun v => drop slot_start (take prev_start v))) data_X in
  let prev_act := map (map (drop prev_start)) data_X in
  (X, slots, prev_act).

(** [X.shape[1]] of a rectangular array with at least one dialogue. *)
Definition shape1 {A} (X : list (list A)) : nat :=
  match X with
  | [] => 0
  | d :: _ => length d
  end.

Definition reduce_sum (l : list R) : R := foldr Rplus 0%R l.

(** [result[result < 0] = 0] *)
Definition clip_negative (result : list R) : list R :=
  map (fun x => if Rltb x 0 then 0%R else x) result.

(** [result = np.exp(result); result /= np.sum(result)] *)
Definition exp_normalize (result : list R) : list R :=
  let result := map exp result in
  map (fun x => (x / reduce_sum result)%R) result.

(** [_sim[0, -1, :]] *)
Definition last_step_row (_sim : tensor3) : py (list R) :=
  match _sim with
  | [] => py_raise IndexError
  | d :: _ =>
      match last d with
      | None => py_raise IndexError
      | Some row => mret row
      end
  end.

(** The first half of [predict_action_probabilities] on a policy with a
    session: featurize the tracker and run the similarity on the full set of
    actions. *)
Definition run_similarity (self : EmbeddingPolicy) (sess : Session)
    (tracker : DialogueStateTracker) (domain : Domain) : py tensor3 :=
  let data_X := create_X (featurizer self) [tracker] domain in
  let '(X, slots, prev_act) := _create_X_slots (featurizer self) data_X in
  match encoded_all_actions self with
  | None => py_raise ValueError
  | Some encoded =>
      let all_Y_d := _create_all_Y_d encoded (shape1 X) in
      let all_Y_d_x := replicate (length X) all_Y_d in
      match session_run sess (sim_op self) (alignment_history self)
              [ (a_in self, FeedFloat3 X);
                (b_in self, FeedInt4 all_Y_d_x);
                (c_in self, FeedFloat3 slots);
                (b_prev_in self, FeedFloat3 prev_act) ] with
      | Raise e => py_raise e
      | Ok (_sim, _ps) => mret _sim
      end
  end.

(** The second half: the branch on [self.similarity_type]. *)
Definition postprocess (similarity_type : pyval) (result : list R) : list R :=
  if py_eq similarity_type (PStr "cosine") then clip_negative result
  else if py_eq similarity_type (PStr "inner") then exp_normalize result
  else result.

Definition predict_action_probabilities (self : EmbeddingPolicy)
    (tracker : DialogueStateTracker) (domain : Domain) : py (list R) :=
  match session self with
  | None =>
      _ ← py_log ERROR;
      mret (replicate (num_actions domain) 0%R)
  | Some sess =>
      _sim ← run_similarity self sess tracker domain;
      result ← last_step_row _sim;
      mret (postprocess (similarity_type (params self)) result)
  end.

(** *** The file system and the savers *)

Definition path_join (path name : string) : string := path +:+ "/" +:+ name.

Definition path_exists (fs : gmap string file) (path : string) : bool :=
  bool_decide (is_Some (fs !! path)).

(** Modelled from the spec: [utils.create_dir_for_file] is not under src/;
    it makes sure the directory of the file exists. *)
Definition create_dir (dir : string) (fs : gmap string file)
  : gmap string file :=
  <[dir := FDir]> fs.

(** Modelled from the spec: the featurizer's [persist] and
    [TrackerFeaturizer.load] are not under src/; the featurizer is written
    below the path and read back from there. *)
Definition featurizer_persist (f : Featurizer) (path : string)
    (fs : gmap string file) : gmap string file :=
  <[path_join path "featurizer.json" := FFeaturizer f]> (create_dir path fs).

Definition featurizer_load (path : string) (fs : gmap string file)
  : py (option Featurizer) :=
  match fs !! path_join path "featurizer.json" with
  | Some (FFeaturizer f) => mret (Some f)
  | _ => _ ← py_log ERROR; mret None
  end.

(** [tf.train.Saver().save]: the graph with its collections goes to the
    [.meta] file, the values of the variables to the checkpoint. *)
Definition saver_save (sess : Session) (g : Graph) (checkpoint : string)
    (fs : gmap string file) : gmap string file :=
  <[checkpoint +:+ ".meta" := FMetaGraph g]>
    (<[checkpoint := FCheckpoint sess]> fs).

(** [tf.train.import_meta_graph] followed by [saver.restore]. *)
Definition saver_restore (checkpoint : string) (fs : gmap string file)
  : py (Graph * Session) :=
  match fs !! (checkpoint +:+ ".meta"), fs !! checkpoint with
  | Some (FMetaGraph g), Some (FCheckpoint s) => mret (g, s)
  | _, _ => py_raise ValueError
  end.

(** [get_collection(name)[0]] *)
Definition first_of_collection (name : string) (g : Graph)
  : py (option handle) :=
  match get_collection name g with
  | [] => py_raise IndexError
  | h :: _ => mret h
  end.

Definition NUM_ATTENTION_TYPES : nat := 1.

Definition file_name : string := "tensorflow_embedding.ckpt".

Definition alignment_collection (i : nat) : string :=
  "alignment_history_" +:+ pretty i.

(** The loop of [persist] over [enumerate(self.alignment_history)]. *)
Fixpoint persist_alignments (i : nat) (hs : list (option handle)) (g : Graph)
  : Graph :=
  match hs with
  | [] => g
  | alignments :: hs' =>
      persist_alignments (S i) hs'
        (add_to_collection (alignment_collection i) alignments
           (clear_collection (alignment_collection i) g))
  end.

Definition set_collection (name : string) (v : option handle) (g : Graph)
  : Graph :=
  add_to_collection name v (clear_collection name g).

(** [persist]: returns the policy, whose graph has got its collections
    rewritten, and the file system. *)
Definition persist (self : EmbeddingPolicy) (path : string)
    (fs : gmap string file) : py (EmbeddingPolicy * gmap string file) :=
  match session self with
  | None => _ ← py_log WARNING; mret (self, fs)
  | Some sess =>
      let fs := featurizer_persist (featurizer self) path fs in
      let checkpoint := path_join path file_name in
      let fs := create_dir path fs in
      match graph self, alignment_history self with
      | None, _ => py_raise AttributeError
      | Some g, Some hist =>
          let g := set_collection "intent_placeholder" (a_in self) g in
          let g := set_collection "action_placeholder" (b_in self) g in
          let g := set_collection "slots_placeholder" (c_in self) g in
          let g := set_collection "prev_act_placeholder" (b_prev_in self) g in
          let g := set_collection "similarity_op" (sim_op self) g in
          let g := persist_alignments 0 hist g in
          let fs := saver_save sess g checkpoint fs in
          let fs := <[checkpoint +:+ ".encoded_all_actions.pkl" :=
                        FPickle (encoded_all_actions self)]> fs in
          mret ({| featurizer := featurizer self;
                   share_embedding := share_embedding self;
                   params := params self;
                   characteristic_time := characteristic_time self;
                   encoded_all_actions := encoded_all_actions self;
                   session := session self;
                   graph := Some g;
                   a_in := a_in self; b_in := b_in self; c_in := c_in self;
                   b_prev_in := b_prev_in self; sim_op := sim_op self;
                   alignment_history := alignment_history self;
                   train_op := train_op self;
                   is_training := is_training self |}, fs)
      | Some _, None => py_raise TypeError
      end
  end.

(** The loop of [load] over [range(cls.NUM_ATTENTION_TYPES)]. *)
Definition load_alignments (g : Graph) : list (option handle) :=
  concat (map (fun i => get_collection (alignment_collection i) g)
              (seq 0 NUM_ATTENTION_TYPES)).

Definition load (path : string) (fs : gmap string file) : py EmbeddingPolicy :=
  if path_exists fs path then
    featurizer ← featurizer_load path fs;
    let checkpoint := path_join path file_name in
    if path_exists fs (checkpoint +:+ ".meta") then
      '(graph, sess) ← saver_restore checkpoint fs;
      a_in ← first_of_collection "intent_placeholder" graph;
      b_in ← first_of_collection "action_placeholder" graph;
      c_in ← first_of_collection "slots_placeholder" graph;
      b_prev_in ← first_of_collection "prev_act_placeholder" graph;
      sim_op ← first_of_collection "similarity_op" graph;
      let alignment_history := load_alignments graph in
      encoded_all_actions ←
        match fs !! (checkpoint +:+ ".encoded_all_actions.pkl") with
        | Some (FPickle a) => mret a
        | _ => py_raise Exception
        end;
      EmbeddingPolicy_init featurizer encoded_all_actions (Some sess)
        (Some graph) a_in b_in c_in b_prev_in sim_op (Some alignment_history)
    else
      EmbeddingPolicy_init featurizer None None None None None None None None
        None
  else py_raise Exception.

(** *** Training *)

(** What building the graph and fitting it leaves behind. *)
Record TrainedGraph : Type := {
  tg_graph : Graph;
  tg_session : Session;
  tg_a_in : handle;
  tg_b_in : handle;
  tg_c_in : handle;
  tg_b_prev_in : handle;
  tg_sim_op : handle;
  tg_alignment_history : list (option handle);
  tg_train_op : handle;
  tg_is_training : handle
}.

(** The tensor library: [_create_tf_graph] and [_train_tf] on the data. *)
Variable build_and_fit :
  Params -> R -> list (list Z) -> TrainingData -> TrainedGraph.

(** [np.mean] *)
Definition np_mean (l : list Z) : R :=
  (reduce_sum (map IZR l) / INR (length l))%R.

Definition with_attn_num_neg (p : Params) (asr nn : pyval) : Params :=
  {| num_hidden_layers_a := num_hidden_layers_a p;
     hidden_layer_size_a := hidden_layer_size_a p;
     num_hidden_layers_b := num_hidden_layers_b p;
     hidden_layer_size_b := hidden_layer_size_b p;
     rnn_size := rnn_size p; batch_size := batch_size p; epochs := epochs p;
     embed_dim := embed_dim p; mu_pos := mu_pos p; mu_neg := mu_neg p;
     similarity_type := similarity_type p; num_neg := nn;
     use_max_sim_neg := use_max_sim_neg p; C2 := C2 p; C_emb := C_emb p;
     droprate := droprate p; score_noise := score_noise p;
     use_attention := use_attention p; attn_shift_range := asr;
     calc_acc_ones_in_epochs := calc_acc_ones_in_epochs p;
     calc_acc_on_num_examples := calc_acc_on_num_examples p |}.

Definition train (self : EmbeddingPolicy)
    (training_trackers : list DialogueStateTracker) (domain : Domain)
    (kwargs : gmap string pyval) : py EmbeddingPolicy :=
  _ ← py_log DEBUG;
  p ← (if (size kwargs =? 0)%nat then mret (params self)
       else _ ← py_log DEBUG; _load_params (share_embedding self) kwargs);
  let training_data :=
    featurize_for_training (featurizer self) training_trackers domain kwargs in
  let characteristic_time := np_mean (true_length training_data) in
  let asr :=
    match attn_shift_range p with
    | PNone => PInt (trunc (characteristic_time / 2))
    | v => v
    end in
  let encoded := create_encoded_all_actions (featurizer self) domain in
  _ ← py_log DEBUG;
  nn ← py_min (num_neg p) (PInt (Z.of_nat (num_actions domain) - 1));
  let p := with_attn_num_neg p asr nn in
  let tg := build_and_fit p characteristic_time encoded training_data in
  mret {| featurizer := featurizer self;
          share_embedding := share_embedding self;
          params := p;
          characteristic_time := Some characteristic_time;
          encoded_all_actions := Some encoded;
          session := Some (tg_session tg);
          graph := Some (tg_graph tg);
          a_in := Some (tg_a_in tg);
          b_in := Some (tg_b_in tg);
          c_in := Some (tg_c_in tg);
          b_prev_in := Some (tg_b_prev_in tg);
          sim_op := Some (tg_sim_op tg);
          alignment_history := Some (tg_alignment_history tg);
          train_op := Some (tg_train_op tg);
          is_training := Some (tg_is_training tg) |}.

End Policy.

Arguments Featurizer DialogueStateTracker : clear implicits.
Arguments EmbeddingPolicy DialogueStateTracker : clear implicits.
Arguments file DialogueStateTracker : clear implicits.
Arguments is_full_dialogue {DialogueStateTracker} f.
Arguments share_vocab {DialogueStateTracker} f.
Arguments user_feature_len {DialogueStateTracker} f.
Arguments slot_feature_len {DialogueStateTracker} f.
Arguments create_X {DialogueStateTracker} f _ _.
Arguments featurize_for_training {DialogueStateTracker} f _ _ _.
Arguments create_encoded_all_actions {DialogueStateTracker} f _.
Arguments FDir {DialogueStateTracker}.
Arguments FFeaturizer {DialogueStateTracker} f.
Arguments FMetaGraph {DialogueStateTracker} g.
Arguments FCheckpoint {DialogueStateTracker} s.
Arguments FPickle {DialogueStateTracker} a.
Arguments featurizer {DialogueStateTracker} e.
Arguments share_embedding {DialogueStateTracker} e.
Arguments params {DialogueStateTracker} e.
Arguments characteristic_time {DialogueStateTracker} e.
Arguments encoded_all_actions {DialogueStateTracker} e.
Arguments session {DialogueStateTracker} e.
Arguments graph {DialogueStateTracker} e.
Arguments a_in {DialogueStateTracker} e.
Arguments b_in {DialogueStateTracker} e.
Arguments c_in {DialogueStateTracker} e.
Arguments b_prev_in {DialogueStateTracker} e.
Arguments sim_op {DialogueStateTracker} e.
Arguments alignment_history {DialogueStateTracker} e.
Arguments train_op {DialogueStateTracker} e.
Arguments is_training {DialogueStateTracker} e.
Arguments Policy_init {DialogueStateTracker} _standard_featurizer featurizer.
Arguments EmbeddingPolicy_init {DialogueStateTracker} tf_imported
  _standard_featurizer featurizer encoded_all_actions session graph
  intent_placeholder action_placeholder slots_placeholder
  prev_act_placeholder similarity_op alignment_history.
Arguments _create_X_slots {DialogueStateTracker} f data_X.
Arguments run_similarity {DialogueStateTracker} self sess tracker domain.
Arguments predict_action_probabilities {DialogueStateTracker} self tracker
  domain.
Arguments path_exists {DialogueStateTracker} fs path.
Arguments create_dir {DialogueStateTracker} dir fs.
Arguments featurizer_persist {DialogueStateTracker} f path fs.
Arguments featurizer_load {DialogueStateTracker} path fs.
Arguments saver_save {DialogueStateTracker} sess g checkpoint fs.
Arguments saver_restore {DialogueStateTracker} checkpoint fs.
Arguments persist {DialogueStateTracker} self path fs.
Arguments load {DialogueStateTracker} tf_imported _standard_featurizer path fs.
Arguments train {DialogueStateTracker} build_and_fit self training_trackers
  domain kwargs.

(* ===================================================================== *)
(** ** Dropout without rescaling *)
(* ===================================================================== *)

Section Dropout.
Local Open Scope R_scope.

(** [tf.cast(training, tf.float32)] *)
Definition tf_cast (b : bool) : R := if b then 1 else 0.

(** [tf.floor] *)
Definition tf_floor (x : R) : R := IZR (Int_part x).

(** [tf.nn.dropout(x, keep_prob)] of the tensor library, on the elements of
    a tensor: with [u] the draw from the uniform distribution on [0, 1) for
    an element, the element is divided by [keep_prob] and multiplied by
    [floor(keep_prob + u)]. A noise shape makes elements share their draw;
    [noise] lists the draw of each element. *)
Definition tf_nn_dropout_elt (x keep_prob u : R) : R :=
  x / keep_prob * tf_floor (keep_prob + u).

Definition tf_nn_dropout (x : list R) (keep_prob : R) (noise : list R)
  : list R :=
  zip_with (fun y u => tf_nn_dropout_elt y keep_prob u) x noise.

Definition no_scale_keep_prob (rate : R) (training : option bool) : R :=
  match training with
  | None => 1 - rate
  | Some t => 1 - rate * tf_cast t
  end.

Definition no_scale_dropout (x : list R) (rate : R) (noise : list R)
    (training : option bool) : list R :=
  let keep_prob := no_scale_keep_prob rate training in
  (* rescale x back *)
  let x_dropped := map (Rmult keep_prob) (tf_nn_dropout x keep_prob noise) in
  x_dropped.

(** One element of [no_scale_dropout] as a function of its draw. *)
Definition no_scale_dropout_elt (x rate : R) (training : option bool) (u : R)
  : R :=
  let keep_prob := no_scale_keep_prob rate training in
  keep_prob * tf_nn_dropout_elt x keep_prob u.

End Dropout.


(* ===================================================================== *)
(** ** The recurrent cell with chrono initialization *)
(* ===================================================================== *)

Section ChronoCell.
Local Open Scope R_scope.

Definition sigmoid (x : R) : R := 1 / (1 + exp (- x)).

(** [dropout_keep_prob] is a Python float or a tensor. *)
Inductive keep_prob_t : Type :=
| KeepFloat (p : R)
| KeepTensor (p : R).

Definition keep_prob_value (k : keep_prob_t) : R :=
  match k with KeepFloat p | KeepTensor p => p end.

(** The attributes of the cell read by [call]. [_linear] is the learned
    affine map of a row of [inputs, h] to the four gates side by side and
    [_norm] the layer normalization of the base class under a scope name;
    the biases are vectors over the units, added to every row of a batch. *)
Record ChronoLayerNormBasicLSTMCell : Type := {
  _num_units : nat;
  _forget_bias : list R;
  _input_bias : list R;
  _activation : R -> R;
  _layer_norm : bool;
  _keep_prob : keep_prob_t;
  _linear : list R -> list R;
  _norm : string -> tensor2 -> tensor2
}.

(** [_create_rnn_cell]; [random] is what [np.random.random(self.rnn_size)]
    returns, [linear] and [norm] are the weights the cell gets. *)
Definition _create_rnn_cell (characteristic_time : R) (rnn_size : nat)
    (random : list R) (droprate_rnn : R) (is_training : bool)
    (linear : list R -> list R) (norm : string -> tensor2 -> tensor2)
  : ChronoLayerNormBasicLSTMCell :=
  let fbias := map (fun u => ln ((characteristic_time - 2) * u + 1)) random in
  let keep_prob := 1 - droprate_rnn * tf_cast is_training in
  {| _num_units := rnn_size;
     _layer_norm := false;
     _keep_prob := KeepTensor keep_prob;
     _forget_bias := fbias;
     _input_bias := map Ropp fbias;
     _activation := tanh;
     _linear := linear;
     _norm := norm |}.

(** [tf.split(value, 4, axis=1)]: chunk [k] of the four equal chunks of a
    row. *)
Definition split_chunk (k : nat) (row : list R) : list R :=
  let n := (length row / 4)%nat in
  take n (drop (k * n) row).

(** [x + bias] with the bias broadcast over the rows. *)
Definition add_bias (x : tensor2) (bias : list R) : tensor2 :=
  map (fun row => zip_with Rplus row bias) x.

Definition map2d (f : R -> R) (x : tensor2) : tensor2 := map (map f) x.

Definition zip2d (f : R -> R -> R) (x y : tensor2) : tensor2 :=
  zip_with (zip_with f) x y.

(** [(not isinstance(self._keep_prob, float)) or self._keep_prob < 1] *)
Definition applies_dropout (k : keep_prob_t) : bool :=
  match k with
  | KeepTensor _ => true
  | KeepFloat p => Rltb p 1
  end.

(** [call]; [noise] holds the draws of the recurrent dropout. *)
Definition ChronoLayerNormBasicLSTMCell_call
    (self : ChronoLayerNormBasicLSTMCell) (inputs : tensor2)
    (state : tensor2 * tensor2) (noise : tensor2)
  : tensor2 * (tensor2 * tensor2) :=
  let '(c, h) := state in
  let args := zip_with app inputs h in
  let concat := map (_linear self) args in
  let i := map (split_chunk 0) concat in
  let j := map (split_chunk 1) concat in
  let f := map (split_chunk 2) concat in
  let o := map (split_chunk 3) concat in
  let i := if _layer_norm self then _norm self "input" i else i in
  let j := if _layer_norm self then _norm self "transform" j else j in
  let f := if _layer_norm self then _norm self "forget" f else f in
  let o := if _layer_norm self then _norm self "output" o else o in
  let g := map2d (_activation self) j in
  let g :=
    if applies_dropout (_keep_prob self)
    then zip_with (fun row u =>
                     tf_nn_dropout row (keep_prob_value (_keep_prob self)) u)
                  g noise
    else g in
  let new_c :=
    zip2d Rplus
      (zip2d Rmult c (map2d sigmoid (add_bias f (_forget_bias self))))
      (zip2d Rmult g (map2d sigmoid (add_bias i (_input_bias self)))) in
  let new_c := if _layer_norm self then _norm self "state" new_c else new_c in
  let new_h := zip2d Rmult (map2d (_activation self) new_c) (map2d sigmoid o) in
  (new_h, (new_c, new_h)).

End ChronoCell.


(* ===================================================================== *)
(** ** Similarity and loss *)
(* ===================================================================== *)

Section SimilarityAndLoss.
Local Open Scope R_scope.

(** The value of [tf.reduce_max]: minus infinity on an empty row. *)
Inductive ereal : Type :=
| NegInf
| Finite (r : R).

Definition reduce_max (l : list R) : ereal :=
  foldr (fun x acc =>
           match acc with
           | NegInf => Finite x
           | Finite m => Finite (Rmax x m)
           end) NegInf l.

(** [mu + x] for a number [mu] *)
Definition ereal_add (mu : R) (x : ereal) : ereal :=
  match x with
  | NegInf => NegInf
  | Finite r => Finite (mu + r)
  end.

(** [tf.maximum(0., x)] *)
Definition maximum0 (x : ereal) : R :=
  match x with
  | NegInf => 0
  | Finite r => Rmax 0 r
  end.

Definition reduce_mean (l : list R) : R := reduce_sum l / INR (length l).

Definition dot (a b : list R) : R := reduce_sum (zip_with Rmult a b).

(** [tf.nn.l2_normalize(x, -1)] on one vector; the library's epsilon is
    [1e-12]. *)
Definition l2_normalize (x : list R) : list R :=
  let square_sum := reduce_sum (map (fun v => v * v) x) in
  map (fun v => v * (1 / sqrt (Rmax square_sum (1 / 10 ^ 12)))) x.

(** [_tf_sim]: [emb_dial] is indexed by dialogue and step, [emb_act] by
    dialogue, step and candidate, [mask] by dialogue and step. *)
Definition _tf_sim (similarity_type : pyval) (emb_dial : tensor3)
    (emb_act : list tensor3) (mask : tensor2) : py (tensor3 * tensor3) :=
  let cosine := py_eq similarity_type (PStr "cosine") in
  let emb_act :=
    if cosine then map (map (map l2_normalize)) emb_act else emb_act in
  let emb_dial :=
    if cosine then map (map l2_normalize) emb_dial else emb_dial in
  if cosine || py_eq similarity_type (PStr "inner") then
    let sim :=
      zip_with (zip_with (fun d acts => map (dot d) acts)) emb_dial emb_act in
    let sim := zip_with (zip_with (fun row m => map (fun s => s * m) row))
                 sim mask in
    let sim_act :=
      map (map (fun acts =>
                  match acts with
                  | [] => []
                  | first :: rest => map (dot first) rest
                  end)) emb_act in
    let sim_act := zip_with (zip_with (fun row m => map (fun s => s * m) row))
                     sim_act mask in
    mret (sim, sim_act)
  else py_raise ValueError.

(** [_tf_loss]; [regularization_loss] is what
    [tf.losses.get_regularization_loss()] returns. In the branch without
    [use_max_sim_neg] the margins [mu] are added to the candidates one by
    one: a row of [sim] holds the positive and [num_neg] negatives there. *)
Definition _tf_loss (use_max_sim_neg : bool) (mu_pos mu_neg C_emb : R)
    (num_neg : nat) (regularization_loss : R)
    (sim sim_act : tensor3) (mask : tensor2) : R :=
  let loss :=
    if use_max_sim_neg then
      let max_sim_neg := map (map (fun row => reduce_max (drop 1 row))) sim in
      let pos := map (map (fun row => Rmax 0 (mu_pos - nth 0 row 0))) sim in
      let neg := map (map (fun m => maximum0 (ereal_add mu_neg m)))
                   max_sim_neg in
      zip2d Rmult (zip2d Rplus pos neg) mask
    else
      let mu := mu_pos :: replicate num_neg mu_neg in
      let max_margin :=
        map (map (fun row =>
                    let factors := - 1 :: replicate (length row - 1) 1 in
                    zip_with (fun m fs => Rmax 0 (m + fs))
                      mu (zip_with Rmult factors row))) sim in
      zip2d Rmult (map (map reduce_sum) max_margin) mask in
  (* penalize max similarity between intent embeddings *)
  let loss_act := map (map (fun row => maximum0 (reduce_max row))) sim_act in
  let loss := zip2d Rplus loss (map2d (fun x => x * C_emb) loss_act) in
  let loss := zip_with (fun l m => reduce_sum l / reduce_sum m) loss mask in
  (* add regularization losses *)
  reduce_mean loss + regularization_loss.

(** The loss as the specification words it, with [use_max_sim_neg]: the
    two hinges on the positive and on the largest negative, masked, plus
    [C_emb] times the largest similarity among the actions as it is; summed
    over the steps and divided by the number of valid steps, averaged over
    the dialogues, plus the regularization. *)
Definition stated_max (l : list R) : R :=
  match reduce_max l with
  | NegInf => 0
  | Finite r => r
  end.

Definition stated_step_loss (mu_pos mu_neg C_emb : R)
    (row row_act : list R) (m : R) : R :=
  (Rmax 0 (mu_pos - nth 0 row 0) + Rmax 0 (mu_neg + stated_max (drop 1 row)))
  * m
  + C_emb * stated_max row_act.

Fixpoint sum_steps (step : list R -> list R -> R -> R)
    (sim sim_act : tensor2) (mask : list R) : R :=
  match sim, sim_act, mask with
  | row :: sim', row_act :: sim_act', m :: mask' =>
      step row row_act m + sum_steps step sim' sim_act' mask'
  | _, _, _ => 0
  end.

Fixpoint sum_dialogues (step : list R -> list R -> R -> R)
    (sim sim_act : tensor3) (mask : tensor2) : R * nat :=
  match sim, sim_act, mask with
  | d :: sim', d_act :: sim_act', md :: mask' =>
      let '(total, n) := sum_dialogues step sim' sim_act' mask' in
      (sum_steps step d d_act md / reduce_sum md + total, S n)
  | _, _, _ => (0, 0%nat)
  end.

Definition mean_loss (step : list R -> list R -> R -> R)
    (regularization_loss : R) (sim sim_act : tensor3) (mask : tensor2) : R :=
  let '(total, n) := sum_dialogues step sim sim_act mask in
  total / INR n + regularization_loss.

Definition stated_loss (mu_pos mu_neg C_emb regularization_loss : R)
    (sim sim_act : tensor3) (mask : tensor2) : R :=
  mean_loss (stated_step_loss mu_pos mu_neg C_emb) regularization_loss
    sim sim_act mask.

(** The loss of one step as the code computes it. *)
Definition step_base (use_max_sim_neg : bool) (mu_pos mu_neg : R)
    (num_neg : nat) (row : list R) : R :=
  if use_max_sim_neg then
    Rmax 0 (mu_pos - nth 0 row 0)
    + maximum0 (ereal_add mu_neg (reduce_max (drop 1 row)))
  else
    reduce_sum
      (zip_with (fun m fs => Rmax 0 (m + fs))
         (mu_pos :: replicate num_neg mu_neg)
         (zip_with Rmult (- 1 :: replicate (length row - 1) 1) row)).

Definition code_step_loss (use_max_sim_neg : bool) (mu_pos mu_neg C_emb : R)
    (num_neg : nat) (row row_act : list R) (m : R) : R :=
  step_base use_max_sim_neg mu_pos mu_neg num_neg row * m
  + C_emb * maximum0 (reduce_max row_act).

End SimilarityAndLoss.


(* ===================================================================== *)
(** ** Negative sampling *)
(* ===================================================================== *)

(** The state of [np.random]: the raw draws to come. A draw from [n]
    equally likely values is the next raw draw modulo [n]. *)
Definition rng : Type := nat -> nat.

(** [np.random.choice(a, size=size)]: [replace] keeps its default [True], so
    every entry is drawn from the whole of [a]. *)
Definition np_random_choice (a : list nat) (size : Z) (g : rng)
  : result (list nat * rng) :=
  if (size <? 0)%Z then Raise ValueError
  else if bool_decide (a = []) && (0 <? size)%Z then Raise ValueError
  else
    let k := Z.to_nat size in
    Ok (map (fun i => nth (g i mod length a) a 0%nat) (seq 0 k),
        fun i => g (k + i)%nat).

(** [[i for i in range(n) if i != correct]] *)
Definition negative_indexes (n correct : nat) : list nat :=
  filter (fun i => i ≠ correct) (seq 0 n).

(** [encoded_all_actions[negs]] *)
Definition take_rows (encoded_all_actions : list (list Z)) (negs : list nat)
  : list (list Z) :=
  map (fun i => default [] (encoded_all_actions !! i)) negs.

(** The loop of [_create_batch_b] over the steps [h] of one dialogue. *)
Fixpoint _create_batch_b_steps (encoded_all_actions : list (list Z))
    (num_neg : Z) (pos_d : list (list Z)) (ids_d : list nat) (g : rng)
  : result (list (list (list Z)) * rng) :=
  match pos_d with
  | [] => Ok ([], g)
  | pos :: pos_d' =>
      match ids_d with
      | [] => Raise IndexError
      | correct :: ids_d' =>
          match np_random_choice
                  (negative_indexes (length encoded_all_actions) correct)
                  num_neg g with
          | Raise e => Raise e
          | Ok (negs, g) =>
              match _create_batch_b_steps encoded_all_actions num_neg
                      pos_d' ids_d' g with
              | Raise e => Raise e
              | Ok (rest, g) =>
                  Ok ((pos :: take_rows encoded_all_actions negs) :: rest, g)
              end
          end
      end
  end.

(** The loop of [_create_batch_b] over the dialogues [b]. *)
Fixpoint _create_batch_b_dialogues (encoded_all_actions : list (list Z)) (num_neg : Z)
    (batch_pos_b : list (list (list Z))) (intent_ids : list (list nat))
    (g : rng) : result (list (list (list (list Z))) * rng) :=
  match batch_pos_b with
  | [] => Ok ([], g)
  | pos_d :: batch_pos_b' =>
      match intent_ids with
      | [] => Raise IndexError
      | ids_d :: intent_ids' =>
          match _create_batch_b_steps encoded_all_actions num_neg pos_d ids_d
                  g with
          | Raise e => Raise e
          | Ok (d, g) =>
              match _create_batch_b_dialogues encoded_all_actions num_neg
                      batch_pos_b' intent_ids' g with
              | Raise e => Raise e
              | Ok (rest, g) => Ok (d :: rest, g)
              end
          end
      end
  end.

(** [_create_batch_b]: for every dialogue [b] and step [h] the positive
    followed by the sampled negatives; [np.zeros] rejects a negative
    [num_neg] before the loops. *)
Definition _create_batch_b (encoded_all_actions : list (list Z)) (num_neg : Z)
    (batch_pos_b : list (list (list Z))) (intent_ids : list (list nat))
    (g : rng) : result (list (list (list (list Z))) * rng) :=
  if (num_neg <? 0)%Z then Raise ValueError
  else _create_batch_b_dialogues encoded_all_actions num_neg batch_pos_b
         intent_ids g.

(* ===================================================================== *)
(** ** Attention limited by time *)
(* ===================================================================== *)

Section TimeAttention.
Local Open Scope R_scope.

(** A dense layer of the tensor library before its activation: unit [k]
    maps a row to [pre_activation k row], an affine function with learned
    weights. *)
Record Dense : Type := {
  units : nat;
  pre_activation : nat -> list R -> R
}.

Definition dense_apply (d : Dense) (x : list R) : list R :=
  map (fun k => pre_activation d k x) (seq 0 (units d)).

(** A dense layer with one unit, as a number per row. *)
Definition dense_scalar (d : Dense) (x : list R) : R := pre_activation d 0 x.

Definition softplus (a : R) : R := ln (1 + exp a).

(** [tf.nn.softmax] along the last axis *)
Definition softmax (l : list R) : list R :=
  map (fun x => exp x / reduce_sum (map exp l)) l.

(** [tf.pow(x, y)] for [0 <= x] and [0 < y] *)
Definition tf_pow (x y : R) : R := if Rltb 0 x then Rpower x y else 0.

(** [TimedNTM]: the interpolation gate, the shift weighting when there is
    a shift range, the sharpening parameter. *)
Record TimedNTM : Type := {
  gate : Dense;
  s_w : option Dense;
  gamma : Dense
}.

(** [TimedNTM.__init__]; the learned weights of the three layers are
    given. *)
Definition TimedNTM_init (attn_shift_range : nat)
    (gate_weights : list R -> R) (s_w_weights : nat -> list R -> R)
    (gamma_weights : list R -> R) : TimedNTM :=
  {| gate := {| units := 1; pre_activation := fun _ => gate_weights |};
     s_w := if (attn_shift_range =? 0)%nat then None
            else Some {| units := 2 * attn_shift_range + 1;
                         pre_activation := s_w_weights |};
     gamma := {| units := 1; pre_activation := fun _ => gamma_weights |} |}.

(** [tf.nn.depthwise_conv2d_native] with strides 1 and padding ['SAME'] on
    one channel: the input is padded with zeros, [(K - 1) / 2] of them on
    the left for a filter of width [K]. *)
Definition conv1d_same (input filter : list R) : list R :=
  let K := length filter in
  let pad_left := ((K - 1) / 2)%nat in
  map (fun w =>
         reduce_sum
           (map (fun k =>
                   (if (pad_left <=? w + k)%nat
                    then nth (w + k - pad_left) input 0
                    else 0) * nth k filter 0)
                (seq 0 K)))
      (seq 0 (length input)).

(** The stages of [TimedNTM.__call__] on one row of the batch; every
    operation of the method acts on the rows of the batch one by one: the
    dense layers, the softmax and the sum along axis 1, and the depthwise
    convolution, whose channels are the rows. *)

(** Exponential moving average with the interpolation gate. *)
Definition ntm_interpolate (self : TimedNTM) (cell_output probs probs_state
                                             : list R) : list R :=
  let g := sigmoid (dense_scalar (gate self) cell_output) in
  zip_with (fun p s => g * p + (1 - g) * s)
    (take (length probs - 1) probs) probs_state
  ++ drop (length probs - 1) probs.

(** The softmax and, with a shift range, the convolution back in time. *)
Definition ntm_shift (self : TimedNTM) (cell_output probs : list R)
  : list R :=
  let probs := softmax probs in
  match s_w self with
  | Some layer =>
      let s_w := softmax (dense_apply layer cell_output) in
      let conv_probs := reverse probs in
      let conv_probs := conv1d_same conv_probs s_w in
      reverse conv_probs
  | None => probs
  end.

Definition ntm_gamma (self : TimedNTM) (cell_output : list R) : R :=
  softplus (dense_scalar (gamma self) cell_output) + 1.

Definition ntm_powed (self : TimedNTM) (cell_output probs : list R)
  : list R :=
  map (fun p => tf_pow p (ntm_gamma self cell_output)) probs.

Definition sharpening_epsilon : R := 1 / 10 ^ 32.

Definition TimedNTM_call_row (self : TimedNTM)
    (cell_output probs probs_state : list R) : list R * list R :=
  let probs := ntm_interpolate self cell_output probs probs_state in
  let next_probs_state := probs in
  (* limit time probabilities for attention *)
  let probs := ntm_shift self cell_output probs in
  (* Sharpening *)
  let powed_probs := ntm_powed self cell_output probs in
  let probs :=
    map (fun p => p / (reduce_sum powed_probs + sharpening_epsilon))
      powed_probs in
  (probs, next_probs_state).

(** The attention mechanism of the library as [_compute_time_attention]
    uses it: the alignments it computes for a row from the cell output and
    the attention state, and its values, the memory of the row. *)
Record AttentionMechanism : Type := {
  am_alignments : nat -> list R -> list R -> list R;
  am_values : nat -> tensor2
}.

(** [tf.matmul] of a row of alignments and the memory: entry [j] of the
    context is the sum over the memory positions of the alignment times
    entry [j] of the value at the position. *)
Definition context_of (alignments : list R) (values : tensor2) : list R :=
  map (fun j =>
         reduce_sum (zip_with (fun a v => a * nth j v 0) alignments values))
      (seq 0 (shape1 values)).

(** [_compute_time_attention] on row [b] of the batch. *)
Definition _compute_time_attention_row (attention_mechanism : AttentionMechanism)
    (b : nat) (cell_output attention_state : list R) (time : nat)
    (timed_ntm : TimedNTM) (attention_layer : option (list R -> list R))
  : list R * list R * list R :=
  let alignments := am_alignments attention_mechanism b cell_output
                      attention_state in
  let probs := take (time + 1) alignments in
  let probs_state := take time attention_state in
  let '(probs, next_probs_state) :=
    TimedNTM_call_row timed_ntm cell_output probs probs_state in
  (* concatenate probs with zeros to get new alignments *)
  let zeros := map (fun _ => 0) alignments in
  let alignments := probs ++ drop (time + 1) zeros in
  let next_attention_state := next_probs_state ++ drop (time + 1) zeros in
  let context := context_of alignments (am_values attention_mechanism b) in
  let attention :=
    match attention_layer with
    | Some layer => layer (cell_output ++ context)
    | None => context
    end in
  (attention, alignments, next_attention_state).

(** [_compute_time_attention] on the batch. *)
Definition _compute_time_attention (attention_mechanism : AttentionMechanism)
    (cell_output attention_state : tensor2) (time : nat)
    (timed_ntm : TimedNTM) (attention_layer : option (list R -> list R))
  : tensor2 * tensor2 * tensor2 :=
  let rows :=
    imap (fun b '(co, st) =>
            _compute_time_attention_row attention_mechanism b co st time
              timed_ntm attention_layer)
         (zip cell_output attention_state) in
  (map (fun r => fst (fst r)) rows,
   map (fun r => snd (fst r)) rows,
   map snd rows).

End TimeAttention.


(* ===================================================================== *)
(** ** Notions used in the statements *)
(* ===================================================================== *)

(** Entry [k] of row [b] of a matrix. *)
Definition lookup2 {A} (x : list (list A)) (b k : nat) : option A :=
  x !! b ≫= fun row => row !! k.

(** The sum of the powers that the sharpening of [TimedNTM.__call__]
    divides by, up to [sharpening_epsilon]. *)
Definition sharpened_mass (self : TimedNTM)
    (cell_output probs probs_state : list R) : R :=
  reduce_sum
    (ntm_powed self cell_output
       (ntm_shift self cell_output
          (ntm_interpolate self cell_output probs probs_state))).


(** The graph [persist] hands to the saver. *)
Definition persisted_graph {DialogueStateTracker : Type}
    (self : EmbeddingPolicy DialogueStateTracker) (g : Graph)
    (hist : list (option handle))
  : Graph :=
  persist_alignments 0 hist
    (set_collection "similarity_op" (sim_op self)
       (set_collection "prev_act_placeholder" (b_prev_in self)
          (set_collection "slots_placeholder" (c_in self)
             (set_collection "action_placeholder" (b_in self)
                (set_collection "intent_placeholder" (a_in self) g))))).

(** The file system [persist] leaves behind. *)
Definition persisted_fs {DialogueStateTracker : Type}
    (self : EmbeddingPolicy DialogueStateTracker) (sess : Session)
    (g' : Graph) (path : string)
    (fs : gmap string (file DialogueStateTracker))
  : gmap string (file DialogueStateTracker) :=
  <[path_join path file_name +:+ ".encoded_all_actions.pkl" :=
      FPickle (encoded_all_actions self)]>
    (<[path_join path file_name +:+ ".meta" := FMetaGraph g']>
       (<[path_join path file_name := FCheckpoint sess]>
          (<[path := FDir]>
             (<[path_join path "featurizer.json" :=
                  FFeaturizer (featurizer self)]>
                (<[path := FDir]> fs))))).

(** What holds of the candidates of one step: the positive first, then as
    many negatives as draws, each the row of an action that is not the
    correct one. *)
Definition candidates_ok (encoded_all_actions : list (list Z)) (num_neg : Z)
    (pos : list Z) (correct : nat) (candidates : list (list Z)) : Prop :=
  exists negs,
    candidates = pos :: take_rows encoded_all_actions negs /\
    length negs = Z.to_nat num_neg /\
    Forall (fun i => i ≠ correct /\ (i < length encoded_all_actions)%nat) negs.

(* ===================================================================== *)
(** ** Concrete objects used to run the definitions *)
(* ===================================================================== *)

(** A featurizer over trackers without content: one user feature, one slot
    feature, one previous-action feature, and two actions encoded as the
    unit vectors. *)
Definition toy_featurizer : Featurizer unit :=
  {| is_full_dialogue := true;
     share_vocab := None;
     user_feature_len := 1;
     slot_feature_len := 1;
     create_X := fun trackers _ => map (fun _ => [[1; 0; 0]%R]) trackers;
     featurize_for_training := fun trackers _ _ =>
       {| data_X := map (fun _ => [[1; 0; 0]%R]) trackers;
          data_y := map (fun _ => [[1; 0]%R]) trackers;
          true_length := map (fun _ => 1%Z) trackers |};
     create_encoded_all_actions := fun _ => [[1; 0]; [0; 1]]%Z |}.

Definition toy_domain : Domain := {| num_actions := 2 |}.


(** A session whose similarity output does not depend on the feed. *)
Definition toy_session (sim : tensor3) : Session :=
  {| session_run := fun _ _ _ => Ok (sim, []) |}.

Definition toy_trained_graph (sim : tensor3) : TrainedGraph :=
  {| tg_graph := {| collections := ∅ |};
     tg_session := toy_session sim;
     tg_a_in := "a:0";
     tg_b_in := "b:0";
     tg_c_in := "slt:0";
     tg_b_prev_in := "b_prev:0";
     tg_sim_op := "sim:0";
     tg_alignment_history := [Some "alignments:0"];
     tg_train_op := "Adam";
     tg_is_training := "is_training:0" |}.

Definition toy_build_and_fit (sim : tensor3)
  : Params -> R -> list (list Z) -> TrainingData -> TrainedGraph :=
  fun _ _ _ _ => toy_trained_graph sim.

(** The policy [train] returns with these objects when the attributes loaded
    from the configuration are [p]. *)
Definition toy_trained_policy (sim : tensor3) (p : Params)
  : EmbeddingPolicy unit :=
  {| featurizer := toy_featurizer;
     share_embedding := false;
     params := p;
     characteristic_time := Some (np_mean [1%Z]);
     encoded_all_actions := Some [[1; 0]; [0; 1]]%Z;
     session := Some (toy_session sim);
     graph := Some {| collections := ∅ |};
     a_in := Some "a:0";
     b_in := Some "b:0";
     c_in := Some "slt:0";
     b_prev_in := Some "b_prev:0";
     sim_op := Some "sim:0";
     alignment_history := Some [Some "alignments:0"];
     train_op := Some "Adam";
     is_training := Some "is_training:0" |}.


(** The keyword arguments [similarity_type='inner'] of a call of [train]. *)
Definition inner_kwargs : gmap string pyval :=
  {["similarity_type" := PStr "inner"]}.

(** The defaults with [similarity_type] set to ['inner']. *)
Definition inner_params : Params :=
  {| num_hidden_layers_a := 0; hidden_layer_size_a := PList [];
     num_hidden_layers_b := 0; hidden_layer_size_b := PList [];
     rnn_size := PInt 32; batch_size := PInt 16; epochs := PInt 1;
     embed_dim := PInt 20; mu_pos := PFloat (8 / 10);
     mu_neg := PFloat (- (2 / 10)); similarity_type := PStr "inner";
     num_neg := PInt 20; use_max_sim_neg := PBool true;
     C2 := PFloat (1 / 1000); C_emb := PFloat (8 / 10);
     droprate := <["out" := PFloat (1 / 10)]> (<["rnn" := PFloat (1 / 10)]>
                   (<["slt" := PFloat 0]> (<["b" := PFloat 0]>
                   (<["a" := PFloat 0]> ∅))));
     score_noise := PFloat 0; use_attention := PBool true;
     attn_shift_range := PNone;
     calc_acc_ones_in_epochs := PInt 50;
     calc_acc_on_num_examples := PInt 100 |}.


(** The policy the constructor returns for the toy featurizer. *)
Definition toy_fresh_policy : EmbeddingPolicy unit :=
  {| featurizer := toy_featurizer;
     share_embedding := false;
     params := default_params;
     characteristic_time := None;
     encoded_all_actions := None;
     session := None;
     graph := None;
     a_in := None; b_in := None; c_in := None; b_prev_in := None;
     sim_op := None;
     alignment_history := None;
     train_op := None;
     is_training := None |}.

(** An attention mechanism that scores every position of its memory
    with 0. *)
Definition toy_mechanism (memory_time : nat) : AttentionMechanism :=
  {| am_alignments := fun _ _ _ => replicate memory_time 0%R;
     am_values := fun _ => replicate memory_time [1%R] |}.

(* ===================================================================== *)
(** ** Further parts of the code *)
(* ===================================================================== *)

(** The attributes that [_load_params] copies from the configuration as
    they are: the key, its default and the attribute. *)
Definition plain_attributes : list (string * pyval * (Params -> pyval)) :=
  [ ("rnn_size", PInt 32, rnn_size);
    ("batch_size", PInt 16, batch_size);
    ("epochs", PInt 1, epochs);
    ("embed_dim", PInt 20, embed_dim);
    ("mu_pos", PFloat (8 / 10), mu_pos);
    ("mu_neg", PFloat (- (2 / 10)), mu_neg);
    ("similarity_type", PStr "cosine", similarity_type);
    ("num_neg", PInt 20, num_neg);
    ("use_max_sim_neg", PBool true, use_max_sim_neg);
    ("C2", PFloat (1 / 1000), C2);
    ("C_emb", PFloat (8 / 10), C_emb);
    ("score_noise", PFloat 0, score_noise);
    ("use_attention", PBool true, use_attention);
    ("attn_shift_range", PNone, attn_shift_range);
    ("calc_acc_on_num_examples", PInt 100, calc_acc_on_num_examples) ].

(** The dropout rates: the key of the configuration, its default and the key
    of [self.droprate]. *)
Definition droprate_attributes : list (string * pyval * string) :=
  [ ("droprate_a", PFloat 0, "a");
    ("droprate_b", PFloat 0, "b");
    ("droprate_slt", PFloat 0, "slt");
    ("droprate_rnn", PFloat (1 / 10), "rnn");
    ("droprate_out", PFloat (1 / 10), "out") ].


(** Keyword arguments that give tower [a] two hidden layers. *)
Definition tower_a_kwargs : gmap string pyval :=
  <["num_hidden_layers_a" := PInt 2]>
    (<["hidden_layer_size_a" := PList [PInt 64; PInt 32]]> ∅).

(** The defaults with two hidden layers in both towers. *)
Definition two_layer_params : Params :=
  {| num_hidden_layers_a := 2;
     hidden_layer_size_a := PList [PInt 64; PInt 32];
     num_hidden_layers_b := 2;
     hidden_layer_size_b := PList [PInt 64; PInt 32];
     rnn_size := PInt 32; batch_size := PInt 16; epochs := PInt 1;
     embed_dim := PInt 20; mu_pos := PFloat (8 / 10);
     mu_neg := PFloat (- (2 / 10)); similarity_type := PStr "cosine";
     num_neg := PInt 20; use_max_sim_neg := PBool true;
     C2 := PFloat (1 / 1000); C_emb := PFloat (8 / 10);
     droprate := <["out" := PFloat (1 / 10)]> (<["rnn" := PFloat (1 / 10)]>
                   (<["slt" := PFloat 0]> (<["b" := PFloat 0]>
                   (<["a" := PFloat 0]> ∅))));
     score_noise := PFloat 0; use_attention := PBool true;
     attn_shift_range := PNone;
     calc_acc_ones_in_epochs := PInt 50;
     calc_acc_on_num_examples := PInt 100 |}.

(* ===================================================================== *)
(** ** Training data, mask and batches *)
(* ===================================================================== *)

Section TrainingArrays.
Local Open Scope R_scope.

(** [np.argmax] along the last axis: the position of the first entry that no
    other entry exceeds. An empty axis is refused. *)
Fixpoint argmax_from (best : R) (best_idx idx : nat) (l : list R) : nat :=
  match l with
  | [] => best_idx
  | x :: rest =>
      if Rltb best x then argmax_from x idx (S idx) rest
      else argmax_from best best_idx (S idx) rest
  end.

Definition np_argmax (l : list R) : py nat :=
  match l with
  | [] => py_raise ValueError
  | x :: rest => mret (argmax_from x 0 1 rest)
  end.

(** [np.stack] of arrays of one shape: an empty list of arrays is refused. *)
Definition np_stack {A} (arrays : list A) : py (list A) :=
  match arrays with
  | [] => py_raise ValueError
  | _ => mret arrays
  end.

(** [self.encoded_all_actions[action_idx]] *)
Definition encoded_row (encoded : list (list Z)) (action_idx : nat)
  : py (list Z) :=
  match encoded !! action_idx with
  | Some row => mret row
  | None => py_raise IndexError
  end.

(** [_create_Y_actions_for_X]: the action of every step and its encoding. *)
Definition _create_Y_actions_for_X (encoded : list (list Z)) (data_Y : tensor3)
  : py (list (list (list Z)) * list (list nat)) :=
  actions_for_X ← mapM (mapM np_argmax) data_Y;
  Y ← (dialogues ← mapM (fun action_ids =>
                           steps ← mapM (encoded_row encoded) action_ids;
                           np_stack steps) actions_for_X;
       np_stack dialogues);
  mret (Y, actions_for_X).

(** [tf.sign] *)
Definition tf_sign (x : ereal) : R :=
  match x with
  | NegInf => -1
  | Finite r => if Rltb r 0 then -1 else if Rltb 0 r then 1 else 0
  end.

(** The mask of [_create_tf_graph]:
    [tf.sign(tf.reduce_max(self.a_in, -1) + 1)]. *)
Definition _create_tf_graph_mask (a_in : tensor3) : tensor2 :=
  map (map (fun features => tf_sign (ereal_add 1 (reduce_max features)))) a_in.

(** [real_length = tf.cast(tf.reduce_sum(mask, 1), tf.int32)] *)
Definition _create_tf_graph_real_length (a_in : tensor3) : list Z :=
  map (fun steps => trunc (reduce_sum steps)) (_create_tf_graph_mask a_in).

(** [np.sum] of a matrix *)
Definition np_sum (m : tensor2) : R := reduce_sum (map reduce_sum m).

(** The end of [_calc_train_acc], on the similarities and the mask that the
    session returned for the chosen dialogues and on their actions:
    [np.sum((np.argmax(_sim, -1) == actions_for_X[ids]) * _mask)] divided by
    [np.sum(_mask)]. *)
Definition _calc_train_acc (_sim : tensor3) (actions : list (list nat))
    (_mask : tensor2) : py R :=
  predicted ← mapM (mapM np_argmax) _sim;
  let hits :=
    zip_with (zip_with (fun p a => if (p =? a)%nat then 1 else 0))
      predicted actions in
  let train_acc := np_sum (zip_with (zip_with Rmult) hits _mask) in
  mret (train_acc / np_sum _mask).

End TrainingArrays.

(** Python's [l[start:stop]]: a negative bound counts from the end, and both
    bounds are clipped to the list. *)
Definition slice_bound (n i : Z) : Z :=
  if (i <? 0)%Z then Z.max 0 (i + n) else Z.min i n.

Definition py_slice {A} (l : list A) (start stop : Z) : list A :=
  let n := Z.of_nat (length l) in
  let s := slice_bound n start in
  let e := slice_bound n stop in
  take (Z.to_nat (e - s)) (drop (Z.to_nat s) l).

(** [range(n)] *)
Definition py_range (n : Z) : list Z := map Z.of_nat (seq 0 (Z.to_nat n)).

(** [batches_per_epoch] of [_train_tf] for an integer batch size:
    [len(X) // batch_size + int(len(X) % batch_size > 0)], where [None] stands
    for the [ZeroDivisionError] of a batch size 0. *)
Definition batches_per_epoch (len_X batch_size : Z) : option Z :=
  if (batch_size =? 0)%Z then None
  else Some (len_X / batch_size
             + (if (0 <? len_X mod batch_size)%Z then 1 else 0))%Z.

(** The index batches that one epoch of [_train_tf] reads from [ids], the
    permutation of the [len(X)] examples: [ids[start_idx:end_idx]] for every
    [i] of [range(batches_per_epoch)]. *)
Definition epoch_batches (ids : list nat) (batch_size : Z)
  : option (list (list nat)) :=
  n ← batches_per_epoch (Z.of_nat (length ids)) batch_size;
  Some (map (fun i => py_slice ids (i * batch_size) ((i + 1) * batch_size))
          (py_range n)).

(** A one-hot row of [k] entries for action [a]. *)
Definition one_hot (k a : nat) : list R :=
  map (fun i => if (i =? a)%nat then 1%R else 0%R) (seq 0 k).

(** A step whose features are all [-1]: the padding of a short dialogue. *)
Definition padding_step (features : list R) : bool :=
  forallb (fun x => Reqb x (-1)) features.

(* ===================================================================== *)
(** ** The attention wrapper *)
(* ===================================================================== *)

Section AttentionWrapper.
Local Open Scope R_scope.

(** [cell_input_fn] of [_create_attn_cell]:
    [tf.concat([attention, inputs[:, num_utter_units:]], -1)]. *)
Definition cell_input_fn (num_utter_units : nat) (inputs attention : tensor2)
  : tensor2 :=
  zip_with (fun a x => a ++ drop num_utter_units x) attention inputs.

(** The state of the wrapped cell: an [LSTMStateTuple] or one tensor. *)
Inductive cell_state_t : Type :=
| LSTMStateTuple (c h : tensor2)
| PlainState (s : tensor2).

(** [AttentionWrapperState] of a wrapper with one attention mechanism. The
    alignment history is a [TensorArray] indexed by the time, or [()] when
    the wrapper keeps none. *)
Record AttentionWrapperState : Type := {
  aws_cell_state : cell_state_t;
  aws_attention : tensor2;
  aws_time : nat;
  aws_alignments : tensor2;
  aws_alignment_history : option (gmap nat tensor2);
  aws_attention_state : tensor2
}.

(** [TimeAttentionWrapper] around one attention mechanism ([_is_multi] is
    false, as [_create_attn_cell] builds it): the wrapped cell, the
    mechanism with its [TimedNTM] and its attention layer, if any, and the
    flags. *)
Record TimeAttentionWrapper : Type := {
  _cell : tensor2 -> cell_state_t -> tensor2 * cell_state_t;
  _attention_mechanism : AttentionMechanism;
  _attention_layer : option (list R -> list R);
  _alignment_history : bool;
  _cell_input_fn : tensor2 -> tensor2 -> tensor2;
  _output_attention : bool;
  timed_ntms : TimedNTM
}.

(** [TimeAttentionWrapper.call]: one step of the wrapped cell. The batch
    size check of the library is not modelled. *)
Definition TimeAttentionWrapper_call (self : TimeAttentionWrapper)
    (inputs : tensor2) (state : AttentionWrapperState)
  : py (tensor2 * AttentionWrapperState) :=
  (* Step 1: attention based on the previous output and current input *)
  let out_for_attn :=
    match aws_cell_state state with
    | LSTMStateTuple _ h => zip_with app h inputs
    | PlainState s => zip_with app s inputs
    end in
  let '(attention, alignments, next_attention_state) :=
    _compute_time_attention (_attention_mechanism self) out_for_attn
      (aws_attention_state state) (aws_time state) (timed_ntms self)
      (_attention_layer self) in
  alignment_history ←
    (if _alignment_history self then
       match aws_alignment_history state with
       | Some previous =>
           mret (Some (<[aws_time state := alignments]> previous))
       | None => py_raise AttributeError
       end
     else mret None);
  (* Step 6: the true inputs to the cell *)
  let cell_inputs := _cell_input_fn self inputs attention in
  let '(cell_output, next_cell_state) :=
    _cell self cell_inputs (aws_cell_state state) in
  let next_state :=
    {| aws_time := aws_time state + 1;
       aws_cell_state := next_cell_state;
       aws_attention := attention;
       aws_attention_state := next_attention_state;
       aws_alignments := alignments;
       aws_alignment_history := alignment_history |} in
  mret (if _output_attention self then attention else cell_output, next_state).

End AttentionWrapper.

(** An alignment history up to time [T]: it holds alignments of times before
    [T] only, and the alignments of time [t] are zero at every memory
    position after [t]. *)
Definition causal_history (T : nat) (history : gmap nat tensor2) : Prop :=
  forall t a,
    history !! t = Some a ->
    (t < T)%nat /\
    Forall (fun row => forall i x, (t < i)%nat -> row !! i = Some x -> x = 0%R)
      a.

(** A mechanism over a memory of three positions whose last score and last
    value differ from those of [toy_mechanism 3]. *)
Definition other_future_mechanism : AttentionMechanism :=
  {| am_alignments := fun _ _ _ => [0; 0; 5]%R;
     am_values := fun _ => [[1]; [1]; [7]]%R |}.

(** A wrapper around a cell that returns its input and keeps its state. *)
Definition toy_wrapper : TimeAttentionWrapper :=
  {| _cell := fun x s => (x, s);
     _attention_mechanism := toy_mechanism 3;
     _attention_layer := None;
     _alignment_history := true;
     _cell_input_fn := cell_input_fn 1;
     _output_attention := false;
     timed_ntms := TimedNTM_init 0 (fun _ => 0%R) (fun _ _ => 0%R)
                     (fun _ => 0%R) |}.

Definition toy_zero_state : AttentionWrapperState :=
  {| aws_cell_state := LSTMStateTuple [[0%R]] [[0%R]];
     aws_attention := [[0%R]];
     aws_time := 0;
     aws_alignments := [[0; 0; 0]%R];
     aws_alignment_history := Some ∅;
     aws_attention_state := [[0; 0; 0]%R] |}.

(** The sum of the squares of a vector. *)
Definition square_sum (v : list R) : R :=
  reduce_sum (map (fun x => (x * x)%R) v).

(* ===================================================================== *)
(** ** The towers *)
(* ===================================================================== *)

Section Towers.
Local Open Scope R_scope.

(** [layer_size[i]] *)
Definition layer_size_at (layer_size : pyval) (i : nat) : py pyval :=
  match layer_size with
  | PList l =>
      match l !! i with
      | Some size => mret size
      | None => py_raise IndexError
      end
  | _ => py_raise TypeError
  end.

(** [tf.nn.relu] *)
Definition tf_nn_relu (x : list R) : list R := map (Rmax 0) x.

(** One pass of the loop of [_create_tf_nn] on a row: the dense layer
    [hidden_layer_<name>_<i>] with [layer_size[i]] units (the library takes
    [int(units)] and refuses a negative number) and the activation [relu],
    then [no_scale_dropout]. [weights] gives the pre-activation of every unit
    of a layer by the name of the layer, [noise] the draw of every unit. *)
Definition hidden_layer (weights : string -> nat -> list R -> R)
    (name : string) (layer_size : pyval) (droprate : R) (training : bool)
    (noise : nat -> nat -> R) (i : nat) (x : list R) : py (list R) :=
  size ← layer_size_at layer_size i;
  units ← py_int size;
  if (units <? 0)%Z then py_raise ValueError
  else
    let layer :=
      {| units := Z.to_nat units;
         pre_activation :=
           weights ("hidden_layer_" +:+ name +:+ "_" +:+ pretty i) |} in
    let x := tf_nn_relu (dense_apply layer x) in
    mret (no_scale_dropout x droprate (map (noise i) (seq 0 (length x)))
            (Some training)).

Fixpoint _create_tf_nn_loop (layer : nat -> list R -> py (list R))
    (indexes : list nat) (x : list R) : py (list R) :=
  match indexes with
  | [] => mret x
  | i :: rest => x ← layer i x; _create_tf_nn_loop layer rest x
  end.

(** [_create_tf_nn] on a row of the input. *)
Definition _create_tf_nn (weights : string -> nat -> list R -> R)
    (x_in : list R) (num_layers : Z) (layer_size : pyval) (droprate : R)
    (training : bool) (noise : nat -> nat -> R) (name : string)
  : py (list R) :=
  let x := tf_nn_relu x_in in
  _create_tf_nn_loop
    (hidden_layer weights name layer_size droprate training noise)
    (seq 0 (Z.to_nat num_layers)) x.

End Towers.

(** A size, or a list of sizes, of layers: integers that are not negative. *)
Definition layer_sizes (layer_size : pyval) : Prop :=
  match layer_size with
  | PInt z => (0 <= z)%Z
  | PList l => Forall (fun s => exists z, s = PInt z /\ (0 <= z)%Z) l
  | _ => False
  end.

(* ===================================================================== *)
(** ** Properties *)
(* ===================================================================== *)

Lemma Rltb_true (x y : R) : (x < y)%R -> Rltb x y = true.
Proof. intros H. unfold Rltb. destruct (Rlt_dec x y); [reflexivity | contradiction]. Qed.

Lemma Rltb_false (x y : R) : (y <= x)%R -> Rltb x y = false.
Proof. intros H. unfold Rltb. destruct (Rlt_dec x y); [lra | reflexivity]. Qed.

Lemma py_bind_ret {A B} (a : A) (k : A -> py B) : py_ret a ≫= k = k a.
Proof. unfold mbind, py_mbind, py_bind, py_ret. destruct (k a); reflexivity. Qed.

Lemma py_bind_log {B} (l : loglevel) (k : unit -> py B) :
  py_log l ≫= k = (l :: logs (k tt), outcome (k tt)).
Proof. unfold mbind, py_mbind, py_bind, py_log. destruct (k tt); reflexivity. Qed.

Lemma py_bind_raise {A B} (e : pyerr) (k : A -> py B) : py_raise e ≫= k = py_raise e.
Proof. reflexivity. Qed.

Ltac getitem_step :=
  match goal with
  | |- context [getitem ?m ?k] =>
      let H := fresh in
      eassert (H : getitem m k = py_ret _) by reflexivity;
      rewrite H; clear H
  end.

Ltac py_simpl :=
  repeat (first [ progress change (@mret py _ ?A ?x) with (@py_ret A x)
                | rewrite py_bind_ret ]);
  cbv beta.

Ltac py_step := first [rewrite py_bind_ret; cbv beta | getitem_step; cbn [snd]].

Lemma check_hidden_layer_sizes_default :
  _check_hidden_layer_sizes (PInt 0) (PList []) = py_ret (0%Z, PList []).
Proof. reflexivity. Qed.

Lemma load_params_defaults (share : bool) :
  _load_params share ∅ = py_ret default_params.
Proof.
  unfold _load_params.
  assert (Hc : (∅ : gmap string pyval) ∪ defaults = defaults)
    by apply (left_id_L ∅ (∪)).
  rewrite Hc. clear Hc.
  assert (Hlt : Rltb (IZR 50) 1 = false) by (apply Rltb_false; lra).
  unfold _load_nn_architecture_params, _load_regularization_droprate,
    _load_visual_params, py_lt_one.
  repeat py_step. rewrite check_hidden_layer_sizes_default.
  repeat py_step. rewrite check_hidden_layer_sizes_default.
  repeat py_step.
  assert (Hs : (if share
                then if bool_decide (0%Z ≠ 0%Z) || negb (py_eq (PList []) (PList []))
                     then _ ← py_log DEBUG; mret (0%Z, PList [])
                     else mret (0%Z, PList [])
                else mret (0%Z, PList [])) = py_ret (0%Z, PList []))
    by (destruct share; reflexivity).
  rewrite Hs. clear Hs.
  repeat py_step. simpl py_num. cbv iota. rewrite Hlt.
  repeat py_step. reflexivity.
Qed.

(* --------------------------------------------------------------------- *)
(** *** Hidden-layer sizes *)
(* --------------------------------------------------------------------- *)


Lemma py_bind_ok {A B} (w : list loglevel) (a : A) (k : A -> py B) :
  (w, Ok a) ≫= k = (w ++ logs (k a), outcome (k a)).
Proof. unfold mbind, py_mbind, py_bind. destruct (k a); reflexivity. Qed.

Lemma outcome_bind_ok {A B} (w : list loglevel) (a : A) (k : A -> py B) :
  outcome ((w, Ok a) ≫= k) = outcome (k a).
Proof. unfold mbind, py_mbind, py_bind. destruct (k a); reflexivity. Qed.



(* --------------------------------------------------------------------- *)
(** *** Inference *)
(* --------------------------------------------------------------------- *)

Section Inference.

Context {DialogueStateTracker : Type}.
Implicit Types (self : EmbeddingPolicy DialogueStateTracker)
  (tracker : DialogueStateTracker) (domain : Domain).

Lemma constructor_keeps_session tf std f enc sess g a b c bp so ah w self :
  EmbeddingPolicy_init (DialogueStateTracker := DialogueStateTracker)
    tf std f enc sess g a b c bp so ah = (w, Ok self) ->
  session self = sess /\ params self = default_params.
Proof.
  unfold EmbeddingPolicy_init, _check_tensorflow.
  destruct tf; [| discriminate].
  change (mret ()) with (py_ret ()). rewrite py_bind_ret.
  destruct f as [f |].
  - destruct (is_full_dialogue f); [| discriminate].
    change (mret ()) with (py_ret ()).
    rewrite py_bind_ret, load_params_defaults, py_bind_ret.
    intros [= <- <-]. split; reflexivity.
  - change (mret ()) with (py_ret ()).
    rewrite py_bind_ret, load_params_defaults, py_bind_ret.
    intros [= <- <-]. split; reflexivity.
Qed.

(** C7. On a policy without a session, [predict_action_probabilities] does
    not raise: it logs one error and returns [domain.num_actions] scores,
    all of them zero. *)
Theorem predict_without_session self tracker domain :
  session self = None ->
  logs (predict_action_probabilities self tracker domain) = [ERROR] /\
  exists result,
    outcome (predict_action_probabilities self tracker domain) = Ok result /\
    length result = num_actions domain /\
    Forall (fun x => x = 0%R) result.
Proof.
  intros Hs. unfold predict_action_probabilities. rewrite Hs.
  split; [reflexivity |].
  exists (replicate (num_actions domain) 0%R).
  split; [reflexivity |]. split.
  - apply length_replicate.
  - apply Forall_replicate. reflexivity.
Qed.

Lemma clip_negative_Rmax (row : list R) :
  clip_negative row = map (Rmax 0) row.
Proof.
  unfold clip_negative. apply map_ext. intros x.
  unfold Rltb, Rmax.
  destruct (Rlt_dec x 0), (Rle_dec 0 x); lra.
Qed.

Lemma reduce_sum_scale (c : R) (l : list R) :
  reduce_sum (map (fun x => (x / c)%R) l) = (reduce_sum l / c)%R.
Proof.
  induction l as [| x l IH]; simpl.
  - unfold Rdiv. lra.
  - rewrite IH. unfold Rdiv. lra.
Qed.

Lemma reduce_sum_exp_pos (l : list R) :
  l <> [] -> (0 < reduce_sum (map exp l))%R.
Proof.
  induction l as [| x l IH]; [congruence |]. intros _. simpl.
  pose proof (exp_pos x).
  destruct l as [| y l]; [simpl; lra |].
  assert (0 < reduce_sum (map exp (y :: l)))%R by (apply IH; congruence).
  lra.
Qed.

Lemma exp_normalize_sum (row : list R) :
  row <> [] -> reduce_sum (exp_normalize row) = 1%R.
Proof.
  intros Hne. unfold exp_normalize. rewrite reduce_sum_scale.
  pose proof (reduce_sum_exp_pos row Hne). field. lra.
Qed.

Lemma predict_with_session self sess tracker domain
    (d : list (list R)) (others : tensor3) (row : list R) :
  session self = Some sess ->
  outcome (run_similarity self sess tracker domain) = Ok (d :: others) ->
  last d = Some row ->
  outcome (predict_action_probabilities self tracker domain)
  = Ok (postprocess (similarity_type (params self)) row).
Proof.
  intros Hs Hrun Hlast.
  unfold predict_action_probabilities. rewrite Hs.
  destruct (run_similarity self sess tracker domain) as [w [sim | e]];
    simpl in Hrun; [| discriminate].
  injection Hrun as ->.
  rewrite outcome_bind_ok. unfold last_step_row. rewrite Hlast.
  py_simpl. reflexivity.
Qed.

Lemma postprocess_cosine (st : pyval) (row : list R) :
  py_eq st (PStr "cosine") = true ->
  postprocess st row = map (Rmax 0) row.
Proof.
  intros Hcos. unfold postprocess. rewrite Hcos. apply clip_negative_Rmax.
Qed.

(** C5. On a policy with a session, the scores returned are computed from
    the similarity row of the last step of the first dialogue alone. With
    [similarity_type] equal to ['cosine'] each score is the maximum of zero
    and the similarity, so no score is negative and nothing is renormalized;
    with ['inner'] each score is the exponential of the similarity divided by
    the sum of the exponentials, and the scores sum to 1. *)
Theorem predict_postprocessing self sess tracker domain
    (d : list (list R)) (others : tensor3) (row : list R) :
  session self = Some sess ->
  outcome (run_similarity self sess tracker domain) = Ok (d :: others) ->
  last d = Some row ->
  (py_eq (similarity_type (params self)) (PStr "cosine") = true ->
   exists result,
     outcome (predict_action_probabilities self tracker domain) = Ok result /\
     result = map (Rmax 0) row /\
     Forall (fun x => (0 <= x)%R) result) /\
  (similarity_type (params self) = PStr "inner" -> row <> [] ->
   exists result,
     outcome (predict_action_probabilities self tracker domain) = Ok result /\
     result = map (fun x => (exp x / reduce_sum (map exp row))%R) row /\
     reduce_sum result = 1%R).
Proof.
  intros Hs Hrun Hlast.
  pose proof (predict_with_session self sess tracker domain d others row
                Hs Hrun Hlast) as Hpred.
  split.
  - intros Hcos. eexists. split; [exact Hpred |].
    rewrite (postprocess_cosine _ _ Hcos).
    split; [reflexivity |].
    apply Forall_map, Forall_forall. intros x _. simpl. apply Rmax_l.
  - intros Hinner Hne. eexists. split; [exact Hpred |].
    unfold postprocess. rewrite Hinner.
    change (py_eq (PStr "inner") (PStr "cosine")) with false.
    change (py_eq (PStr "inner") (PStr "inner")) with true. cbv iota.
    split; [unfold exp_normalize; rewrite map_map; reflexivity |].
    apply (exp_normalize_sum row Hne).
Qed.

End Inference.

(* --------------------------------------------------------------------- *)
(** *** Persistence *)
(* --------------------------------------------------------------------- *)

Lemma string_length_app (a b : string) :
  String.length (a +:+ b) = (String.length a + String.length b)%nat.
Proof. induction a as [| c a IH]; simpl; [reflexivity | rewrite <- IH; reflexivity]. Qed.

Ltac path_neq :=
  let H := fresh in
  intros H; apply (f_equal String.length) in H;
  unfold path_join, file_name in H;
  rewrite ?string_length_app in H; simpl in H; lia.

Lemma alignment_collection_fresh (i : nat) (name : string) :
  name ∈ ["intent_placeholder"; "action_placeholder"; "slots_placeholder";
          "prev_act_placeholder"; "similarity_op"] ->
  alignment_collection i ≠ name.
Proof.
  intros Hin Heq. unfold alignment_collection in Heq.
  repeat (apply elem_of_cons in Hin as [-> | Hin]); try discriminate Heq.
  inversion Hin.
Qed.

Lemma get_set_collection (name : string) (v : option handle) (g : Graph) :
  get_collection name (set_collection name v g) = [v].
Proof.
  unfold get_collection, set_collection, add_to_collection, clear_collection.
  simpl. rewrite lookup_insert_eq, lookup_delete_eq. reflexivity.
Qed.

Lemma get_set_collection_ne (name name' : string) (v : option handle)
    (g : Graph) :
  name ≠ name' ->
  get_collection name' (set_collection name v g) = get_collection name' g.
Proof.
  intros Hne.
  unfold get_collection, set_collection, add_to_collection, clear_collection.
  simpl. rewrite lookup_insert_ne, lookup_delete_ne by exact Hne. reflexivity.
Qed.

Lemma get_persist_alignments (i : nat) (hs : list (option handle)) (g : Graph)
    (name : string) :
  (forall j, alignment_collection j ≠ name) ->
  get_collection name (persist_alignments i hs g) = get_collection name g.
Proof.
  intros Hfresh. revert i g.
  induction hs as [| h hs IH]; intros i g; simpl; [reflexivity |].
  rewrite IH. apply (get_set_collection_ne _ _ _ _ (Hfresh i)).
Qed.

Section Persistence.

Context {DialogueStateTracker : Type}.
Variable _standard_featurizer : Featurizer DialogueStateTracker.
Implicit Types (self loaded : EmbeddingPolicy DialogueStateTracker)
  (fs : gmap string (file DialogueStateTracker)).


Ltac fs_lookup :=
  unfold persisted_fs;
  repeat (rewrite lookup_insert_ne by path_neq);
  apply lookup_insert_eq.

Ltac collection_lookup :=
  rewrite get_persist_alignments
    by (intros j; apply alignment_collection_fresh; set_solver);
  repeat (rewrite get_set_collection_ne by discriminate);
  rewrite get_set_collection.

Lemma persist_then_load self path fs sess g hist :
  is_full_dialogue (featurizer self) = true ->
  session self = Some sess ->
  graph self = Some g ->
  alignment_history self = Some hist ->
  exists self' fs' loaded,
    outcome (persist self path fs) = Ok (self', fs') /\
    outcome (load true _standard_featurizer path fs') = Ok loaded /\
    params loaded = default_params /\
    featurizer loaded = featurizer self /\
    encoded_all_actions loaded = encoded_all_actions self /\
    session loaded = session self /\
    a_in loaded = a_in self /\ b_in loaded = b_in self /\
    c_in loaded = c_in self /\ b_prev_in loaded = b_prev_in self /\
    sim_op loaded = sim_op self /\
    alignment_history loaded
    = Some (load_alignments (persisted_graph self g hist)).
Proof.
  intros Hfull Hsess Hgraph Hhist.
  unfold persist. rewrite Hsess, Hgraph, Hhist.
  eexists.
  exists (persisted_fs self sess (persisted_graph self g hist) path fs).
  eexists. split; [reflexivity |].
  set (g' := persisted_graph self g hist).
  assert (Hdir : persisted_fs self sess g' path fs !! path = Some FDir)
    by fs_lookup.
  assert (Hfeat : persisted_fs self sess g' path fs
                    !! path_join path "featurizer.json"
                  = Some (FFeaturizer (featurizer self))) by fs_lookup.
  assert (Hckpt : persisted_fs self sess g' path fs
                    !! path_join path file_name
                  = Some (FCheckpoint sess)) by fs_lookup.
  assert (Hmeta : persisted_fs self sess g' path fs
                    !! (path_join path file_name +:+ ".meta")
                  = Some (FMetaGraph g')) by fs_lookup.
  assert (Hpkl : persisted_fs self sess g' path fs
                   !! (path_join path file_name +:+ ".encoded_all_actions.pkl")
                 = Some (FPickle (encoded_all_actions self))) by fs_lookup.
  unfold load, path_exists, featurizer_load, saver_restore.
  rewrite Hdir, Hfeat, Hckpt, Hmeta, Hpkl.
  rewrite !bool_decide_eq_true_2 by (eexists; reflexivity).
  py_simpl.
  unfold first_of_collection. subst g'. unfold persisted_graph.
  do 5 (collection_lookup; py_simpl).
  fold (persisted_graph self g hist).
  unfold EmbeddingPolicy_init, _check_tensorflow. py_simpl.
  cbn [Policy_init]. rewrite Hfull. py_simpl.
  rewrite load_params_defaults. py_simpl.
  split; [reflexivity |]. cbn.
  repeat split; first [reflexivity | symmetry; assumption].
Qed.

Lemma run_similarity_ext self loaded sess tracker domain :
  featurizer loaded = featurizer self ->
  encoded_all_actions loaded = encoded_all_actions self ->
  a_in loaded = a_in self -> b_in loaded = b_in self ->
  c_in loaded = c_in self -> b_prev_in loaded = b_prev_in self ->
  sim_op loaded = sim_op self ->
  alignment_history loaded = alignment_history self ->
  run_similarity loaded sess tracker domain
  = run_similarity self sess tracker domain.
Proof.
  intros Hf He Ha Hb Hc Hbp Hs Hal. unfold run_similarity.
  rewrite Hf, He, Ha, Hb, Hc, Hbp, Hs, Hal. reflexivity.
Qed.

Lemma load_alignments_persisted self g hist :
  length hist = NUM_ATTENTION_TYPES \/
  (hist = [] /\ get_collection (alignment_collection 0) g = []) ->
  load_alignments (persisted_graph self g hist) = hist.
Proof.
  unfold load_alignments, persisted_graph.
  change (seq 0 NUM_ATTENTION_TYPES) with [0%nat]. cbn [map concat].
  rewrite app_nil_r.
  intros [Hlen | [-> Hg]].
  - destruct hist as [| h [| h' hist]]; try discriminate Hlen.
    change (persist_alignments 0 [h] ?G)
      with (set_collection (alignment_collection 0) h G).
    apply get_set_collection.
  - cbn [persist_alignments].
    rewrite !get_set_collection_ne by discriminate.
    exact Hg.
Qed.

(** C10. Whatever attributes a policy with a session was configured and
    trained with, [persist] followed by [load] yields a policy whose
    attributes are the defaults ([similarity_type] is ['cosine'], [num_neg]
    is 20, [mu_pos] is 0.8, ...), and whose scores are the similarities of
    the last step with the negative ones set to zero: the branch for
    ['cosine'], also when the policy was trained with ['inner']. *)
Theorem load_carries_default_configuration self path fs sess g hist :
  is_full_dialogue (featurizer self) = true ->
  session self = Some sess ->
  graph self = Some g ->
  alignment_history self = Some hist ->
  exists self' fs' loaded,
    outcome (persist self path fs) = Ok (self', fs') /\
    outcome (load true _standard_featurizer path fs') = Ok loaded /\
    params loaded = default_params /\
    session loaded = Some sess /\
    forall tracker domain d others row,
      outcome (run_similarity loaded sess tracker domain) = Ok (d :: others) ->
      last d = Some row ->
      outcome (predict_action_probabilities loaded tracker domain)
      = Ok (map (Rmax 0) row).
Proof.
  intros Hfull Hsess Hgraph Hhist.
  destruct (persist_then_load self path fs sess g hist Hfull Hsess Hgraph Hhist)
    as (self' & fs' & loaded & Hp & Hl & Hpar & _ & _ & Hs & _).
  exists self', fs', loaded.
  rewrite Hsess in Hs.
  repeat (split; [assumption |]).
  intros tracker domain d others row Hrun Hlast.
  rewrite (predict_with_session loaded sess tracker domain d others row
             Hs Hrun Hlast), Hpar.
  rewrite postprocess_cosine by reflexivity. reflexivity.
Qed.

(** C9, amended. For a policy with a session whose [similarity_type] is
    ['cosine'] and whose alignment history holds one tensor per attention
    type (or none, in a graph without such a collection), [persist] followed
    by [load] yields a policy that returns the same scores, and logs the
    same, for every tracker and domain. *)
Theorem persist_load_same_scores_cosine self path fs sess g hist :
  is_full_dialogue (featurizer self) = true ->
  session self = Some sess ->
  graph self = Some g ->
  alignment_history self = Some hist ->
  length hist = NUM_ATTENTION_TYPES \/
    (hist = [] /\ get_collection (alignment_collection 0) g = []) ->
  py_eq (similarity_type (params self)) (PStr "cosine") = true ->
  exists self' fs' loaded,
    outcome (persist self path fs) = Ok (self', fs') /\
    outcome (load true _standard_featurizer path fs') = Ok loaded /\
    forall tracker domain,
      predict_action_probabilities loaded tracker domain
      = predict_action_probabilities self tracker domain.
Proof.
  intros Hfull Hsess Hgraph Hhist Hal Hcos.
  destruct (persist_then_load self path fs sess g hist Hfull Hsess Hgraph Hhist)
    as (self' & fs' & loaded & Hp & Hl & Hpar & Hf & He & Hs & Ha & Hb & Hc
        & Hbp & Hso & Hah).
  exists self', fs', loaded.
  repeat (split; [assumption |]).
  intros tracker domain. unfold predict_action_probabilities.
  rewrite Hs, Hsess.
  rewrite (run_similarity_ext self loaded sess tracker domain)
    by (try assumption;
        rewrite Hah, Hhist, (load_alignments_persisted self g hist Hal);
        reflexivity).
  rewrite Hpar. unfold postprocess. rewrite Hcos. reflexivity.
Qed.

End Persistence.

Lemma predict_without_session_witness :
  logs (predict_action_probabilities toy_fresh_policy tt toy_domain) = [ERROR]
  /\ exists result,
    outcome (predict_action_probabilities toy_fresh_policy tt toy_domain)
    = Ok result /\
    length result = 2%nat /\ Forall (fun x => x = 0%R) result.
Proof.
  apply (predict_without_session toy_fresh_policy tt toy_domain).
  reflexivity.
Defined.

Lemma predict_postprocessing_witness :
  let sim := [[[-1; 2]%R]] in
  (py_eq (PStr "inner") (PStr "cosine") = true ->
   exists result,
     outcome (predict_action_probabilities
                (toy_trained_policy sim inner_params) tt toy_domain)
     = Ok result /\
     result = map (Rmax 0) [-1; 2]%R /\
     Forall (fun x => (0 <= x)%R) result) /\
  (PStr "inner" = PStr "inner" -> [-1; 2]%R <> [] ->
   exists result,
     outcome (predict_action_probabilities
                (toy_trained_policy sim inner_params) tt toy_domain)
     = Ok result /\
     result = map (fun x => (exp x / reduce_sum (map exp [-1; 2]))%R)
                  [-1; 2]%R /\
     reduce_sum result = 1%R).
Proof.
  intros sim.
  apply (predict_postprocessing (toy_trained_policy sim inner_params)
           (toy_session sim) tt toy_domain [[-1; 2]%R] [] [-1; 2]%R);
    reflexivity.
Defined.

Lemma load_carries_default_configuration_witness :
  let self := toy_trained_policy [[[0; 0]%R]] inner_params in
  exists self' fs' loaded,
    outcome (persist self "model" ∅) = Ok (self', fs') /\
    outcome (load true toy_featurizer "model" fs') = Ok loaded /\
    params loaded = default_params /\
    session loaded = Some (toy_session [[[0; 0]%R]]) /\
    forall tracker domain d others row,
      outcome (run_similarity loaded (toy_session [[[0; 0]%R]]) tracker domain)
      = Ok (d :: others) ->
      last d = Some row ->
      outcome (predict_action_probabilities loaded tracker domain)
      = Ok (map (Rmax 0) row).
Proof.
  intros self.
  apply (load_carries_default_configuration toy_featurizer self "model" ∅
           (toy_session [[[0; 0]%R]]) {| collections := ∅ |}
           [Some "alignments:0"]); reflexivity.
Defined.

Lemma persist_load_same_scores_cosine_witness :
  let self := toy_trained_policy [[[-1; 2]%R]] default_params in
  exists self' fs' loaded,
    outcome (persist self "model" ∅) = Ok (self', fs') /\
    outcome (load true toy_featurizer "model" fs') = Ok loaded /\
    forall tracker domain,
      predict_action_probabilities loaded tracker domain
      = predict_action_probabilities self tracker domain.
Proof.
  intros self.
  apply (persist_load_same_scores_cosine toy_featurizer self "model" ∅
           (toy_session [[[-1; 2]%R]]) {| collections := ∅ |}
           [Some "alignments:0"]);
    first [reflexivity | left; reflexivity].
Defined.

Lemma load_params_inner : _load_params false inner_kwargs = py_ret inner_params.
Proof.
  unfold _load_params.
  assert (Hlt : Rltb (IZR 50) 1 = false) by (apply Rltb_false; lra).
  unfold _load_nn_architecture_params, _load_regularization_droprate,
    _load_visual_params, py_lt_one.
  repeat py_step. rewrite check_hidden_layer_sizes_default.
  repeat py_step. rewrite check_hidden_layer_sizes_default.
  repeat py_step. simpl py_num. cbv iota. rewrite Hlt.
  repeat py_step. reflexivity.
Qed.

Lemma toy_train_inner (sim : tensor3) :
  outcome (train (toy_build_and_fit sim) toy_fresh_policy [tt] toy_domain
             inner_kwargs)
  = Ok (toy_trained_policy sim
          (with_attn_num_neg inner_params
             (PInt (trunc (np_mean [1%Z] / 2))) (PInt 1))).
Proof.
  unfold train.
  change (py_log DEBUG) with ([DEBUG], Ok tt).
  rewrite outcome_bind_ok.
  change (size inner_kwargs =? 0)%nat with false. cbv iota.
  change (share_embedding toy_fresh_policy) with false.
  rewrite py_bind_ok, load_params_inner.
  cbn [logs outcome py_ret fst snd].
  rewrite outcome_bind_ok, outcome_bind_ok.
  unfold py_min. cbn [num_neg inner_params py_num toy_domain num_actions].
  change (Z.of_nat 2 - 1)%Z with 1%Z.
  rewrite Rltb_true by lra.
  rewrite py_bind_ret. reflexivity.
Qed.

(** C9 as stated fails. A policy is constructed, trained with
    [similarity_type='inner'] on a network whose similarities are 0 for both
    actions, persisted to an empty file system and loaded back: the trained
    policy scores both actions 1/2, the loaded one scores both 0. *)
Lemma persist_load_changes_scores_inner :
  let sim := [[[0; 0]%R]] in
  exists trained self' fs' loaded,
    outcome (EmbeddingPolicy_init true toy_featurizer (Some toy_featurizer)
               None None None None None None None None None)
    = Ok toy_fresh_policy /\
    outcome (train (toy_build_and_fit sim) toy_fresh_policy [tt] toy_domain
               inner_kwargs) = Ok trained /\
    outcome (persist trained "model" ∅) = Ok (self', fs') /\
    outcome (load true toy_featurizer "model" fs') = Ok loaded /\
    outcome (predict_action_probabilities trained tt toy_domain)
    = Ok [1 / 2; 1 / 2]%R /\
    outcome (predict_action_probabilities loaded tt toy_domain)
    = Ok [0; 0]%R.
Proof.
  intros sim.
  set (trained := toy_trained_policy sim
          (with_attn_num_neg inner_params
             (PInt (trunc (np_mean [1%Z] / 2))) (PInt 1))).
  destruct (persist_then_load toy_featurizer trained "model" ∅
              (toy_session sim) {| collections := ∅ |} [Some "alignments:0"]
              eq_refl eq_refl eq_refl eq_refl)
    as (self' & fs' & loaded & Hp & Hl & Hpar & Hf & He & Hs & Ha & Hb & Hc
        & Hbp & Hso & Hah).
  assert (Hsess' : session trained = Some (toy_session sim)) by reflexivity.
  exists trained, self', fs', loaded.
  split.
  { unfold EmbeddingPolicy_init, _check_tensorflow. py_simpl.
    cbn [is_full_dialogue toy_featurizer]. py_simpl.
    cbn [Policy_init share_vocab toy_featurizer default].
    rewrite load_params_defaults. py_simpl. reflexivity. }
  split; [apply toy_train_inner |].
  split; [exact Hp |]. split; [exact Hl |]. split.
  - change (outcome (predict_action_probabilities trained tt toy_domain))
      with (Ok (exp_normalize [0; 0]%R)).
    f_equal. unfold exp_normalize. simpl. rewrite exp_0.
    repeat f_equal; field.
  - rewrite Hsess' in Hs.
    rewrite (predict_with_session loaded (toy_session sim) tt toy_domain
               [[0; 0]%R] [] [0; 0]%R Hs).
    + rewrite Hpar, postprocess_cosine by reflexivity.
      f_equal. simpl. rewrite Rmax_left by lra. reflexivity.
    + rewrite (run_similarity_ext trained loaded (toy_session sim) tt
                 toy_domain) by (try assumption; rewrite Hah; reflexivity).
      reflexivity.
    + reflexivity.
Qed.

(* --------------------------------------------------------------------- *)
(** *** Dropout without rescaling *)
(* --------------------------------------------------------------------- *)

Section DropoutProperties.
Local Open Scope R_scope.

Lemma const_on_open_step (f : R -> R) (a b c : R) :
  a <= b -> (forall u, a < u < b -> f u = c) -> IsStepFun f a b.
Proof.
  intros Hab Hf. exists [a; b]. exists [c].
  unfold adapted_couple. simpl.
  repeat split.
  - intros i Hi. simpl in Hi. assert (i = 0%nat) by lia. subst. simpl. exact Hab.
  - rewrite Rmin_left by exact Hab. reflexivity.
  - rewrite Rmax_right by exact Hab. reflexivity.
  - intros i Hi. assert (i = 0%nat) by lia. subst. simpl.
    intros u Hu. apply Hf. exact Hu.
Qed.

Lemma const_on_open_integrable (f : R -> R) (a b c : R) :
  a <= b -> (forall u, a < u < b -> f u = c) -> Riemann_integrable f a b.
Proof.
  intros Hab Hf eps.
  exists (mkStepFun (const_on_open_step f a b c Hab Hf)).
  exists (mkStepFun (StepFun_P4 a b 0)).
  split.
  - intros t _. simpl. unfold fct_cte.
    rewrite Rminus_diag, Rabs_R0. lra.
  - rewrite StepFun_P18, Rmult_0_l, Rabs_R0. apply cond_pos.
Qed.

Lemma const_on_open_integral (f : R -> R) (a b c : R)
    (pr : Riemann_integrable f a b) :
  a <= b -> (forall u, a < u < b -> f u = c) -> RiemannInt pr = c * (b - a).
Proof.
  intros Hab Hf.
  rewrite <- (RiemannInt_P15 (RiemannInt_P14 a b c)).
  apply RiemannInt_P18; [exact Hab |].
  intros u Hu. unfold fct_cte. apply Hf. exact Hu.
Qed.

(** The mean over the uniform distribution on [0, 1) of a function that is
    [v0] below [a] and [v1] from [a] on: its integral from 0 to 1. *)
Lemma two_step_mean (f : R -> R) (a v0 v1 : R) :
  0 <= a <= 1 ->
  (forall u, 0 <= u < a -> f u = v0) ->
  (forall u, a <= u < 1 -> f u = v1) ->
  exists pr : Riemann_integrable f 0 1,
    RiemannInt pr = a * v0 + (1 - a) * v1.
Proof.
  intros [Ha0 Ha1] Hlow Hhigh.
  assert (Hl : forall u, 0 < u < a -> f u = v0)
    by (intros u Hu; apply Hlow; lra).
  assert (Hh : forall u, a < u < 1 -> f u = v1)
    by (intros u Hu; apply Hhigh; lra).
  pose (pr1 := const_on_open_integrable f 0 a v0 Ha0 Hl).
  pose (pr2 := const_on_open_integrable f a 1 v1 Ha1 Hh).
  exists (RiemannInt_P24 pr1 pr2).
  rewrite <- (RiemannInt_P26 pr1 pr2).
  rewrite (const_on_open_integral f 0 a v0 pr1 Ha0 Hl).
  rewrite (const_on_open_integral f a 1 v1 pr2 Ha1 Hh).
  lra.
Qed.

Lemma tf_floor_unit (x : R) : 0 <= x < 1 -> tf_floor x = 0.
Proof.
  intros Hx. unfold tf_floor.
  rewrite <- (Int_part_spec x 0); [reflexivity | simpl; lra].
Qed.

Lemma tf_floor_one (x : R) : 1 <= x < 2 -> tf_floor x = 1.
Proof.
  intros Hx. unfold tf_floor.
  rewrite <- (Int_part_spec x 1); [reflexivity | simpl; lra].
Qed.

(** In training an element is dropped when its draw is below the rate and
    kept as it is otherwise. *)
Lemma no_scale_dropout_elt_training (x rate u : R) :
  0 <= rate < 1 ->
  (0 <= u < rate -> no_scale_dropout_elt x rate (Some true) u = 0) /\
  (rate <= u < 1 -> no_scale_dropout_elt x rate (Some true) u = x).
Proof.
  intros Hr.
  unfold no_scale_dropout_elt, no_scale_keep_prob, tf_nn_dropout_elt, tf_cast.
  split; intros Hu.
  - rewrite tf_floor_unit by lra. lra.
  - rewrite tf_floor_one by lra. field. lra.
Qed.

Lemma no_scale_dropout_elt_inference (x rate u : R) :
  0 <= u < 1 -> no_scale_dropout_elt x rate (Some false) u = x.
Proof.
  intros Hu.
  unfold no_scale_dropout_elt, no_scale_keep_prob, tf_nn_dropout_elt, tf_cast.
  rewrite tf_floor_one by lra. field.
Qed.

Lemma no_scale_dropout_mean (x rate : R) :
  0 <= rate < 1 ->
  exists pr : Riemann_integrable (no_scale_dropout_elt x rate (Some true)) 0 1,
    RiemannInt pr = (1 - rate) * x.
Proof.
  intros Hr.
  destruct (two_step_mean (no_scale_dropout_elt x rate (Some true)) rate 0 x)
    as [pr Hpr].
  - lra.
  - intros u Hu. apply no_scale_dropout_elt_training; assumption.
  - intros u Hu. apply no_scale_dropout_elt_training; assumption.
  - exists pr. rewrite Hpr. lra.
Qed.

Lemma no_scale_dropout_lookup (xs noise : list R) (rate : R)
    (training : option bool) (i : nat) (y u : R) :
  xs !! i = Some y -> noise !! i = Some u ->
  no_scale_dropout xs rate noise training !! i
  = Some (no_scale_dropout_elt y rate training u).
Proof.
  intros Hy Hu. unfold no_scale_dropout, tf_nn_dropout.
  rewrite list_lookup_fmap, lookup_zip_with, Hy, Hu. reflexivity.
Qed.

Lemma no_scale_dropout_elt_kept_or_dropped (y rate v : R) :
  0 <= rate < 1 -> 0 <= v < 1 ->
  no_scale_dropout_elt y rate (Some true) v = if Rltb v rate then 0 else y.
Proof.
  intros Hr Hv. destruct (Rlt_dec v rate) as [Hlt | Hge].
  - rewrite Rltb_true by exact Hlt.
    apply no_scale_dropout_elt_training; [exact Hr | lra].
  - rewrite Rltb_false by lra.
    apply no_scale_dropout_elt_training; [exact Hr | lra].
Qed.

(** C8, amended. Element [i] of [no_scale_dropout] is a function of the
    element [y] of the input and of its draw [u]. With [training=True] and
    a rate [0 <= r < 1] the element is zero when its draw is below the rate
    and the input element [y] itself, not rescaled, otherwise; so its mean
    over the draw is [(1 - r) * y]. With [training=False] it is [y] for every
    draw. *)
Theorem no_scale_dropout_expectation (xs noise : list R) (rate : R)
    (i : nat) (y u : R) :
  0 <= rate < 1 ->
  xs !! i = Some y -> noise !! i = Some u -> 0 <= u < 1 ->
  (forall training,
     no_scale_dropout xs rate noise training !! i
     = Some (no_scale_dropout_elt y rate training u)) /\
  no_scale_dropout xs rate noise (Some true) !! i
  = Some (if Rltb u rate then 0 else y) /\
  (forall v, 0 <= v < 1 ->
     no_scale_dropout_elt y rate (Some true) v
     = if Rltb v rate then 0 else y) /\
  (exists pr : Riemann_integrable (no_scale_dropout_elt y rate (Some true)) 0 1,
     RiemannInt pr = (1 - rate) * y) /\
  no_scale_dropout xs rate noise (Some false) !! i = Some y.
Proof.
  intros Hr Hy Hu Hrange. split; [| split; [| split; [| split]]].
  - intros training. apply no_scale_dropout_lookup; assumption.
  - rewrite (no_scale_dropout_lookup xs noise rate (Some true) i y u Hy Hu).
    f_equal. now apply no_scale_dropout_elt_kept_or_dropped.
  - intros v Hv. now apply no_scale_dropout_elt_kept_or_dropped.
  - apply no_scale_dropout_mean. exact Hr.
  - rewrite (no_scale_dropout_lookup xs noise rate (Some false) i y u Hy Hu).
    rewrite no_scale_dropout_elt_inference by exact Hrange. reflexivity.
Qed.

Lemma no_scale_dropout_expectation_witness :
  (forall training,
     no_scale_dropout [2; 3] (1 / 4) [1 / 8; 1 / 2] training !! 1%nat
     = Some (no_scale_dropout_elt 3 (1 / 4) training (1 / 2))) /\
  no_scale_dropout [2; 3] (1 / 4) [1 / 8; 1 / 2] (Some true) !! 1%nat
  = Some (if Rltb (1 / 2) (1 / 4) then 0 else 3) /\
  (forall v, 0 <= v < 1 ->
     no_scale_dropout_elt 3 (1 / 4) (Some true) v
     = if Rltb v (1 / 4) then 0 else 3) /\
  (exists pr : Riemann_integrable
                 (no_scale_dropout_elt 3 (1 / 4) (Some true)) 0 1,
     RiemannInt pr = (1 - 1 / 4) * 3) /\
  no_scale_dropout [2; 3] (1 / 4) [1 / 8; 1 / 2] (Some false) !! 1%nat
  = Some 3.
Proof.
  apply (no_scale_dropout_expectation [2; 3] [1 / 8; 1 / 2] (1 / 4) 1 3
           (1 / 2)); first [reflexivity | lra].
Defined.

(** C8 as stated fails: with rate 1/2 the mean of the output for the input
    1 is 1/2, not 1. *)
Lemma no_scale_dropout_mean_not_preserved :
  (exists pr : Riemann_integrable
                 (no_scale_dropout_elt 1 (1 / 2) (Some true)) 0 1,
     RiemannInt pr = 1 / 2) /\
  (forall pr : Riemann_integrable
                 (no_scale_dropout_elt 1 (1 / 2) (Some true)) 0 1,
     RiemannInt pr <> 1).
Proof.
  destruct (no_scale_dropout_mean 1 (1 / 2)) as [pr Hpr]; [lra |].
  split.
  - exists pr. rewrite Hpr. lra.
  - intros pr'. rewrite (RiemannInt_P5 pr' pr), Hpr. lra.
Qed.

End DropoutProperties.

(* --------------------------------------------------------------------- *)
(** *** The recurrent cell *)
(* --------------------------------------------------------------------- *)

Section ChronoCellProperties.
Local Open Scope R_scope.

Lemma lookup2_Some {A} (x : list (list A)) (b k : nat) (a : A) :
  lookup2 x b k = Some a <-> exists row, x !! b = Some row /\ row !! k = Some a.
Proof.
  unfold lookup2. destruct (x !! b) as [row |]; simpl.
  - split; [eauto | intros (row' & [= <-] & H); exact H].
  - split; [discriminate | intros (row' & H & _); discriminate].
Qed.

Lemma lookup_map {A B} (f : A -> B) (l : list A) (i : nat) :
  map f l !! i = f <$> l !! i.
Proof.
  revert i. induction l as [| x l IH]; intros [| i]; simpl; auto.
Qed.

Lemma lookup2_map2d (f : R -> R) (x : tensor2) (b k : nat) (a : R) :
  lookup2 x b k = Some a -> lookup2 (map2d f x) b k = Some (f a).
Proof.
  rewrite !lookup2_Some. intros (row & Hb & Hk).
  exists (map f row). unfold map2d.
  rewrite !lookup_map, Hb, Hk. auto.
Qed.

Lemma lookup2_zip2d (f : R -> R -> R) (x y : tensor2) (b k : nat) (a a' : R) :
  lookup2 x b k = Some a -> lookup2 y b k = Some a' ->
  lookup2 (zip2d f x y) b k = Some (f a a').
Proof.
  rewrite !lookup2_Some. intros (row & Hb & Hk) (row' & Hb' & Hk').
  exists (zip_with f row row'). unfold zip2d.
  rewrite !lookup_zip_with, Hb, Hb', Hk, Hk'. auto.
Qed.

Lemma lookup2_add_bias (x : tensor2) (bias : list R) (b k : nat) (a v : R) :
  lookup2 x b k = Some a -> bias !! k = Some v ->
  lookup2 (add_bias x bias) b k = Some (a + v).
Proof.
  rewrite !lookup2_Some. intros (row & Hb & Hk) Hv.
  exists (zip_with Rplus row bias). unfold add_bias.
  rewrite lookup_map, lookup_zip_with, Hb, Hk, Hv. auto.
Qed.

Lemma lookup_split_chunk (c n k : nat) (row : list R) (a : R) :
  length row = (4 * n)%nat -> (k < n)%nat ->
  row !! (c * n + k)%nat = Some a ->
  split_chunk c row !! k = Some a.
Proof.
  intros Hlen Hk Ha. unfold split_chunk.
  replace (length row / 4)%nat with n
    by (rewrite Hlen, Nat.mul_comm, Nat.div_mul; lia).
  rewrite lookup_take_lt by exact Hk. rewrite lookup_drop. exact Ha.
Qed.

Lemma lookup2_concat_chunk (linear : list R -> list R) (inputs h : tensor2)
    (x hb : list R) (c n b k : nat) (a : R) :
  inputs !! b = Some x -> h !! b = Some hb ->
  length (linear (x ++ hb)) = (4 * n)%nat -> (k < n)%nat ->
  linear (x ++ hb) !! (c * n + k)%nat = Some a ->
  lookup2 (map (split_chunk c) (map linear (zip_with app inputs h))) b k
  = Some a.
Proof.
  intros Hx Hh Hlen Hk Ha. apply lookup2_Some.
  exists (split_chunk c (linear (x ++ hb))). split.
  - rewrite !lookup_map, lookup_zip_with, Hx, Hh. reflexivity.
  - apply (lookup_split_chunk c n); assumption.
Qed.

(** C4. For the cell made by [_create_rnn_cell], unit [k] of row [b] of the
    new state is
    [new_c = c * sigmoid(f + bias_f) + g * sigmoid(i + bias_i)] and
    [new_h = tanh(new_c) * sigmoid(o)], where [i, j, f, o] are the four
    chunks of the linear map of [inputs, h], [g] is [tanh(j)] after the
    recurrent dropout, [bias_f] is [log((characteristic_time - 2) * u + 1)]
    for the draw [u] of the unit and [bias_i = - bias_f]; the output of the
    cell is [new_h], and the whole input bias is the negated forget bias. *)
Theorem chrono_cell_transition
    (characteristic_time droprate_rnn : R) (rnn_size : nat) (random : list R)
    (is_training : bool) (linear : list R -> list R)
    (norm : string -> tensor2 -> tensor2)
    (inputs c h noise : tensor2) (b k : nat)
    (x hb : list R) (ck uk nk ik jk fk ok : R) :
  let cell := _create_rnn_cell characteristic_time rnn_size random droprate_rnn
                is_training linear norm in
  let z := linear (x ++ hb) in
  length random = rnn_size ->
  length z = (4 * rnn_size)%nat ->
  inputs !! b = Some x -> h !! b = Some hb ->
  lookup2 c b k = Some ck -> lookup2 noise b k = Some nk ->
  random !! k = Some uk ->
  z !! k = Some ik ->
  z !! (rnn_size + k)%nat = Some jk ->
  z !! (2 * rnn_size + k)%nat = Some fk ->
  z !! (3 * rnn_size + k)%nat = Some ok ->
  let bias_f := ln ((characteristic_time - 2) * uk + 1) in
  let bias_i := - bias_f in
  let g := tf_nn_dropout_elt (tanh jk)
             (1 - droprate_rnn * tf_cast is_training) nk in
  let new_c := ck * sigmoid (fk + bias_f) + g * sigmoid (ik + bias_i) in
  let new_h := tanh new_c * sigmoid ok in
  let result := ChronoLayerNormBasicLSTMCell_call cell inputs (c, h) noise in
  lookup2 (fst (snd result)) b k = Some new_c /\
  lookup2 (snd (snd result)) b k = Some new_h /\
  fst result = snd (snd result) /\
  _forget_bias cell !! k = Some bias_f /\
  _input_bias cell !! k = Some bias_i /\
  _input_bias cell = map Ropp (_forget_bias cell).
Proof.
  intros cell z Hrandom Hz Hx Hh Hc Hn Hu Hi Hj Hf Ho
    bias_f bias_i g new_c new_h result.
  assert (Hk : (k < rnn_size)%nat)
    by (rewrite <- Hrandom; apply lookup_lt_Some with uk; exact Hu).
  assert (Hbf : _forget_bias cell !! k = Some bias_f)
    by (simpl; rewrite lookup_map, Hu; reflexivity).
  assert (Hbi : _input_bias cell !! k = Some bias_i)
    by (simpl; rewrite !lookup_map, Hu; reflexivity).
  pose (concat := map linear (zip_with app inputs h)).
  assert (Hli : lookup2 (map (split_chunk 0) concat) b k = Some ik)
    by (apply (lookup2_concat_chunk linear inputs h x hb 0 rnn_size);
        assumption).
  assert (Hlj : lookup2 (map (split_chunk 1) concat) b k = Some jk).
  { apply (lookup2_concat_chunk linear inputs h x hb 1 rnn_size);
      try assumption.
    rewrite Nat.mul_1_l. exact Hj. }
  assert (Hlf : lookup2 (map (split_chunk 2) concat) b k = Some fk)
    by (apply (lookup2_concat_chunk linear inputs h x hb 2 rnn_size);
        assumption).
  assert (Hlo : lookup2 (map (split_chunk 3) concat) b k = Some ok)
    by (apply (lookup2_concat_chunk linear inputs h x hb 3 rnn_size);
        assumption).
  assert (Hg : lookup2
                 (zip_with (fun row u =>
                    tf_nn_dropout row (1 - droprate_rnn * tf_cast is_training) u)
                    (map2d tanh (map (split_chunk 1) concat)) noise) b k
               = Some g).
  { apply (lookup2_map2d tanh) in Hlj.
    apply lookup2_Some in Hlj as (row & Hrow & Hrk).
    apply lookup2_Some in Hn as (nrow & Hnrow & Hnk).
    apply lookup2_Some. eexists. split.
    - rewrite lookup_zip_with, Hrow, Hnrow. reflexivity.
    - unfold tf_nn_dropout. rewrite lookup_zip_with, Hrk, Hnk. reflexivity. }
  assert (Hnew_c : lookup2 (fst (snd result)) b k = Some new_c).
  { subst result. unfold ChronoLayerNormBasicLSTMCell_call. simpl.
    fold concat.
    apply lookup2_zip2d.
    - apply lookup2_zip2d; [exact Hc |].
      apply lookup2_map2d, lookup2_add_bias; assumption.
    - apply lookup2_zip2d; [exact Hg |].
      apply lookup2_map2d, lookup2_add_bias; assumption. }
  split; [exact Hnew_c |]. split; [| split; [reflexivity | auto]].
  subst result. unfold ChronoLayerNormBasicLSTMCell_call in *.
  simpl in *. fold concat in Hnew_c |- *.
  apply lookup2_zip2d.
  - apply lookup2_map2d. exact Hnew_c.
  - apply lookup2_map2d. exact Hlo.
Qed.

Lemma chrono_cell_transition_witness :
  let cell := _create_rnn_cell 4 1 [1 / 2] 0 false (fun _ => [1; 2; 3; 4])
                (fun _ t => t) in
  let bias_f := ln ((4 - 2) * (1 / 2) + 1) in
  let bias_i := - bias_f in
  let g := tf_nn_dropout_elt (tanh 2) (1 - 0 * tf_cast false) (1 / 2) in
  let new_c := 5 * sigmoid (3 + bias_f) + g * sigmoid (1 + bias_i) in
  let new_h := tanh new_c * sigmoid 4 in
  let result :=
    ChronoLayerNormBasicLSTMCell_call cell [[0]] ([[5]], [[0]]) [[1 / 2]] in
  lookup2 (fst (snd result)) 0 0 = Some new_c /\
  lookup2 (snd (snd result)) 0 0 = Some new_h /\
  fst result = snd (snd result) /\
  _forget_bias cell !! 0%nat = Some bias_f /\
  _input_bias cell !! 0%nat = Some bias_i /\
  _input_bias cell = map Ropp (_forget_bias cell).
Proof.
  apply (chrono_cell_transition 4 0 1 [1 / 2] false (fun _ => [1; 2; 3; 4])
           (fun _ t => t) [[0]] [[5]] [[0]] [[1 / 2]] 0 0 [0] [0]
           5 (1 / 2) (1 / 2) 1 2 3 4); reflexivity.
Defined.

End ChronoCellProperties.

(* --------------------------------------------------------------------- *)
(** *** Similarity and loss *)
(* --------------------------------------------------------------------- *)

Section LossProperties.
Local Open Scope R_scope.

Lemma zip_with_map_same {A} (f g : A -> R) (l : list A) :
  zip_with Rplus (map f l) (map g l) = map (fun x => f x + g x) l.
Proof. induction l as [| x l IH]; simpl; [reflexivity | rewrite IH; reflexivity]. Qed.

Lemma zip2d_map_same {A} (f g : A -> R) (x : list (list A)) :
  zip2d Rplus (map (map f) x) (map (map g) x)
  = map (map (fun r => f r + g r)) x.
Proof.
  unfold zip2d. induction x as [| d x IH]; simpl; [reflexivity |].
  rewrite IH, zip_with_map_same. reflexivity.
Qed.

(** The masked loss of [_tf_loss] before the penalty on the actions. *)
Lemma tf_loss_base (use_max_sim_neg : bool) (mu_pos mu_neg : R) (num_neg : nat)
    (sim : tensor3) (mask : tensor2) :
  (if use_max_sim_neg then
     zip2d Rmult
       (zip2d Rplus
          (map (map (fun row => Rmax 0 (mu_pos - nth 0 row 0))) sim)
          (map (map (fun m => maximum0 (ereal_add mu_neg m)))
             (map (map (fun row => reduce_max (drop 1 row))) sim)))
       mask
   else
     zip2d Rmult
       (map (map reduce_sum)
          (map (map (fun row =>
                  zip_with (fun m fs => Rmax 0 (m + fs))
                    (mu_pos :: replicate num_neg mu_neg)
                    (zip_with Rmult (- 1 :: replicate (length row - 1) 1) row)))
             sim))
       mask)
  = zip2d Rmult
      (map (map (step_base use_max_sim_neg mu_pos mu_neg num_neg)) sim) mask.
Proof.
  destruct use_max_sim_neg; unfold step_base.
  - replace (map (map (fun m => maximum0 (ereal_add mu_neg m)))
               (map (map (fun row => reduce_max (drop 1 row))) sim))
      with (map (map (fun row =>
                   maximum0 (ereal_add mu_neg (reduce_max (drop 1 row))))) sim)
      by (rewrite map_map; apply map_ext; intros d; rewrite map_map;
          reflexivity).
    rewrite zip2d_map_same. reflexivity.
  - rewrite map_map. f_equal. apply map_ext. intros d. apply map_map.
Qed.

Lemma sum_steps_code (base act : list R -> R) (C : R)
    (d d_act : tensor2) (md : list R) :
  reduce_sum
    (zip_with Rplus (zip_with Rmult (map base d) md)
       (map (fun x => x * C) (map act d_act)))
  = sum_steps (fun row row_act m => base row * m + C * act row_act)
      d d_act md.
Proof.
  revert d_act md. induction d as [| row d IH]; intros d_act md.
  - destruct d_act, md; reflexivity.
  - destruct md as [| m md]; [destruct d_act; reflexivity |].
    destruct d_act as [| row_act d_act]; [reflexivity |].
    simpl. rewrite IH. lra.
Qed.

Lemma sum_dialogues_code (base act : list R -> R) (C : R)
    (sim sim_act : tensor3) (mask : tensor2) :
  let per_dialogue :=
    zip_with (fun l m => reduce_sum l / reduce_sum m)
      (zip2d Rplus (zip2d Rmult (map (map base) sim) mask)
         (map2d (fun x => x * C) (map (map act) sim_act)))
      mask in
  sum_dialogues (fun row row_act m => base row * m + C * act row_act)
    sim sim_act mask
  = (reduce_sum per_dialogue, length per_dialogue).
Proof.
  revert sim_act mask. induction sim as [| d sim IH]; intros sim_act mask.
  - destruct sim_act, mask; reflexivity.
  - destruct mask as [| md mask]; [destruct sim_act; reflexivity |].
    destruct sim_act as [| d_act sim_act]; [reflexivity |].
    simpl. rewrite IH. simpl.
    rewrite <- (sum_steps_code base act C d d_act md). reflexivity.
Qed.

Lemma tf_loss_mean_loss (use_max_sim_neg : bool) (mu_pos mu_neg C_emb : R)
    (num_neg : nat) (regularization_loss : R) (sim sim_act : tensor3)
    (mask : tensor2) :
  _tf_loss use_max_sim_neg mu_pos mu_neg C_emb num_neg regularization_loss
    sim sim_act mask
  = mean_loss (code_step_loss use_max_sim_neg mu_pos mu_neg C_emb num_neg)
      regularization_loss sim sim_act mask.
Proof.
  unfold _tf_loss, mean_loss, code_step_loss.
  rewrite tf_loss_base.
  rewrite (sum_dialogues_code
             (step_base use_max_sim_neg mu_pos mu_neg num_neg)
             (fun row => maximum0 (reduce_max row)) C_emb sim sim_act mask).
  reflexivity.
Qed.

Lemma maximum0_reduce_max_zeros (l : list R) :
  maximum0 (reduce_max (map (fun s => s * 0) l)) = 0.
Proof.
  assert (H : reduce_max (map (fun s => s * 0) l) = NegInf \/
              reduce_max (map (fun s => s * 0) l) = Finite 0).
  { induction l as [| x l IH]; [left; reflexivity |]. right. simpl.
    destruct IH as [-> | ->]; f_equal; [lra |].
    rewrite Rmult_0_r. apply Rmax_left. lra. }
  destruct H as [-> | ->]; simpl; [reflexivity | apply Rmax_left; lra].
Qed.

Lemma tf_sim_masked_rows (st : pyval) (emb_dial : tensor3)
    (emb_act : list tensor3) (mask : tensor2) (sim sim_act : tensor3)
    (b t : nat) (m : R) (row row_act : list R) :
  outcome (_tf_sim st emb_dial emb_act mask) = Ok (sim, sim_act) ->
  lookup2 mask b t = Some m ->
  lookup2 sim b t = Some row -> lookup2 sim_act b t = Some row_act ->
  exists r ra,
    row = map (fun s => s * m) r /\ row_act = map (fun s => s * m) ra.
Proof.
  unfold _tf_sim.
  destruct (py_eq st (PStr "cosine") || py_eq st (PStr "inner"));
    [| discriminate].
  intros [= <- <-] Hm Hrow Hact.
  apply lookup2_Some in Hm as (md & Hmd & Hmt).
  apply lookup2_Some in Hrow as (d & Hd & Hdt).
  apply lookup2_Some in Hact as (da & Hda & Hdat).
  rewrite lookup_zip_with, Hmd in Hd, Hda.
  destruct (_ !! b) as [d0 |] in Hd; [| discriminate]. simpl in Hd.
  destruct (_ !! b) as [da0 |] in Hda; [| discriminate]. simpl in Hda.
  injection Hd as <-. injection Hda as <-.
  rewrite lookup_zip_with, Hmt in Hdt, Hdat.
  destruct (d0 !! t) as [r |]; [| discriminate].
  destruct (da0 !! t) as [ra |]; [| discriminate].
  simpl in Hdt, Hdat. injection Hdt as <-. injection Hdat as <-.
  exists r, ra. split; reflexivity.
Qed.

(** C3, amended. [_tf_loss] is the mean over the dialogues of the sum over
    the steps, divided by the sum of the mask of the dialogue, of the loss of
    a step, plus the regularization loss. The loss of a step is its base
    term times the mask plus [C_emb * max(0, max(sim_act))]: the penalty on
    the similarity among the actions goes through a hinge as well. With
    [use_max_sim_neg] and at least one negative the base term is
    [max(0, mu_pos - sim_pos) + max(0, mu_neg + max(sim_negatives))]. A step
    whose mask is 0 adds nothing when the similarities come from
    [_tf_sim], which multiplies them by the mask. *)
Theorem tf_loss_per_step (use_max_sim_neg : bool) (mu_pos mu_neg C_emb : R)
    (num_neg : nat) (regularization_loss : R) (sim sim_act : tensor3)
    (mask : tensor2) :
  _tf_loss use_max_sim_neg mu_pos mu_neg C_emb num_neg regularization_loss
    sim sim_act mask
  = mean_loss (code_step_loss use_max_sim_neg mu_pos mu_neg C_emb num_neg)
      regularization_loss sim sim_act mask /\
  (forall row row_act m,
     drop 1 row <> [] ->
     code_step_loss true mu_pos mu_neg C_emb num_neg row row_act m
     = (Rmax 0 (mu_pos - nth 0 row 0)
        + Rmax 0 (mu_neg + stated_max (drop 1 row))) * m
       + C_emb * Rmax 0 (stated_max row_act)) /\
  (forall st emb_dial emb_act b t row row_act,
     outcome (_tf_sim st emb_dial emb_act mask) = Ok (sim, sim_act) ->
     lookup2 mask b t = Some 0 ->
     lookup2 sim b t = Some row -> lookup2 sim_act b t = Some row_act ->
     code_step_loss use_max_sim_neg mu_pos mu_neg C_emb num_neg row row_act 0
     = 0).
Proof.
  split; [apply tf_loss_mean_loss |]. split.
  - intros row row_act m Hneg. unfold code_step_loss, step_base, stated_max.
    destruct (drop 1 row) as [| s negs] eqn:Hdrop; [congruence |].
    assert (Hmax : exists r, reduce_max (s :: negs) = Finite r)
      by (simpl; destruct (reduce_max negs); eauto).
    destruct Hmax as [r ->]. simpl.
    destruct (reduce_max row_act) as [| ra]; simpl.
    + rewrite (Rmax_left 0 0) by lra. reflexivity.
    + reflexivity.
  - intros st emb_dial emb_act b t row row_act Hsim Hm Hrow Hact.
    destruct (tf_sim_masked_rows st emb_dial emb_act mask sim sim_act b t 0
                row row_act Hsim Hm Hrow Hact) as (r & ra & -> & ->).
    unfold code_step_loss. rewrite maximum0_reduce_max_zeros. lra.
Qed.

Lemma tf_loss_per_step_witness :
  let sim := [[[1; - 1]]] in
  let sim_act := [[[- 1]]] in
  let mask := [[1]] in
  _tf_loss true (8 / 10) (- (2 / 10)) (8 / 10) 1 0 sim sim_act mask
  = mean_loss (code_step_loss true (8 / 10) (- (2 / 10)) (8 / 10) 1) 0
      sim sim_act mask /\
  code_step_loss true (8 / 10) (- (2 / 10)) (8 / 10) 1 [1; - 1] [- 1] 1
  = (Rmax 0 (8 / 10 - nth 0 [1; - 1] 0)
     + Rmax 0 (- (2 / 10) + stated_max (drop 1 [1; - 1]))) * 1
    + 8 / 10 * Rmax 0 (stated_max [- 1]).
Proof.
  intros sim sim_act mask.
  destruct (tf_loss_per_step true (8 / 10) (- (2 / 10)) (8 / 10) 1 0
              sim sim_act mask) as (Hloss & Hstep & _).
  split; [exact Hloss |].
  apply Hstep. discriminate.
Defined.

Ltac eval_Rmax :=
  repeat match goal with
         | |- context [Rmax ?a ?b] =>
             first [ rewrite (Rmax_left a b) by lra
                   | rewrite (Rmax_right a b) by lra ]
         end.

(** C3 as stated fails. For the dialogue embedding (1, 0), the positive
    action (1, 0) and one negative action (-1, 0), with the inner product the
    similarity among the actions is -1: the loss of the code is 0, the loss
    with [C_emb * max(sim_act)] as it is would be -0.8. *)
Lemma tf_loss_hinges_action_penalty :
  let emb_dial := [[[1; 0]]] in
  let emb_act := [[[[1; 0]; [- 1; 0]]]] in
  let mask := [[1]] in
  exists sim sim_act,
    outcome (_tf_sim (PStr "inner") emb_dial emb_act mask) = Ok (sim, sim_act)
    /\ _tf_loss true (8 / 10) (- (2 / 10)) (8 / 10) 1 0 sim sim_act mask = 0
    /\ stated_loss (8 / 10) (- (2 / 10)) (8 / 10) 0 sim sim_act mask
       = - (8 / 10).
Proof.
  intros emb_dial emb_act mask. do 2 eexists.
  split; [reflexivity |]. split.
  - unfold _tf_loss, reduce_mean, zip2d, map2d, dot. simpl.
    eval_Rmax. lra.
  - unfold stated_loss, mean_loss, stated_step_loss, stated_max, dot. simpl.
    eval_Rmax. lra.
Qed.

End LossProperties.

(* --------------------------------------------------------------------- *)
(** *** Negative sampling *)
(* --------------------------------------------------------------------- *)

Lemma py_min_int (a b : Z) :
  py_min (PInt a) (PInt b) = py_ret (PInt (Z.min a b)).
Proof.
  unfold py_min. simpl. f_equal. f_equal.
  destruct (Z.lt_ge_cases b a) as [Hlt | Hge].
  - rewrite Rltb_true by (apply IZR_lt; exact Hlt).
    rewrite Z.min_r by lia. reflexivity.
  - rewrite Rltb_false by (apply IZR_le; exact Hge).
    rewrite Z.min_l by lia. reflexivity.
Qed.

Lemma negative_indexes_spec (n correct i : nat) :
  i ∈ negative_indexes n correct <-> (i < n)%nat /\ i ≠ correct.
Proof.
  unfold negative_indexes.
  rewrite list_elem_of_filter, elem_of_seq. split; intros H; lia.
Qed.

Lemma negative_indexes_nonempty (n correct : nat) :
  (2 <= n)%nat -> negative_indexes n correct ≠ [].
Proof.
  intros Hn Hnil.
  destruct (decide (correct = 0%nat)) as [-> | Hne].
  - assert (H : 1%nat ∈ negative_indexes n 0)
      by (apply negative_indexes_spec; lia).
    rewrite Hnil in H. inversion H.
  - assert (H : 0%nat ∈ negative_indexes n correct)
      by (apply negative_indexes_spec; lia).
    rewrite Hnil in H. inversion H.
Qed.

Lemma np_random_choice_ok (a : list nat) (size : Z) (g : rng) :
  (0 <= size)%Z -> a ≠ [] \/ size = 0%Z ->
  exists negs,
    np_random_choice a size g
    = Ok (negs, fun i => g (Z.to_nat size + i)%nat) /\
    length negs = Z.to_nat size /\
    Forall (fun i => i ∈ a) negs.
Proof.
  intros Hsize Ha. unfold np_random_choice.
  rewrite (proj2 (Z.ltb_ge size 0)) by exact Hsize.
  assert (Hguard : bool_decide (a = []) && (0 <? size)%Z = false).
  { destruct Ha as [Ha | ->].
    - rewrite bool_decide_eq_false_2 by exact Ha. reflexivity.
    - apply andb_false_r. }
  rewrite Hguard. eexists. split; [reflexivity |]. split.
  - rewrite length_map, length_seq. reflexivity.
  - destruct Ha as [Ha | ->]; [| constructor].
    apply Forall_map, Forall_forall. intros i _. simpl.
    apply list_elem_of_In, nth_In.
    apply Nat.mod_upper_bound. destruct a; [congruence | simpl; lia].
Qed.

Section NegativeSampling.

Variable encoded_all_actions : list (list Z).
Variable num_neg : Z.
Hypothesis num_neg_nonneg : (0 <= num_neg)%Z.
Hypothesis enough_actions :
  (2 <= length encoded_all_actions)%nat \/ num_neg = 0%Z.


Lemma create_batch_b_steps_ok (pos_d : list (list Z)) (ids_d : list nat)
    (g : rng) :
  length pos_d = length ids_d ->
  exists d g',
    _create_batch_b_steps encoded_all_actions num_neg pos_d ids_d g
    = Ok (d, g') /\
    length d = length pos_d /\
    forall h pos correct,
      pos_d !! h = Some pos -> ids_d !! h = Some correct ->
      exists candidates,
        d !! h = Some candidates /\ candidates_ok encoded_all_actions num_neg pos correct candidates.
Proof.
  revert ids_d g. induction pos_d as [| pos pos_d IH]; intros ids_d g Hlen.
  - exists [], g. repeat split. intros h pos correct H. discriminate H.
  - destruct ids_d as [| correct ids_d]; [discriminate Hlen |].
    injection Hlen as Hlen. simpl.
    destruct (np_random_choice_ok
                (negative_indexes (length encoded_all_actions) correct)
                num_neg g num_neg_nonneg) as (negs & -> & Hk & Hin).
    { destruct enough_actions as [Hn | ->]; [left | right; reflexivity].
      apply negative_indexes_nonempty. exact Hn. }
    destruct (IH ids_d (fun i => g (Z.to_nat num_neg + i)%nat) Hlen)
      as (rest & g' & -> & Hlen' & Hrest).
    eexists. exists g'. split; [reflexivity |]. split; [simpl; lia |].
    intros [| h] pos' correct' Hpos Hid; simpl in *.
    + injection Hpos as <-. injection Hid as <-.
      eexists. split; [reflexivity |].
      exists negs. repeat split; [exact Hk |].
      eapply Forall_impl; [exact Hin |].
      intros i Hi. apply negative_indexes_spec in Hi. lia.
    + apply (Hrest h pos' correct' Hpos Hid).
Qed.

Lemma create_batch_b_dialogues_ok (batch_pos_b : list (list (list Z)))
    (intent_ids : list (list nat)) (g : rng) :
  Forall2 (fun pos_d ids_d => length pos_d = length ids_d)
    batch_pos_b intent_ids ->
  exists batch g',
    _create_batch_b_dialogues encoded_all_actions num_neg batch_pos_b
      intent_ids g = Ok (batch, g') /\
    forall b h pos correct,
      lookup2 batch_pos_b b h = Some pos ->
      lookup2 intent_ids b h = Some correct ->
      exists candidates,
        lookup2 batch b h = Some candidates /\
        candidates_ok encoded_all_actions num_neg pos correct candidates.
Proof.
  intros Hshape. revert g.
  induction Hshape as [| pos_d ids_d batch_pos_b intent_ids Hlen _ IH];
    intros g.
  - exists [], g. split; [reflexivity |]. intros b h pos correct H.
    unfold lookup2 in H. rewrite lookup_nil in H. discriminate H.
  - simpl.
    destruct (create_batch_b_steps_ok pos_d ids_d g Hlen)
      as (d & g1 & -> & _ & Hd).
    destruct (IH g1) as (rest & g' & -> & Hrest).
    eexists. exists g'. split; [reflexivity |].
    intros [| b] h pos correct Hpos Hid.
    + unfold lookup2 in *. simpl in *. apply Hd; assumption.
    + apply (Hrest b h pos correct); assumption.
Qed.

End NegativeSampling.

Lemma train_clamps_num_neg {DialogueStateTracker : Type}
    (build_and_fit : Params -> R -> list (list Z) -> TrainingData ->
                     TrainedGraph)
    (self : EmbeddingPolicy DialogueStateTracker)
    (training_trackers : list DialogueStateTracker) (domain : Domain)
    (configured : Z) :
  num_neg (params self) = PInt configured ->
  exists trained,
    outcome (train build_and_fit self training_trackers domain ∅) = Ok trained
    /\ num_neg (params trained)
       = PInt (Z.min configured (Z.of_nat (num_actions domain) - 1)).
Proof.
  intros Hcfg. unfold train.
  change (py_log DEBUG) with ([DEBUG], Ok tt).
  rewrite outcome_bind_ok.
  change (size (∅ : gmap string pyval) =? 0)%nat with true. cbv iota.
  py_simpl. rewrite outcome_bind_ok, Hcfg, py_min_int. py_simpl.
  eexists. split; reflexivity.
Qed.

(** C2, amended. [train] replaces [num_neg] by
    [min(num_neg, num_actions - 1)]. With that value, for every dialogue and
    step of a batch [_create_batch_b] puts after the positive the rows of
    [num_neg] drawn actions; every drawn index is an action other than the
    correct one. Each index is drawn from all of these actions, so the draws
    of a step may repeat. *)
Theorem create_batch_b_negatives {DialogueStateTracker : Type}
    (build_and_fit : Params -> R -> list (list Z) -> TrainingData ->
                     TrainedGraph)
    (self : EmbeddingPolicy DialogueStateTracker)
    (training_trackers : list DialogueStateTracker) (domain : Domain)
    (configured : Z) (encoded : list (list Z))
    (batch_pos_b : list (list (list Z))) (intent_ids : list (list nat))
    (g : rng) :
  let clamped := Z.min configured (Z.of_nat (num_actions domain) - 1) in
  num_neg (params self) = PInt configured ->
  (0 <= configured)%Z ->
  length encoded = num_actions domain ->
  (1 <= num_actions domain)%nat ->
  Forall2 (fun pos_d ids_d => length pos_d = length ids_d)
    batch_pos_b intent_ids ->
  (exists trained,
     outcome (train build_and_fit self training_trackers domain ∅)
     = Ok trained /\
     num_neg (params trained) = PInt clamped) /\
  exists batch g',
    _create_batch_b encoded clamped batch_pos_b intent_ids g = Ok (batch, g')
    /\ forall b h pos correct,
      lookup2 batch_pos_b b h = Some pos ->
      lookup2 intent_ids b h = Some correct ->
      exists negs,
        lookup2 batch b h = Some (pos :: take_rows encoded negs) /\
        Z.of_nat (length negs) = clamped /\
        Forall (fun i => i ≠ correct /\ (i < num_actions domain)%nat) negs.
Proof.
  intros clamped Hcfg Hnonneg Hlen Hn Hshape.
  split; [apply train_clamps_num_neg; exact Hcfg |].
  assert (Hclamped : (0 <= clamped)%Z) by (unfold clamped; lia).
  assert (Henough : (2 <= length encoded)%nat \/ clamped = 0%Z)
    by (unfold clamped; lia).
  destruct (create_batch_b_dialogues_ok encoded clamped Hclamped Henough
              batch_pos_b intent_ids g Hshape) as (batch & g' & Hrun & Hall).
  exists batch, g'. unfold _create_batch_b.
  rewrite (proj2 (Z.ltb_ge clamped 0)) by exact Hclamped.
  split; [exact Hrun |].
  intros b h pos correct Hpos Hid.
  destruct (Hall b h pos correct Hpos Hid)
    as (candidates & Hb & negs & -> & Hk & Hneg).
  exists negs. rewrite <- Hlen. split; [exact Hb |]. split; [lia | exact Hneg].
Qed.

Lemma create_batch_b_negatives_witness :
  let clamped := Z.min 20 (Z.of_nat 2 - 1) in
  (exists trained,
     outcome (train (toy_build_and_fit []) toy_fresh_policy [tt] toy_domain ∅)
     = Ok trained /\
     num_neg (params trained) = PInt clamped) /\
  exists batch g',
    _create_batch_b [[1; 0]; [0; 1]]%Z clamped [[[1; 0]%Z]] [[0%nat]]
      (fun i => i) = Ok (batch, g')
    /\ forall b h pos correct,
      lookup2 [[[1; 0]%Z]] b h = Some pos ->
      lookup2 [[0%nat]] b h = Some correct ->
      exists negs,
        lookup2 batch b h = Some (pos :: take_rows [[1; 0]; [0; 1]]%Z negs) /\
        Z.of_nat (length negs) = clamped /\
        Forall (fun i => i ≠ correct /\ (i < 2)%nat) negs.
Proof.
  apply (create_batch_b_negatives (toy_build_and_fit []) toy_fresh_policy [tt]
           toy_domain 20 [[1; 0]; [0; 1]]%Z [[[1; 0]%Z]] [[0%nat]]
           (fun i => i)).
  - reflexivity.
  - lia.
  - reflexivity.
  - simpl. lia.
  - repeat constructor.
Defined.

(** C2 as stated fails. With three actions, the correct action 0 and
    [num_neg] configured as 20, hence clamped to 2, a generator whose raw
    draws are all 0 yields the negatives 1 and 1: the same action twice, one
    distinct negative instead of two. *)
Lemma create_batch_b_repeats_a_negative :
  let encoded := [[1; 0; 0]; [0; 1; 0]; [0; 0; 1]]%Z in
  let g : rng := fun _ => 0%nat in
  py_min (PInt 20) (PInt (Z.of_nat (length encoded) - 1)) = py_ret (PInt 2) /\
  (exists g', np_random_choice (negative_indexes 3 0) 2 g
              = Ok ([1; 1]%nat, g')) /\
  (exists g', _create_batch_b encoded 2 [[[1; 0; 0]%Z]] [[0%nat]] g
              = Ok ([[[[1; 0; 0]; [0; 1; 0]; [0; 1; 0]]]]%Z, g')) /\
  ~ NoDup [1; 1]%nat /\
  size (list_to_set [1; 1]%nat : gset nat) = 1%nat /\
  Z.min 20 (Z.of_nat (length encoded) - 1) = 2%Z.
Proof.
  intros encoded g. split; [apply py_min_int |].
  split; [eexists; reflexivity |].
  split; [eexists; reflexivity |].
  split.
  - intros Hnd. apply NoDup_cons in Hnd as [Hnotin _].
    apply Hnotin. constructor.
  - split; reflexivity.
Qed.

(* --------------------------------------------------------------------- *)
(** *** Attention limited by time *)
(* --------------------------------------------------------------------- *)

Section TimeAttentionProperties.
Local Open Scope R_scope.

Lemma reduce_sum_nonneg (l : list R) :
  Forall (fun x => 0 <= x) l -> 0 <= reduce_sum l.
Proof.
  induction 1 as [| x l Hx _ IH]; simpl; lra.
Qed.

Lemma reduce_sum_pos (l : list R) :
  l <> [] -> Forall (fun x => 0 < x) l -> 0 < reduce_sum l.
Proof.
  intros Hne Hall. destruct Hall as [| x l Hx Hl]; [congruence |].
  simpl. assert (0 <= reduce_sum l); [| lra].
  apply reduce_sum_nonneg. eapply Forall_impl; [exact Hl |].
  intros y Hy. simpl in Hy. lra.
Qed.

Lemma reduce_sum_pos_at (l : list R) (i : nat) (x : R) :
  Forall (fun x => 0 <= x) l -> l !! i = Some x -> 0 < x ->
  0 < reduce_sum l.
Proof.
  intros Hall. revert i. induction Hall as [| y l Hy Hl IH]; intros i Hi Hx.
  - discriminate Hi.
  - destruct i as [| i]; simpl in *.
    + injection Hi as ->. pose proof (reduce_sum_nonneg l Hl). lra.
    + pose proof (IH i Hi Hx). lra.
Qed.

Lemma softmax_length (l : list R) : length (softmax l) = length l.
Proof. unfold softmax. apply length_map. Qed.

Lemma softmax_pos (l : list R) : Forall (fun x => 0 < x) (softmax l).
Proof.
  unfold softmax. apply Forall_map, Forall_forall. intros x Hx. simpl.
  assert (Hne : l <> []) by (intros ->; inversion Hx).
  pose proof (reduce_sum_exp_pos l Hne). pose proof (exp_pos x).
  apply Rdiv_lt_0_compat; assumption.
Qed.

Lemma conv1d_same_length (input filter : list R) :
  length (conv1d_same input filter) = length input.
Proof. unfold conv1d_same. rewrite length_map, length_seq. reflexivity. Qed.

Lemma nth_nonneg (l : list R) (i : nat) :
  Forall (fun x => 0 < x) l -> 0 <= nth i l 0.
Proof.
  intros Hall. destruct (le_lt_dec (length l) i) as [Hge | Hlt].
  - rewrite nth_overflow by exact Hge. lra.
  - apply Rlt_le. apply (proj1 (Forall_forall _ l) Hall).
    apply list_elem_of_In, nth_In. exact Hlt.
Qed.

Lemma nth_pos (l : list R) (i : nat) :
  Forall (fun x => 0 < x) l -> (i < length l)%nat -> 0 < nth i l 0.
Proof.
  intros Hall Hlt. apply (proj1 (Forall_forall _ l) Hall).
  apply list_elem_of_In, nth_In. exact Hlt.
Qed.

Lemma conv1d_same_pos (input filter : list R) :
  Forall (fun x => 0 < x) input -> Forall (fun x => 0 < x) filter ->
  filter <> [] ->
  Forall (fun x => 0 < x) (conv1d_same input filter).
Proof.
  intros Hin Hf Hne. unfold conv1d_same.
  apply Forall_map, Forall_forall. intros w Hw. cbv beta.
  apply elem_of_seq in Hw.
  cbv zeta. set (K := length filter). set (pad_left := ((K - 1) / 2)%nat).
  assert (HK : (0 < K)%nat) by (subst K; destruct filter; [congruence | simpl; lia]).
  assert (Hpad : (pad_left < K)%nat).
  { subst pad_left. apply Nat.le_lt_trans with (K - 1)%nat; [| lia].
    apply Nat.Div0.div_le_upper_bound. lia. }
  apply (reduce_sum_pos_at _ pad_left
           (nth w input 0 * nth pad_left filter 0)).
  - apply Forall_map, Forall_forall. intros k _. cbv beta.
    apply Rmult_le_pos; [| apply nth_nonneg; exact Hf].
    destruct (pad_left <=? w + k)%nat; [apply nth_nonneg; exact Hin | lra].
  - rewrite lookup_map, lookup_seq_lt by exact Hpad. cbn [fmap option_fmap option_map Nat.add].
    rewrite (proj2 (Nat.leb_le pad_left (w + pad_left))) by lia.
    replace (w + pad_left - pad_left)%nat with w by lia. reflexivity.
  - apply Rmult_lt_0_compat; apply nth_pos; first [assumption | lia].
Qed.

Lemma ntm_interpolate_length (self : TimedNTM)
    (cell_output probs probs_state : list R) :
  length probs_state = (length probs - 1)%nat ->
  length (ntm_interpolate self cell_output probs probs_state) = length probs.
Proof.
  intros Hlen. unfold ntm_interpolate.
  rewrite length_app, length_zip_with, length_take, length_drop. lia.
Qed.

Lemma ntm_shift_length (self : TimedNTM) (cell_output probs : list R) :
  length (ntm_shift self cell_output probs) = length probs.
Proof.
  unfold ntm_shift. destruct (s_w self).
  - rewrite length_reverse, conv1d_same_length, length_reverse.
    apply softmax_length.
  - apply softmax_length.
Qed.

Lemma ntm_shift_pos (self : TimedNTM) (cell_output probs : list R) :
  (forall layer, s_w self = Some layer -> (0 < units layer)%nat) ->
  Forall (fun x => 0 < x) (ntm_shift self cell_output probs).
Proof.
  intros Hunits. unfold ntm_shift. destruct (s_w self) as [layer |].
  - apply Forall_reverse, conv1d_same_pos.
    + apply Forall_reverse, softmax_pos.
    + apply softmax_pos.
    + intros Hnil. apply (f_equal length) in Hnil.
      rewrite softmax_length in Hnil. unfold dense_apply in Hnil.
      rewrite length_map, length_seq in Hnil.
      specialize (Hunits layer eq_refl). simpl in Hnil. lia.
  - apply softmax_pos.
Qed.

Lemma ntm_powed_pos (self : TimedNTM) (cell_output probs : list R) :
  Forall (fun x => 0 < x) probs ->
  Forall (fun x => 0 < x) (ntm_powed self cell_output probs).
Proof.
  intros Hpos. unfold ntm_powed. apply Forall_map.
  eapply Forall_impl; [exact Hpos |]. intros p Hp. simpl.
  unfold tf_pow. rewrite Rltb_true by exact Hp. apply exp_pos.
Qed.

Lemma ntm_powed_length (self : TimedNTM) (cell_output probs : list R) :
  length (ntm_powed self cell_output probs) = length probs.
Proof. unfold ntm_powed. apply length_map. Qed.

Lemma TimedNTM_init_units (attn_shift_range : nat)
    (gate_weights : list R -> R) (s_w_weights : nat -> list R -> R)
    (gamma_weights : list R -> R) (layer : Dense) :
  s_w (TimedNTM_init attn_shift_range gate_weights s_w_weights gamma_weights)
  = Some layer ->
  (0 < units layer)%nat.
Proof.
  simpl. destruct (attn_shift_range =? 0)%nat; [discriminate |].
  intros [= <-]. simpl. lia.
Qed.

(** What [TimedNTM.__call__] returns for a row: as many probabilities as it
    was given, summing to the sharpened mass over itself plus epsilon. *)
Lemma TimedNTM_call_row_sum (self : TimedNTM)
    (cell_output probs probs_state : list R) :
  let S := sharpened_mass self cell_output probs probs_state in
  length probs_state = (length probs - 1)%nat ->
  probs <> [] ->
  (forall layer, s_w self = Some layer -> (0 < units layer)%nat) ->
  length (fst (TimedNTM_call_row self cell_output probs probs_state))
  = length probs /\
  length (snd (TimedNTM_call_row self cell_output probs probs_state))
  = length probs /\
  0 < S /\
  reduce_sum (fst (TimedNTM_call_row self cell_output probs probs_state))
  = S / (S + sharpening_epsilon).
Proof.
  intros S Hlen Hne Hunits. unfold TimedNTM_call_row. cbn [fst snd].
  split; [| split; [| split]].
  - rewrite length_map, ntm_powed_length, ntm_shift_length.
    apply ntm_interpolate_length. exact Hlen.
  - apply ntm_interpolate_length. exact Hlen.
  - unfold S, sharpened_mass. apply reduce_sum_pos.
    + intros Hnil. apply (f_equal length) in Hnil.
      rewrite ntm_powed_length, ntm_shift_length,
        ntm_interpolate_length in Hnil by exact Hlen.
      destruct probs; [congruence | discriminate Hnil].
    + apply ntm_powed_pos, ntm_shift_pos. exact Hunits.
  - apply reduce_sum_scale.
Qed.

Lemma sharpening_epsilon_pos : 0 < sharpening_epsilon.
Proof.
  unfold sharpening_epsilon. apply Rdiv_lt_0_compat; [lra |].
  apply pow_lt. lra.
Qed.

Lemma compute_time_attention_row_alignments
    (attention_mechanism : AttentionMechanism) (b : nat)
    (cell_output attention_state : list R) (time : nat) (timed_ntm : TimedNTM)
    (attention_layer : option (list R -> list R)) :
  let scores := am_alignments attention_mechanism b cell_output
                  attention_state in
  let S := sharpened_mass timed_ntm cell_output (take (time + 1) scores)
             (take time attention_state) in
  let alignments :=
    snd (fst (_compute_time_attention_row attention_mechanism b cell_output
                attention_state time timed_ntm attention_layer)) in
  (time < length scores)%nat ->
  (time <= length attention_state)%nat ->
  (forall layer, s_w timed_ntm = Some layer -> (0 < units layer)%nat) ->
  length alignments = length scores /\
  (forall i, (time < i < length scores)%nat -> alignments !! i = Some 0) /\
  0 < S /\
  reduce_sum (take (time + 1) alignments) = S / (S + sharpening_epsilon).
Proof.
  intros scores S alignments Htime Hstate Hunits.
  assert (Hprobs : length (take (time + 1) scores) = (time + 1)%nat)
    by (apply length_take_le; lia).
  assert (Hps : length (take time attention_state)
                = (length (take (time + 1) scores) - 1)%nat)
    by (rewrite Hprobs, length_take_le by exact Hstate; lia).
  assert (Hne : take (time + 1) scores <> [])
    by (intros Hnil; rewrite Hnil in Hprobs; simpl in Hprobs; lia).
  destruct (TimedNTM_call_row_sum timed_ntm cell_output
              (take (time + 1) scores) (take time attention_state)
              Hps Hne Hunits) as (Hlen & _ & HS & Hsum).
  subst alignments. unfold _compute_time_attention_row. fold scores.
  destruct (TimedNTM_call_row timed_ntm cell_output (take (time + 1) scores)
              (take time attention_state)) as [probs next_probs_state].
  cbn [fst snd] in *. rewrite Hprobs in Hlen.
  split; [| split; [| split]].
  - rewrite length_app, length_drop, length_map, Hlen. lia.
  - intros i Hi.
    rewrite lookup_app_r by lia. rewrite lookup_drop, lookup_map.
    replace (time + 1 + (i - length probs))%nat with i by lia.
    destruct (lookup_lt_is_Some_2 scores i) as [x ->]; [lia | reflexivity].
  - exact HS.
  - rewrite take_app_length' by (symmetry; exact Hlen). exact Hsum.
Qed.

(** C1, amended. For the memory of a [TimedNTM] with any shift range (0 and
    3 among them), the alignments that [_compute_time_attention] emits at
    step [time] for row [b] of the batch have the length of the memory, are
    zero at every position after [time], and over the positions up to [time]
    sum to [S / (S + 1e-32)], where [S >= 0] is the sum of the sharpened
    probabilities: the sum lies between 0 and 1 (1 included), and is within
    [delta] of 1 as soon as [1e-32 <= delta * S]. *)
Theorem time_attention_alignments
    (attention_mechanism : AttentionMechanism)
    (attn_shift_range : nat) (gate_weights : list R -> R)
    (s_w_weights : nat -> list R -> R) (gamma_weights : list R -> R)
    (cell_output attention_state : tensor2) (time : nat)
    (attention_layer : option (list R -> list R))
    (b : nat) (co st : list R) :
  let timed_ntm := TimedNTM_init attn_shift_range gate_weights s_w_weights
                     gamma_weights in
  let scores := am_alignments attention_mechanism b co st in
  let S := sharpened_mass timed_ntm co (take (time + 1) scores)
             (take time st) in
  cell_output !! b = Some co -> attention_state !! b = Some st ->
  (time < length scores)%nat -> (time <= length st)%nat ->
  exists alignments,
    snd (fst (_compute_time_attention attention_mechanism cell_output
                attention_state time timed_ntm attention_layer)) !! b
    = Some alignments /\
    length alignments = length scores /\
    (forall i, (time < i < length scores)%nat -> alignments !! i = Some 0) /\
    0 <= S /\
    reduce_sum (take (time + 1) alignments) = S / (S + sharpening_epsilon) /\
    0 <= reduce_sum (take (time + 1) alignments) <= 1 /\
    forall delta, sharpening_epsilon <= delta * S ->
      1 - delta <= reduce_sum (take (time + 1) alignments).
Proof.
  intros timed_ntm scores S Hco Hst Htime Hstate.
  destruct (compute_time_attention_row_alignments attention_mechanism b co st
              time timed_ntm attention_layer Htime Hstate
              (TimedNTM_init_units attn_shift_range gate_weights s_w_weights
                 gamma_weights))
    as (Hlen & Hzero & HS & Hsum).
  eexists. split; [| split; [exact Hlen | split; [exact Hzero |]]].
  - unfold _compute_time_attention. cbn [fst snd].
    rewrite lookup_map, list_lookup_imap, lookup_zip_with, Hco, Hst.
    reflexivity.
  - change (0 < S) in HS.
    change (reduce_sum
              (take (time + 1)
                 (snd (fst (_compute_time_attention_row attention_mechanism b
                              co st time timed_ntm attention_layer))))
            = S / (S + sharpening_epsilon)) in Hsum.
    split; [left; exact HS |].
    split; [exact Hsum |]. rewrite Hsum. clearbody S.
    pose proof sharpening_epsilon_pos as Heps.
    split; [split |].
    + apply Rmult_le_pos; [lra |]. left. apply Rinv_0_lt_compat. lra.
    + apply (Rmult_le_reg_r (S + sharpening_epsilon)); [lra |].
      unfold Rdiv. rewrite Rmult_assoc, Rinv_l by lra. lra.
    + intros delta Hdelta.
      apply (Rmult_le_reg_r (S + sharpening_epsilon)); [lra |].
      unfold Rdiv. rewrite (Rmult_assoc S), Rinv_l by lra. nra.
Qed.

Lemma time_attention_alignments_witness :
  let timed_ntm := TimedNTM_init 3 (fun _ => 0) (fun _ _ => 0) (fun _ => 0) in
  let S := sharpened_mass timed_ntm [0] (take (1 + 1) [0; 0; 0]) (take 1 [0; 0; 0]) in
  exists alignments,
    snd (fst (_compute_time_attention (toy_mechanism 3) [[0]] [[0; 0; 0]] 1
                timed_ntm None)) !! 0%nat
    = Some alignments /\
    length alignments = 3%nat /\
    (forall i, (1 < i < 3)%nat -> alignments !! i = Some 0) /\
    0 <= S /\
    reduce_sum (take (1 + 1) alignments) = S / (S + sharpening_epsilon) /\
    0 <= reduce_sum (take (1 + 1) alignments) <= 1 /\
    forall delta, sharpening_epsilon <= delta * S ->
      1 - delta <= reduce_sum (take (1 + 1) alignments).
Proof.
  apply (time_attention_alignments (toy_mechanism 3) 3 (fun _ => 0)
           (fun _ _ => 0) (fun _ => 0) [[0]] [[0; 0; 0]] 1 None 0 [0]
           [0; 0; 0]).
  - reflexivity.
  - reflexivity.
  - simpl. lia.
  - simpl. lia.
Defined.

Lemma Rpower_half_small (y : R) : 110 <= y -> Rpower (1 / 2) y <= / 2 ^ 110.
Proof.
  intros Hy. unfold Rpower.
  replace (1 / 2) with (/ 2) by lra.
  rewrite ln_Rinv by lra.
  replace (y * - ln 2) with (- (y * ln 2)) by ring.
  rewrite exp_Ropp. fold (Rpower 2 y).
  apply Rinv_le_contravar; [apply pow_lt; lra |].
  rewrite <- (Rpower_pow 110 2) by lra.
  apply Rle_Rpower; [lra |].
  replace (INR 110) with 110 by (rewrite INR_IZR_INZ; reflexivity).
  exact Hy.
Qed.

Lemma softplus_above (a : R) : a < softplus a.
Proof.
  unfold softplus. rewrite <- (ln_exp a) at 1.
  apply ln_increasing; [apply exp_pos | lra].
Qed.

(** C1 as stated fails. With a memory of two positions scored 0 and 0, no
    shift, and the dense layer of the sharpening at 200, at step 1 the two
    probabilities are 1/2 each and their powers sum to less than 1e-32: the
    emitted alignments of the row sum to at most 1/2, not to 1. *)
Lemma sharpened_alignments_sum_below_half :
  let timed_ntm :=
    TimedNTM_init 0 (fun _ => 0) (fun _ _ => 0) (fun _ => 200) in
  exists alignments,
    snd (fst (_compute_time_attention (toy_mechanism 2) [[0]] [[0; 0]] 1
                timed_ntm None)) !! 0%nat
    = Some alignments /\
    reduce_sum (take (1 + 1) alignments) <= 1 / 2.
Proof.
  intros timed_ntm.
  destruct (compute_time_attention_row_alignments (toy_mechanism 2) 0 [0]
              [0; 0] 1 timed_ntm None)
    as (_ & _ & HS & Hsum); [simpl; lia | simpl; lia | discriminate |].
  exists (snd (fst (_compute_time_attention_row (toy_mechanism 2) 0 [0]
                      [0; 0] 1 timed_ntm None))).
  split; [reflexivity |]. rewrite Hsum.
  set (S := sharpened_mass timed_ntm [0]
              (take (1 + 1) (am_alignments (toy_mechanism 2) 0 [0] [0; 0]))
              (take 1 [0; 0])) in *.
  assert (Hsmall : S <= sharpening_epsilon).
  { subst S. unfold sharpened_mass.
    assert (Hint : ntm_interpolate timed_ntm [0]
                     (take (1 + 1)
                        (am_alignments (toy_mechanism 2) 0 [0] [0; 0]))
                     (take 1 [0; 0]) = [0; 0])
      by (unfold ntm_interpolate; simpl; f_equal; ring).
    rewrite Hint.
    assert (Hshift : ntm_shift timed_ntm [0] [0; 0] = [1 / 2; 1 / 2])
      by (unfold ntm_shift, softmax; simpl; rewrite exp_0;
          repeat f_equal; field).
    rewrite Hshift. unfold ntm_powed, tf_pow. simpl.
    rewrite Rltb_true by lra.
    assert (Hgamma : 110 <= ntm_gamma timed_ntm [0]).
    { unfold ntm_gamma, dense_scalar. simpl.
      pose proof (softplus_above 200). lra. }
    pose proof (Rpower_half_small _ Hgamma) as Hp.
    unfold sharpening_epsilon.
    assert (Hnum : 2 * / 2 ^ 110 <= 1 / 10 ^ 32).
    { rewrite !pow_IZR.
      change (2 ^ Z.of_nat 110)%Z with 1298074214633706907132624082305024%Z.
      change (10 ^ Z.of_nat 32)%Z with 100000000000000000000000000000000%Z.
      lra. }
    lra. }
  pose proof sharpening_epsilon_pos as Heps.
  apply (Rmult_le_reg_r (S + sharpening_epsilon)); [lra |].
  unfold Rdiv at 1. rewrite Rmult_assoc, Rinv_l by lra. lra.
Qed.

End TimeAttentionProperties.

(* --------------------------------------------------------------------- *)
(** *** Loading the configuration *)
(* --------------------------------------------------------------------- *)

Lemma getitem_union (kwargs : gmap string pyval) (k : string) (d : pyval) :
  defaults !! k = Some d ->
  getitem (kwargs ∪ defaults) k = py_ret (default d (kwargs !! k)).
Proof.
  intros Hd. unfold getitem. rewrite lookup_union, Hd.
  destruct (kwargs !! k); reflexivity.
Qed.

Ltac getitem_union_step kwargs :=
  match goal with
  | |- context [getitem (kwargs ∪ defaults) ?k] =>
      erewrite (getitem_union kwargs k) by reflexivity
  | H : context [getitem (kwargs ∪ defaults) ?k] |- _ =>
      erewrite (getitem_union kwargs k) in H by reflexivity
  end.

Lemma py_bind_Ok_inv {A B} (m : py A) (k : A -> py B) (w : list loglevel)
    (b : B) :
  m ≫= k = (w, Ok b) ->
  exists w1 a w2, m = (w1, Ok a) /\ k a = (w2, Ok b) /\ w = w1 ++ w2.
Proof.
  destruct m as [w1 [a | e]]; unfold mbind, py_mbind, py_bind.
  - destruct (k a) as [w2 r] eqn:Hk. intros [= <- ->].
    exists w1, a, w2. auto.
  - discriminate.
Qed.

Ltac py_simpl_in H :=
  repeat (first [ progress change (@mret py _ ?A ?x) with (@py_ret A x) in H
                | rewrite py_bind_ret in H ];
          cbv beta in H).

Lemma load_nn_architecture_params_plain (share : bool)
    (kwargs : gmap string pyval) (w : list loglevel) (arch : NNArchitecture) :
  _load_nn_architecture_params share (kwargs ∪ defaults) = (w, Ok arch) ->
  arch_rnn_size arch = default (PInt 32) (kwargs !! "rnn_size") /\
  arch_batch_size arch = default (PInt 16) (kwargs !! "batch_size") /\
  arch_epochs arch = default (PInt 1) (kwargs !! "epochs").
Proof.
  unfold _load_nn_architecture_params. intros H.
  repeat getitem_union_step kwargs.
  py_simpl_in H.
  apply py_bind_Ok_inv in H as (w1 & [na sa] & w2 & _ & H & _).
  py_simpl_in H.
  apply py_bind_Ok_inv in H as (w3 & [nb sb] & w4 & _ & H & _).
  apply py_bind_Ok_inv in H as (w5 & [nb' sb'] & w6 & _ & H & _).
  py_simpl_in H. injection H as _ <-. auto.
Qed.

(** X1. When [_load_params] returns, every attribute it copies is the
    keyword argument of that name when one was given and the default
    otherwise, the dropout rates included; [calc_acc_ones_in_epochs] is the
    configured value, or [epochs] when that value is below 1. *)
Theorem load_params_overrides (share : bool) (kwargs : gmap string pyval)
    (w : list loglevel) (p : Params) :
  _load_params share kwargs = (w, Ok p) ->
  Forall (fun '(k, d, attribute) =>
            defaults !! k = Some d /\
            attribute p = default d (kwargs !! k)) plain_attributes /\
  Forall (fun '(k, d, key) =>
            defaults !! k = Some d /\
            droprate p !! key = Some (default d (kwargs !! k)))
         droprate_attributes /\
  exists small,
    py_lt_one (default (PInt 50) (kwargs !! "calc_acc_ones_in_epochs"))
    = py_ret small /\
    calc_acc_ones_in_epochs p
    = if small then epochs p
      else default (PInt 50) (kwargs !! "calc_acc_ones_in_epochs").
Proof.
  unfold _load_params. intros H.
  apply py_bind_Ok_inv in H as (w1 & arch & w2 & Harch & H & _).
  apply load_nn_architecture_params_plain in Harch as (Hrnn & Hbs & Hep).
  unfold _load_regularization_droprate, _load_visual_params in H.
  repeat getitem_union_step kwargs.
  py_simpl_in H.
  apply py_bind_Ok_inv in H as (w3 & [ones num] & w4 & Hvisual & H & _).
  apply py_bind_Ok_inv in Hvisual as (w5 & small & w6 & Hsmall & Hvisual & _).
  py_simpl_in Hvisual. py_simpl_in H. cbn [snd] in *.
  injection Hvisual as _ <- <-. injection H as _ <-.
  cbn [epochs calc_acc_ones_in_epochs].
  split; [| split].
  - repeat (apply Forall_cons; split;
            [split; [reflexivity | assumption || reflexivity] |]).
    apply Forall_nil. exact I.
  - repeat (apply Forall_cons; split; [split; reflexivity |]).
    apply Forall_nil. exact I.
  - exists small. split; [| reflexivity].
    unfold py_lt_one in *. destruct (py_num _); [| discriminate].
    injection Hsmall as _ <-. reflexivity.
Qed.

Lemma load_params_overrides_witness :
  Forall (fun '(k, d, attribute) =>
            defaults !! k = Some d /\
            attribute inner_params = default d (inner_kwargs !! k))
         plain_attributes.
Proof.
  destruct (load_params_overrides false inner_kwargs [] inner_params
              load_params_inner) as [H _]. exact H.
Defined.

(** X2. [_load_params] reads the keyword arguments only at the keys of
    [defaults]: two sets of keyword arguments that agree on these keys load
    the same attributes, log the same and raise the same. *)
Theorem load_params_ignores_unknown_keys (share : bool)
    (kwargs kwargs' : gmap string pyval) :
  (forall k, is_Some (defaults !! k) -> kwargs !! k = kwargs' !! k) ->
  _load_params share kwargs = _load_params share kwargs'.
Proof.
  intros Hagree.
  unfold _load_params, _load_nn_architecture_params,
    _load_regularization_droprate, _load_visual_params.
  repeat getitem_union_step kwargs.
  repeat getitem_union_step kwargs'.
  repeat match goal with
         | |- context [kwargs !! ?k] =>
             rewrite (Hagree k) by (eexists; reflexivity)
         end.
  reflexivity.
Qed.

Lemma load_params_ignores_unknown_keys_witness :
  _load_params false (<["verbose" := PBool true]> inner_kwargs)
  = _load_params false inner_kwargs.
Proof.
  apply load_params_ignores_unknown_keys.
  intros k Hk. apply lookup_insert_ne. intros <-.
  destruct Hk as [v Hv]. discriminate Hv.
Defined.

Lemma py_eq_refl (v : pyval) : py_eq v v = true.
Proof.
  revert v. fix IH 1. intros [| b | z | r | s | l]; simpl.
  - reflexivity.
  - unfold Reqb. destruct (Req_dec_T _ _); [reflexivity | congruence].
  - unfold Reqb. destruct (Req_dec_T _ _); [reflexivity | congruence].
  - unfold Reqb. destruct (Req_dec_T _ _); [reflexivity | congruence].
  - apply bool_decide_eq_true_2. reflexivity.
  - induction l as [| x l IHl]; [reflexivity |].
    rewrite (IH x), IHl. reflexivity.
Qed.

(** X3. With a featurizer that shares its vocabulary, the attributes that
    [_load_params] returns for tower [b] are those of tower [a]: the same
    number of hidden layers, and sizes that are equal for Python's [==]. *)
Theorem load_params_shared_towers (kwargs : gmap string pyval)
    (w : list loglevel) (p : Params) :
  _load_params true kwargs = (w, Ok p) ->
  num_hidden_layers_b p = num_hidden_layers_a p /\
  py_eq (hidden_layer_size_a p) (hidden_layer_size_b p) = true.
Proof.
  unfold _load_params. intros H.
  apply py_bind_Ok_inv in H as (w1 & arch & w2 & Harch & H & _).
  assert (Hshared : arch_num_b arch = arch_num_a arch /\
                    py_eq (arch_size_a arch) (arch_size_b arch) = true).
  { clear H. unfold _load_nn_architecture_params in Harch.
    repeat getitem_union_step kwargs. py_simpl_in Harch.
    apply py_bind_Ok_inv in Harch as (w3 & [na sa] & w4 & _ & Harch & _).
    py_simpl_in Harch.
    apply py_bind_Ok_inv in Harch as (w5 & [nb sb] & w6 & _ & Harch & _).
    apply py_bind_Ok_inv in Harch as (w7 & [nb' sb'] & w8 & Hif & Harch & _).
    py_simpl_in Harch. injection Harch as _ <-. simpl.
    destruct (bool_decide (na ≠ nb) || negb (py_eq sa sb)) eqn:Hdiff.
    - rewrite py_bind_log in Hif. injection Hif as _ <- <-.
      split; [reflexivity | apply py_eq_refl].
    - py_simpl_in Hif. injection Hif as _ <- <-.
      apply orb_false_elim in Hdiff as [Hn Hs].
      apply bool_decide_eq_false in Hn. apply negb_false_iff in Hs.
      split; [| exact Hs].
      destruct (decide (na = nb)) as [-> | Hne]; [reflexivity | tauto]. }
  unfold _load_regularization_droprate, _load_visual_params in H.
  repeat getitem_union_step kwargs. py_simpl_in H.
  apply py_bind_Ok_inv in H as (w3 & [ones num] & w4 & _ & H & _).
  py_simpl_in H. injection H as _ <-. exact Hshared.
Qed.

Lemma py_bind_ok_ret {A B} (w : list loglevel) (a : A) (k : A -> py B) (b : B) :
  k a = py_ret b -> (w, Ok a) ≫= k = (w, Ok b).
Proof.
  intros H. rewrite py_bind_ok, H. unfold py_ret. cbn [logs outcome fst snd].
  now rewrite app_nil_r.
Qed.

Lemma load_params_tower_a :
  _load_params true tower_a_kwargs = ([DEBUG], Ok two_layer_params).
Proof.
  unfold _load_params.
  assert (Hlt : Rltb (IZR 50) 1 = false) by (apply Rltb_false; lra).
  unfold _load_nn_architecture_params, _load_regularization_droprate,
    _load_visual_params, py_lt_one.
  repeat py_step.
  change (_check_hidden_layer_sizes (PInt 2) (PList [PInt 64; PInt 32]))
    with (py_ret (2%Z, PList [PInt 64; PInt 32])).
  repeat py_step. rewrite check_hidden_layer_sizes_default.
  repeat py_step.
  change (bool_decide (2%Z ≠ 0%Z)) with true. cbv iota. cbn [orb].
  change (py_log DEBUG) with ([DEBUG], Ok tt).
  py_simpl.
  rewrite (py_bind_ok_ret [DEBUG] tt _ (2%Z, PList [PInt 64; PInt 32]))
    by reflexivity.
  erewrite (py_bind_ok_ret [DEBUG] (2%Z, PList [PInt 64; PInt 32]))
    by (py_simpl; reflexivity).
  apply py_bind_ok_ret.
  repeat py_step. simpl py_num. cbv iota. rewrite Hlt.
  repeat py_step. reflexivity.
Qed.

Lemma load_params_shared_towers_witness :
  num_hidden_layers_b two_layer_params = num_hidden_layers_a two_layer_params
  /\ py_eq (hidden_layer_size_a two_layer_params)
       (hidden_layer_size_b two_layer_params) = true.
Proof.
  apply (load_params_shared_towers tower_a_kwargs [DEBUG] two_layer_params).
  apply load_params_tower_a.
Defined.

Lemma outcome_bind_raise {A B} (m : py A) (k : A -> py B) (e : pyerr) :
  outcome m = Raise e -> outcome (m ≫= k) = Raise e.
Proof.
  destruct m as [w [a | e']]; cbn [outcome]; intros H; [discriminate |].
  injection H as ->. reflexivity.
Qed.

(** X4. Training with keyword arguments that give tower [a] an empty list of
    layer sizes and a positive layer count raises [ValueError]: the check of
    [_load_params] stops [train] before any data is featurized. *)
Theorem train_rejects_empty_layer_sizes {DialogueStateTracker : Type}
    (build_and_fit : Params -> R -> list (list Z) ->
                     TrainingData -> TrainedGraph)
    (self : EmbeddingPolicy DialogueStateTracker)
    (training_trackers : list DialogueStateTracker) (domain : Domain)
    (kwargs : gmap string pyval) (n : Z) :
  kwargs !! "hidden_layer_size_a" = Some (PList []) ->
  py_int (default (PInt 0) (kwargs !! "num_hidden_layers_a")) = py_ret n ->
  (0 < n)%Z ->
  outcome (train build_and_fit self training_trackers domain kwargs)
  = Raise ValueError.
Proof.
  intros Hsize Hnum Hpos. unfold train.
  change (py_log DEBUG) with ([DEBUG], Ok tt).
  rewrite outcome_bind_ok.
  assert (Hne : (size kwargs =? 0)%nat = false).
  { apply Nat.eqb_neq. intros H0. apply map_size_empty_iff in H0.
    rewrite H0 in Hsize. discriminate Hsize. }
  rewrite Hne. apply outcome_bind_raise.
  rewrite outcome_bind_ok. unfold _load_params. apply outcome_bind_raise.
  unfold _load_nn_architecture_params.
  repeat getitem_union_step kwargs. py_simpl.
  rewrite Hsize. cbn [default snd].
  change (Datatypes.id (PList [])) with (PList []). apply outcome_bind_raise.
  unfold _check_hidden_layer_sizes. rewrite Hnum, py_bind_ret.
  rewrite (proj2 (Z.ltb_ge n 0)) by lia. py_simpl. cbv iota.
  rewrite bool_decide_eq_true_2 by (cbn [length]; lia). reflexivity.
Qed.

Lemma train_rejects_empty_layer_sizes_witness :
  outcome (train (toy_build_and_fit [[[0; 0]%R]]) toy_fresh_policy [tt]
             toy_domain
             (<["num_hidden_layers_a" := PInt 2]>
                (<["hidden_layer_size_a" := PList []]> ∅)))
  = Raise ValueError.
Proof.
  apply (train_rejects_empty_layer_sizes _ _ _ _ _ 2%Z);
    [reflexivity | reflexivity | lia].
Defined.

(* ===================================================================== *)
(** ** Training data, mask and batches *)
(* ===================================================================== *)

Section TrainingArraysProperties.
Local Open Scope R_scope.

(** X5. [_create_X_slots] cuts every feature vector into three consecutive
    pieces that lose and repeat nothing: the user features, the slot features
    and the previous-action features concatenate back to the vector, and the
    first two have the lengths the featurizer reports (as far as the vector
    reaches). *)
Theorem create_X_slots_partition {DialogueStateTracker : Type}
    (f : Featurizer DialogueStateTracker) (data_X : tensor3)
    (i j : nat) (v : list R) :
  lookup2 data_X i j = Some v ->
  let '(X, slots, prev_act) := _create_X_slots f data_X in
  exists a s p,
    lookup2 X i j = Some a /\ lookup2 slots i j = Some s /\
    lookup2 prev_act i j = Some p /\
    v = a ++ s ++ p /\
    length a = Nat.min (user_feature_len f) (length v) /\
    length s = Nat.min (slot_feature_len f) (length v - user_feature_len f).
Proof.
  intros Hv. unfold _create_X_slots. cbv zeta.
  apply lookup2_Some in Hv as (row & Hrow & Hv).
  set (u := user_feature_len f). set (sl := slot_feature_len f).
  exists (take u v), (drop u (take (u + sl) v)), (drop (u + sl) v).
  repeat split.
  - apply lookup2_Some. exists (map (take u) row).
    rewrite !lookup_map, Hrow, Hv. auto.
  - apply lookup2_Some.
    exists (map (fun v => drop u (take (u + sl) v)) row).
    rewrite !lookup_map, Hrow, Hv. auto.
  - apply lookup2_Some. exists (map (drop (u + sl)) row).
    rewrite !lookup_map, Hrow, Hv. auto.
  - rewrite <- take_drop_commute, <- drop_drop.
    rewrite (take_drop sl (drop u v)). symmetry. apply take_drop.
  - rewrite length_take. reflexivity.
  - rewrite length_drop, length_take. lia.
Qed.

Lemma create_X_slots_partition_witness :
  exists a s p,
    lookup2 [[[1; 2; 3; 4]]] 0 0 = Some (a ++ s ++ p) /\
    length a = 1%nat /\ length s = 2%nat.
Proof.
  pose proof (create_X_slots_partition
                {| is_full_dialogue := true; share_vocab := None;
                   user_feature_len := 1; slot_feature_len := 2;
                   create_X := fun (_ : list unit) _ => [];
                   featurize_for_training := fun _ _ _ =>
                     {| data_X := []; data_y := []; true_length := [] |};
                   create_encoded_all_actions := fun _ => [] |}
                [[[1; 2; 3; 4]]] 0 0 [1; 2; 3; 4] eq_refl) as H.
  cbv beta iota zeta delta [_create_X_slots] in H.
  destruct H as (a & s & p & _ & _ & _ & Hv & Ha & Hs).
  exists a, s, p. rewrite <- Hv. repeat split; assumption.
Defined.

Lemma mapM_py_map {A B C} (f : B -> py C) (h : A -> B) (g : A -> C)
    (l : list A) :
  Forall (fun x => f (h x) = py_ret (g x)) l ->
  mapM f (map h l) = py_ret (map g l).
Proof.
  induction 1 as [| x l Hx _ IH]; [reflexivity |].
  cbn [map mapM]. rewrite Hx, py_bind_ret, IH, py_bind_ret. reflexivity.
Qed.

Lemma argmax_from_top (best : R) (best_idx idx : nat) (l : list R) :
  Forall (fun x => x <= best) l -> argmax_from best best_idx idx l = best_idx.
Proof.
  intros H. revert idx. induction H as [| x l Hx _ IH]; intros idx;
    [reflexivity |].
  cbn [argmax_from]. rewrite Rltb_false by lra. apply IH.
Qed.

Lemma argmax_from_one_hot (a best_idx idx m : nat) :
  (idx <= a < idx + m)%nat ->
  argmax_from 0 best_idx idx
    (map (fun i => if (i =? a)%nat then 1 else 0) (seq idx m)) = a.
Proof.
  revert idx best_idx. induction m as [| m IH]; intros idx best_idx Ha;
    [lia |].
  cbn [seq map argmax_from].
  destruct (Nat.eqb_spec idx a) as [-> | Hne].
  - rewrite Rltb_true by lra. apply argmax_from_top.
    apply List.Forall_forall. intros x Hx. apply in_map_iff in Hx as (i & <- & _).
    destruct (i =? a)%nat; lra.
  - rewrite Rltb_false by lra. apply IH. lia.
Qed.

Lemma np_argmax_one_hot (k a : nat) :
  (a < k)%nat -> np_argmax (one_hot k a) = py_ret a.
Proof.
  intros Ha. unfold one_hot. destruct k as [| k]; [lia |].
  cbn [seq map np_argmax]. f_equal.
  destruct a as [| a]; cbn [Nat.eqb].
  - apply argmax_from_top. apply List.Forall_forall. intros x Hx.
    apply in_map_iff in Hx as (i & <- & _). destruct (i =? 0)%nat; lra.
  - apply argmax_from_one_hot. lia.
Qed.

(** X6. On one-hot labels [_create_Y_actions_for_X] recovers the labelled
    action of every step and pairs it with the encoding of that action: for
    at least one dialogue, dialogues of at least one step and actions within
    the encoded ones, it returns the labels themselves and, step by step, the
    encoded rows they select. *)
Theorem create_Y_actions_for_X_one_hot (encoded : list (list Z)) (k : nat)
    (labels : list (list nat)) :
  labels <> [] ->
  Forall (fun steps => steps <> []) labels ->
  Forall (Forall (fun a => (a < k)%nat /\ (a < length encoded)%nat)) labels ->
  exists Y,
    _create_Y_actions_for_X encoded (map (map (one_hot k)) labels)
    = py_ret (Y, labels) /\
    forall i j a, lookup2 labels i j = Some a -> lookup2 Y i j = encoded !! a.
Proof.
  intros Hne Hsteps Hin.
  exists (map (map (fun a => default [] (encoded !! a))) labels). split.
  - unfold _create_Y_actions_for_X.
    rewrite (mapM_py_map _ _ (fun steps => steps)).
    2:{ apply List.Forall_forall. intros steps Hs.
        rewrite (mapM_py_map _ _ (fun a => a)); [now rewrite map_id |].
        rewrite List.Forall_forall in Hin. specialize (Hin steps Hs).
        eapply Forall_impl; [exact Hin |]. cbv beta.
        intros a [Ha _]. now apply np_argmax_one_hot. }
    rewrite map_id, py_bind_ret.
    rewrite <- (map_id labels) at 1.
    rewrite (mapM_py_map _ _ (map (fun a => default [] (encoded !! a)))).
    2:{ apply List.Forall_forall. intros steps Hs. cbv beta.
        rewrite <- (map_id steps) at 1.
        rewrite (mapM_py_map _ _ (fun a => default [] (encoded !! a))).
        - rewrite py_bind_ret.
          rewrite List.Forall_forall in Hsteps. specialize (Hsteps steps Hs).
          destruct steps; [contradiction | reflexivity].
        - rewrite List.Forall_forall in Hin. specialize (Hin steps Hs).
          eapply Forall_impl; [exact Hin |]. cbv beta.
          intros a [_ Ha]. unfold encoded_row.
          apply lookup_lt_is_Some_2 in Ha as [row ->]. reflexivity. }
    rewrite py_bind_ret.
    destruct labels; [contradiction | reflexivity].
  - intros i j a Ha. apply lookup2_Some in Ha as (steps & Hi & Hj).
    assert (Hlt : (a < length encoded)%nat).
    { rewrite List.Forall_forall in Hin.
      specialize (Hin steps (proj1 (list_elem_of_In _ _) (list_elem_of_lookup_2 _ _ _ Hi))).
      rewrite List.Forall_forall in Hin.
      apply (Hin a (proj1 (list_elem_of_In _ _) (list_elem_of_lookup_2 _ _ _ Hj))). }
    apply lookup_lt_is_Some_2 in Hlt as [row Hrow].
    rewrite Hrow. apply lookup2_Some.
    exists (map (fun a => default [] (encoded !! a)) steps).
    rewrite !lookup_map, Hi, Hj. cbn. now rewrite Hrow.
Qed.

Lemma create_Y_actions_for_X_one_hot_witness :
  exists Y,
    _create_Y_actions_for_X [[1; 0]; [0; 1]]%Z
      (map (map (one_hot 2)) [[1; 0]; [0; 0]]%nat)
    = py_ret (Y, [[1; 0]; [0; 0]]%nat) /\
    forall i j a,
      lookup2 [[1; 0]; [0; 0]]%nat i j = Some a ->
      lookup2 Y i j = [[1; 0]; [0; 1]]%Z !! a.
Proof.
  apply (create_Y_actions_for_X_one_hot [[1; 0]; [0; 1]]%Z 2
           [[1; 0]; [0; 0]]%nat).
  - discriminate.
  - repeat constructor; discriminate.
  - repeat constructor.
Defined.

Lemma reduce_max_nonempty (l : list R) :
  l <> [] ->
  exists m, reduce_max l = Finite m /\ In m l /\ Forall (fun x => x <= m) l.
Proof.
  induction l as [| x l IH]; [contradiction |]. intros _.
  destruct l as [| y l].
  - exists x. cbn. repeat split; [auto |]. constructor; [lra | constructor].
  - destruct IH as (m & Hm & Hin & Hall); [discriminate |].
    change (reduce_max (x :: y :: l))
      with (match reduce_max (y :: l) with
            | NegInf => Finite x
            | Finite m => Finite (Rmax x m)
            end).
    rewrite Hm. exists (Rmax x m). split; [reflexivity |]. split.
    + unfold Rmax. destruct (Rle_dec x m);
        [right; exact Hin | left; reflexivity].
    + constructor; [apply Rmax_l |].
      eapply Forall_impl; [exact Hall |]. cbv beta. intros z Hz.
      pose proof (Rmax_r x m). lra.
Qed.

Lemma padding_step_true (features : list R) :
  padding_step features = true <-> Forall (fun x => x = -1) features.
Proof.
  unfold padding_step. rewrite forallb_forall, List.Forall_forall.
  split; intros H x Hx; specialize (H x Hx); unfold Reqb in *;
    destruct (Req_dec_T x (-1)); congruence.
Qed.

Lemma mask_of_step (features : list R) :
  features <> [] -> Forall (fun x => -1 <= x) features ->
  tf_sign (ereal_add 1 (reduce_max features))
  = if padding_step features then 0 else 1.
Proof.
  intros Hne Hge.
  destruct (reduce_max_nonempty features Hne) as (m & -> & Hin & Hall).
  cbn [ereal_add tf_sign].
  destruct (padding_step features) eqn:Hpad.
  - apply padding_step_true in Hpad. rewrite List.Forall_forall in Hpad.
    rewrite (Hpad m Hin).
    rewrite Rltb_false by lra. rewrite Rltb_false by lra. reflexivity.
  - assert (Hm : -1 < m).
    { destruct (Rlt_dec (-1) m) as [Hlt | Hnlt]; [exact Hlt |].
      exfalso. assert (Hpad' : padding_step features = true);
        [| congruence].
      apply padding_step_true. rewrite List.Forall_forall in *.
      intros x Hx. specialize (Hall x Hx). specialize (Hge x Hx). lra. }
    rewrite Rltb_false by lra. rewrite Rltb_true by lra. reflexivity.
Qed.

Lemma trunc_INR (n : nat) : trunc (INR n) = Z.of_nat n.
Proof.
  unfold trunc. destruct (Rle_dec 0 (INR n)) as [_ | H].
  - apply Int_part_INR.
  - exfalso. apply H. apply pos_INR.
Qed.

Lemma reduce_sum_indicator {A} (b : A -> bool) (l : list A) :
  reduce_sum (map (fun x => if b x then 0 else 1) l)
  = INR (length (List.filter (fun x => negb (b x)) l)).
Proof.
  induction l as [| x l IH]; [reflexivity |].
  cbn [map List.filter]. change (reduce_sum (?a :: ?r)) with (a + reduce_sum r).
  rewrite IH. destruct (b x); cbn [negb].
  - lra.
  - cbn [length]. rewrite S_INR. lra.
Qed.

(** X7. The mask of the graph separates padding from dialogue. On steps that
    carry at least one feature and no feature below [-1], the mask is [0] on
    the steps whose features are all [-1] and [1] on every other step, so the
    real length of a dialogue is the number of its steps that are not
    padding. *)
Theorem graph_mask_counts_real_steps (a_in : tensor3) :
  Forall (Forall (fun features =>
                    features <> [] /\ Forall (fun x => -1 <= x) features))
    a_in ->
  _create_tf_graph_mask a_in
  = map (map (fun features => if padding_step features then 0 else 1)) a_in
  /\ _create_tf_graph_real_length a_in
     = map (fun steps =>
              Z.of_nat (length (List.filter
                                  (fun features => negb (padding_step features))
                                  steps))) a_in.
Proof.
  intros Hok.
  assert (Hmask : _create_tf_graph_mask a_in
                  = map (map (fun features =>
                                if padding_step features then 0 else 1)) a_in).
  { unfold _create_tf_graph_mask. apply map_ext_in. intros steps Hs.
    apply map_ext_in. intros features Hf.
    rewrite List.Forall_forall in Hok. specialize (Hok steps Hs).
    rewrite List.Forall_forall in Hok. destruct (Hok features Hf) as [Hne Hge].
    now apply mask_of_step. }
  split; [exact Hmask |].
  unfold _create_tf_graph_real_length. rewrite Hmask, map_map.
  apply map_ext. intros steps.
  rewrite reduce_sum_indicator. apply trunc_INR.
Qed.

Lemma graph_mask_counts_real_steps_witness :
  _create_tf_graph_mask [[[0; 1]; [1; 0]; [-1; -1]]] = [[1; 1; 0]]
  /\ _create_tf_graph_real_length [[[0; 1]; [1; 0]; [-1; -1]]] = [2%Z].
Proof.
  pose proof (graph_mask_counts_real_steps [[[0; 1]; [1; 0]; [-1; -1]]]) as H.
  assert (Hp1 : padding_step [0; 1] = false).
  { unfold padding_step, forallb, Reqb.
    destruct (Req_dec_T 0 (-1)); [lra | reflexivity]. }
  assert (Hp2 : padding_step [1; 0] = false).
  { unfold padding_step, forallb, Reqb.
    destruct (Req_dec_T 1 (-1)); [lra | reflexivity]. }
  assert (Hp3 : padding_step [-1; -1] = true).
  { unfold padding_step, forallb, Reqb.
    destruct (Req_dec_T (-1) (-1)); [reflexivity | lra]. }
  cbn [map List.filter] in H. rewrite Hp1, Hp2, Hp3 in H. cbn in H.
  apply H.
  repeat constructor; try discriminate; lra.
Defined.

Lemma py_slice_chunk (ids : list nat) (batch_size : Z) (i : nat) :
  (0 < batch_size)%Z ->
  py_slice ids (Z.of_nat i * batch_size) ((Z.of_nat i + 1) * batch_size)
  = take (Z.to_nat batch_size) (drop (i * Z.to_nat batch_size) ids).
Proof.
  intros Hpos. unfold py_slice, slice_bound. cbv zeta.
  set (n := Z.of_nat (length ids)).
  rewrite (proj2 (Z.ltb_ge (Z.of_nat i * batch_size) 0)) by nia.
  rewrite (proj2 (Z.ltb_ge ((Z.of_nat i + 1) * batch_size) 0)) by nia.
  destruct (Z_lt_le_dec (Z.of_nat i * batch_size) n) as [Hlt | Hge].
  - replace (Z.to_nat (Z.min (Z.of_nat i * batch_size) n))
      with (i * Z.to_nat batch_size)%nat by nia.
    destruct (Z_lt_le_dec ((Z.of_nat i + 1) * batch_size) n) as [Hlt' | Hge'].
    + f_equal. nia.
    + rewrite !take_ge; [reflexivity | |]; rewrite length_drop; unfold n in *; nia.
  - rewrite !drop_ge by (unfold n in *; nia). now rewrite !take_nil.
Qed.

Lemma concat_chunks {A} (l : list A) (b k : nat) :
  concat (map (fun i => take b (drop (i * b) l)) (seq 0 k)) = take (k * b) l.
Proof.
  induction k as [| k IH]; [reflexivity |].
  rewrite seq_S, map_app, concat_app, IH. cbn [map concat Nat.add].
  rewrite app_nil_r, take_take_drop. f_equal. lia.
Qed.

(** X8. With a positive batch size every epoch of [_train_tf] goes through
    the whole permutation once: the index batches, in order, concatenate to
    [ids], and each of them is non-empty and holds at most [batch_size]
    indexes. *)
Theorem epoch_batches_cover_ids (ids : list nat) (batch_size : Z) :
  (0 < batch_size)%Z ->
  exists batches,
    epoch_batches ids batch_size = Some batches /\
    concat batches = ids /\
    Forall (fun batch =>
              (0 < length batch)%nat /\
              (Z.of_nat (length batch) <= batch_size)%Z) batches.
Proof.
  intros Hpos. unfold epoch_batches, batches_per_epoch.
  rewrite (proj2 (Z.eqb_neq batch_size 0)) by lia.
  cbn [mbind option_bind].
  set (n := Z.of_nat (length ids)).
  set (bpe := (n / batch_size
               + (if (0 <? n mod batch_size)%Z then 1 else 0))%Z).
  pose proof (Z.div_mod n batch_size ltac:(lia)) as Hdm.
  pose proof (Z.mod_pos_bound n batch_size Hpos) as Hmod.
  assert (Hq : (0 <= n / batch_size)%Z) by (apply Z.div_pos; unfold n; lia).
  assert (Hbpe : (0 <= bpe)%Z /\ (n <= bpe * batch_size)%Z /\
                 ((bpe - 1) * batch_size < n \/ bpe = 0)%Z).
  { unfold bpe. destruct (Z.ltb_spec 0 (n mod batch_size)); nia. }
  destruct Hbpe as (Hb0 & Hb1 & Hb2).
  eexists. split; [reflexivity |].
  unfold py_range. rewrite map_map.
  assert (Heq : map (fun x : nat =>
                       py_slice ids (Z.of_nat x * batch_size)
                         ((Z.of_nat x + 1) * batch_size))
                  (seq 0 (Z.to_nat bpe))
                = map (fun i => take (Z.to_nat batch_size)
                                  (drop (i * Z.to_nat batch_size) ids))
                    (seq 0 (Z.to_nat bpe))).
  { apply map_ext. intros i. now apply py_slice_chunk. }
  rewrite Heq. split.
  - rewrite concat_chunks. apply take_ge. unfold n in *. nia.
  - apply List.Forall_forall. intros batch Hin.
    apply in_map_iff in Hin as (i & <- & Hi). apply in_seq in Hi.
    rewrite length_take, length_drop. unfold n in *. nia.
Qed.

Lemma epoch_batches_cover_ids_witness :
  exists batches,
    epoch_batches [3; 0; 4; 1; 2]%nat 2 = Some batches /\
    concat batches = [3; 0; 4; 1; 2]%nat /\
    Forall (fun batch =>
              (0 < length batch)%nat /\
              (Z.of_nat (length batch) <= 2)%Z) batches.
Proof.
  apply (epoch_batches_cover_ids [3; 0; 4; 1; 2]%nat 2). lia.
Defined.

(** X9. A batch size that is not positive trains on nothing: with a negative
    batch size [range(batches_per_epoch)] is empty, so an epoch of
    [_train_tf] runs no training step and raises nothing, and with the batch
    size 0 the division raises [ZeroDivisionError]. *)
Theorem epoch_batches_without_positive_size (ids : list nat)
    (batch_size : Z) :
  (batch_size <= 0)%Z ->
  epoch_batches ids batch_size
  = if (batch_size =? 0)%Z then None else Some [].
Proof.
  intros Hle. unfold epoch_batches, batches_per_epoch.
  destruct (Z.eqb_spec batch_size 0) as [H0 | Hne]; [reflexivity |].
  cbn [mbind option_bind].
  set (n := Z.of_nat (length ids)).
  pose proof (Z.div_mod n batch_size Hne) as Hdm.
  pose proof (Z.mod_neg_bound n batch_size ltac:(lia)) as Hmod.
  rewrite (proj2 (Z.ltb_ge 0 (n mod batch_size))) by lia.
  assert (Hq : (n / batch_size <= 0)%Z) by (unfold n in *; nia).
  unfold py_range.
  replace (Z.to_nat (n / batch_size + 0)) with 0%nat by lia. reflexivity.
Qed.

Lemma epoch_batches_without_positive_size_witness :
  epoch_batches [3; 0; 4; 1; 2]%nat (-2) = Some [].
Proof.
  apply (epoch_batches_without_positive_size [3; 0; 4; 1; 2]%nat (-2)). lia.
Defined.

Lemma mapM_py_total {A B} (f : A -> py B) (l : list A) :
  Forall (fun x => exists y, f x = py_ret y) l ->
  exists l', mapM f l = py_ret l'.
Proof.
  induction 1 as [| x l [y Hy] _ [l' IH]]; [exists []; reflexivity |].
  exists (y :: l'). cbn [mapM]. rewrite Hy, py_bind_ret, IH, py_bind_ret.
  reflexivity.
Qed.

Lemma zip_with_Forall {A B C} (P : C -> Prop) (f : A -> B -> C)
    (l : list A) (k : list B) :
  (forall x y, P (f x y)) -> Forall P (zip_with f l k).
Proof.
  intros Hf. revert k. induction l as [| x l IH]; intros [| y k];
    cbn [zip_with]; constructor; auto.
Qed.

Lemma masked_row_sum (hits mask : list R) :
  Forall (fun h => 0 <= h <= 1) hits -> Forall (fun m => 0 <= m) mask ->
  0 <= reduce_sum (zip_with Rmult hits mask) <= reduce_sum mask.
Proof.
  intros Hh. revert mask. induction Hh as [| h hits Hh01 _ IH];
    intros mask Hm.
  - cbn [zip_with]. change (reduce_sum []) with 0.
    split; [lra |]. induction Hm as [| m mask Hm0 _ IHm];
      [cbn; lra |].
    change (reduce_sum (m :: mask)) with (m + reduce_sum mask). lra.
  - destruct Hm as [| m mask Hm0 Hm].
    + cbn. lra.
    + cbn [zip_with].
      change (reduce_sum (?a :: ?r)) with (a + reduce_sum r).
      specialize (IH mask Hm). nra.
Qed.

Lemma masked_sum (hits mask : tensor2) :
  Forall (Forall (fun h => 0 <= h <= 1)) hits ->
  Forall (Forall (fun m => 0 <= m)) mask ->
  0 <= np_sum (zip_with (zip_with Rmult) hits mask) <= np_sum mask.
Proof.
  unfold np_sum. intros Hh. revert mask.
  induction Hh as [| h hits Hh01 _ IH]; intros mask Hm.
  - cbn [zip_with map]. change (reduce_sum []) with 0.
    split; [lra |]. induction Hm as [| m mask Hm0 _ IHm]; [cbn; lra |].
    cbn [map]. change (reduce_sum (?a :: ?r)) with (a + reduce_sum r).
    pose proof (masked_row_sum [] m (List.Forall_nil _) Hm0) as H. cbn in H. lra.
  - destruct Hm as [| m mask Hm0 Hm].
    + cbn. lra.
    + cbn [zip_with map].
      change (reduce_sum (?a :: ?r)) with (a + reduce_sum r).
      specialize (IH mask Hm). pose proof (masked_row_sum h m Hh01 Hm0). lra.
Qed.

(** X10. The training accuracy is a share. When every step has at least one
    similarity, the mask has no negative entry and is not zero everywhere,
    [_calc_train_acc] returns a number between 0 and 1. *)
Theorem calc_train_acc_bounds (_sim : tensor3) (actions : list (list nat))
    (_mask : tensor2) :
  Forall (Forall (fun row => row <> [])) _sim ->
  Forall (Forall (fun m => 0 <= m)) _mask ->
  0 < np_sum _mask ->
  exists acc,
    _calc_train_acc _sim actions _mask = py_ret acc /\ 0 <= acc <= 1.
Proof.
  intros Hsim Hmask Hpos. unfold _calc_train_acc.
  destruct (mapM_py_total (mapM np_argmax) _sim) as [predicted ->].
  { eapply Forall_impl; [exact Hsim |]. cbv beta. intros steps Hsteps.
    apply mapM_py_total. eapply Forall_impl; [exact Hsteps |]. cbv beta.
    intros [| x row] Hrow; [contradiction |]. eexists. reflexivity. }
  rewrite py_bind_ret. eexists. split; [reflexivity |].
  match goal with
  | |- 0 <= np_sum (zip_with _ ?hits _) / _ <= 1 =>
      pose proof (masked_sum hits _mask) as Hb
  end.
  destruct Hb as [Hlo Hhi]; [| exact Hmask |].
  { apply zip_with_Forall. intros p a. apply zip_with_Forall. intros x y.
    destruct (x =? y)%nat; lra. }
  split.
  - apply Rmult_le_pos; [exact Hlo |]. left. now apply Rinv_0_lt_compat.
  - apply (Rmult_le_reg_r (np_sum _mask)); [exact Hpos |].
    unfold Rdiv. rewrite Rmult_assoc, Rinv_l by lra. lra.
Qed.

Lemma calc_train_acc_bounds_witness :
  exists acc,
    _calc_train_acc [[[0; 1]; [1; 0]]] [[1; 1]]%nat [[1; 1]] = py_ret acc /\
    0 <= acc <= 1.
Proof.
  apply (calc_train_acc_bounds [[[0; 1]; [1; 0]]] [[1; 1]]%nat [[1; 1]]).
  - repeat constructor; discriminate.
  - repeat constructor; lra.
  - cbn. lra.
Defined.

End TrainingArraysProperties.

(* ===================================================================== *)
(** ** Persisting and loading: edges and repetition *)
(* ===================================================================== *)

Section PersistenceEdges.

Context {DialogueStateTracker : Type}.
Variable _standard_featurizer : Featurizer DialogueStateTracker.
Implicit Types (self loaded : EmbeddingPolicy DialogueStateTracker)
  (fs : gmap string (file DialogueStateTracker)).

(** X11. A directory that holds a featurizer but no checkpoint loads as an
    untrained policy: [load] returns a policy with the stored featurizer (the
    standard one when none is stored), the default configuration and no
    session, and this policy scores every action 0 for every tracker. *)
Theorem load_without_checkpoint path fs :
  path_exists fs path = true ->
  fs !! (path_join path file_name +:+ ".meta") = None ->
  (forall f, fs !! path_join path "featurizer.json" = Some (FFeaturizer f) ->
             is_full_dialogue f = true) ->
  exists loaded,
    outcome (load true _standard_featurizer path fs) = Ok loaded /\
    featurizer loaded
    = match fs !! path_join path "featurizer.json" with
      | Some (FFeaturizer f) => f
      | _ => _standard_featurizer
      end /\
    params loaded = default_params /\
    session loaded = None /\
    forall tracker domain,
      outcome (predict_action_probabilities loaded tracker domain)
      = Ok (replicate (num_actions domain) 0%R).
Proof.
  intros Hpath Hmeta Hfull. unfold load. rewrite Hpath.
  assert (Hno : path_exists fs (path_join path file_name +:+ ".meta") = false).
  { unfold path_exists. rewrite Hmeta. apply bool_decide_eq_false_2.
    intros [x Hx]. discriminate Hx. }
  unfold featurizer_load.
  destruct (fs !! path_join path "featurizer.json") as [[| f | g | s | a] |]
    eqn:Hf;
    try (change (_ ← py_log ERROR; mret None)
           with ([ERROR], @Ok (option (Featurizer DialogueStateTracker)) None);
         rewrite outcome_bind_ok, Hno;
         unfold EmbeddingPolicy_init, _check_tensorflow, Policy_init;
         py_simpl; rewrite load_params_defaults; py_simpl;
         eexists; split; [reflexivity |]; cbn;
         repeat (split; [reflexivity |]); intros; reflexivity).
  specialize (Hfull f eq_refl). py_simpl. rewrite Hno.
  unfold EmbeddingPolicy_init, _check_tensorflow, Policy_init.
  rewrite Hfull. py_simpl. rewrite load_params_defaults. py_simpl.
  eexists. split; [reflexivity |]. cbn.
  repeat (split; [reflexivity |]). intros. reflexivity.
Qed.

(** X12. Persisting an untrained policy leaves nothing to load: [persist]
    on a policy without a session only warns and writes no file, so [load]
    from that path, when it did not exist before, raises [Exception]. *)
Theorem persist_untrained_then_load self path fs tf_imported :
  session self = None ->
  fs !! path = None ->
  persist self path fs = ([WARNING], Ok (self, fs)) /\
  outcome (load tf_imported _standard_featurizer path fs) = Raise Exception.
Proof.
  intros Hs Hpath. unfold persist. rewrite Hs. split; [reflexivity |].
  unfold load, path_exists. rewrite Hpath.
  rewrite bool_decide_eq_false_2; [reflexivity |].
  intros [x Hx]. discriminate Hx.
Qed.

Lemma set_collection_id (name : string) (v : option handle) (g : Graph) :
  collections g !! name = Some [v] -> set_collection name v g = g.
Proof.
  intros H. destruct g as [c]. cbn in H.
  unfold set_collection, add_to_collection, clear_collection.
  cbn [collections]. f_equal.
  rewrite lookup_delete_eq. cbn [default app].
  now apply insert_delete_id.
Qed.

Lemma collection_lookup_of_get (name : string) (v : option handle)
    (g : Graph) :
  get_collection name g = [v] -> collections g !! name = Some [v].
Proof.
  unfold get_collection. destruct (collections g !! name); cbn;
    [congruence | discriminate].
Qed.

Lemma alignment_collection_inj (i j : nat) :
  alignment_collection i = alignment_collection j -> i = j.
Proof.
  unfold alignment_collection. intros H.
  apply (String.app_inj "alignment_history_") in H.
  now apply pretty_nat_inj in H.
Qed.

Lemma get_persist_alignments_before (i k : nat) (hs : list (option handle))
    (g : Graph) :
  (k < i)%nat ->
  get_collection (alignment_collection k) (persist_alignments i hs g)
  = get_collection (alignment_collection k) g.
Proof.
  revert i g. induction hs as [| h hs IH]; intros i g Hk; [reflexivity |].
  cbn [persist_alignments]. rewrite IH by lia.
  apply get_set_collection_ne.
  intros Heq. apply alignment_collection_inj in Heq. lia.
Qed.

Lemma get_persist_alignments_at (i j : nat) (hs : list (option handle))
    (g : Graph) (h : option handle) :
  hs !! j = Some h ->
  get_collection (alignment_collection (i + j)) (persist_alignments i hs g)
  = [h].
Proof.
  revert i j g. induction hs as [| h0 hs IH]; intros i j g Hj;
    [discriminate Hj |].
  cbn [persist_alignments]. destruct j as [| j].
  - injection Hj as ->. rewrite Nat.add_0_r.
    rewrite get_persist_alignments_before by lia.
    apply get_set_collection.
  - replace (i + S j)%nat with (S i + j)%nat by lia. now apply IH.
Qed.

Lemma persist_alignments_id (i : nat) (hs : list (option handle))
    (g : Graph) :
  (forall j h, hs !! j = Some h ->
               collections g !! alignment_collection (i + j) = Some [h]) ->
  persist_alignments i hs g = g.
Proof.
  revert i. induction hs as [| h hs IH]; intros i Hg; [reflexivity |].
  cbn [persist_alignments].
  change (add_to_collection ?n ?v (clear_collection ?n ?G))
    with (set_collection n v G).
  rewrite set_collection_id.
  - apply IH. intros j h' Hj.
    replace (S i + j)%nat with (i + S j)%nat by lia. now apply Hg.
  - rewrite <- (Nat.add_0_r i). now apply Hg.
Qed.

Lemma persisted_graph_id self self' g hist :
  a_in self' = a_in self -> b_in self' = b_in self ->
  c_in self' = c_in self -> b_prev_in self' = b_prev_in self ->
  sim_op self' = sim_op self ->
  persisted_graph self' (persisted_graph self g hist) hist
  = persisted_graph self g hist.
Proof.
  intros Ha Hb Hc Hbp Hso.
  set (G := persisted_graph self g hist).
  assert (Hfixed : forall name v,
             name ∈ ["intent_placeholder"; "action_placeholder";
                     "slots_placeholder"; "prev_act_placeholder";
                     "similarity_op"] ->
             get_collection name
               (set_collection "similarity_op" (sim_op self)
                  (set_collection "prev_act_placeholder" (b_prev_in self)
                     (set_collection "slots_placeholder" (c_in self)
                        (set_collection "action_placeholder" (b_in self)
                           (set_collection "intent_placeholder" (a_in self)
                              g))))) = [v] ->
             collections G !! name = Some [v]).
  { intros name v Hin Hget. apply collection_lookup_of_get.
    unfold G, persisted_graph. rewrite get_persist_alignments; [exact Hget |].
    intros j. now apply alignment_collection_fresh. }
  unfold persisted_graph at 1. fold G. rewrite Ha, Hb, Hc, Hbp, Hso.
  rewrite (set_collection_id "intent_placeholder").
  2:{ apply Hfixed; [set_solver |].
      repeat (rewrite get_set_collection_ne by discriminate).
      apply get_set_collection. }
  rewrite (set_collection_id "action_placeholder").
  2:{ apply Hfixed; [set_solver |].
      repeat (rewrite get_set_collection_ne by discriminate).
      apply get_set_collection. }
  rewrite (set_collection_id "slots_placeholder").
  2:{ apply Hfixed; [set_solver |].
      repeat (rewrite get_set_collection_ne by discriminate).
      apply get_set_collection. }
  rewrite (set_collection_id "prev_act_placeholder").
  2:{ apply Hfixed; [set_solver |].
      repeat (rewrite get_set_collection_ne by discriminate).
      apply get_set_collection. }
  rewrite (set_collection_id "similarity_op").
  2:{ apply Hfixed; [set_solver |]. apply get_set_collection. }
  apply persist_alignments_id. intros j h Hj.
  apply collection_lookup_of_get. unfold G, persisted_graph.
  now apply (get_persist_alignments_at 0).
Qed.

(** X13. Persisting twice is persisting once: when [persist] succeeds, a
    second [persist] of the resulting policy to the same path changes neither
    the policy (every named collection of its graph still holds the one
    handle written first) nor the file system. *)
Theorem persist_twice self path fs self' fs' :
  outcome (persist self path fs) = Ok (self', fs') ->
  outcome (persist self' path fs') = Ok (self', fs').
Proof.
  unfold persist at 1.
  destruct (session self) as [sess |] eqn:Hs.
  2:{ intros [= <- <-]. unfold persist. rewrite Hs. reflexivity. }
  destruct (graph self) as [g |] eqn:Hg; [| discriminate].
  destruct (alignment_history self) as [hist |] eqn:Hh; [| discriminate].
  cbv zeta. intros [= <- <-].
  unfold persist. cbn [session graph alignment_history a_in b_in c_in
                         b_prev_in sim_op featurizer share_embedding params
                         characteristic_time encoded_all_actions train_op
                         is_training].
  cbv zeta.
  change (persist_alignments 0 hist
            (set_collection "similarity_op" (sim_op self)
               (set_collection "prev_act_placeholder" (b_prev_in self)
                  (set_collection "slots_placeholder" (c_in self)
                     (set_collection "action_placeholder" (b_in self)
                        (set_collection "intent_placeholder" (a_in self)
                           g))))))
    with (persisted_graph self g hist).
  change (persist_alignments 0 hist
            (set_collection "similarity_op" (sim_op self)
               (set_collection "prev_act_placeholder" (b_prev_in self)
                  (set_collection "slots_placeholder" (c_in self)
                     (set_collection "action_placeholder" (b_in self)
                        (set_collection "intent_placeholder" (a_in self)
                           (persisted_graph self g hist)))))))
    with (persisted_graph self (persisted_graph self g hist) hist).
  rewrite (persisted_graph_id self self) by reflexivity.
  cbn [outcome snd mret py_mret py_ret]. do 2 f_equal.
  unfold featurizer_persist, create_dir, saver_save.
  set (G := persisted_graph self g hist).
  repeat (rewrite insert_id;
          [| repeat (rewrite lookup_insert_ne by path_neq);
             apply lookup_insert_eq]).
  reflexivity.
Qed.

End PersistenceEdges.

Lemma load_without_checkpoint_witness :
  let fs : gmap string (file unit) :=
    <["model/featurizer.json" := FFeaturizer toy_featurizer]>
      (<["model" := FDir]> ∅) in
  exists loaded,
    outcome (load true toy_featurizer "model" fs) = Ok loaded /\
    featurizer loaded
    = match fs !! path_join "model" "featurizer.json" with
      | Some (FFeaturizer f) => f
      | _ => toy_featurizer
      end /\
    params loaded = default_params /\
    session loaded = None /\
    forall tracker domain,
      outcome (predict_action_probabilities loaded tracker domain)
      = Ok (replicate (num_actions domain) 0%R).
Proof.
  intros fs.
  apply (load_without_checkpoint toy_featurizer "model" fs).
  - reflexivity.
  - reflexivity.
  - intros f Hf. vm_compute in Hf. injection Hf as <-. reflexivity.
Defined.

Lemma persist_untrained_then_load_witness :
  persist toy_fresh_policy "model" ∅ = ([WARNING], Ok (toy_fresh_policy, ∅)) /\
  outcome (load true toy_featurizer "model" ∅) = Raise Exception.
Proof.
  apply (persist_untrained_then_load toy_featurizer toy_fresh_policy "model"
           ∅ true); reflexivity.
Defined.

Lemma persist_twice_witness :
  let self := toy_trained_policy [[[0; 0]%R]] default_params in
  exists self' fs',
    outcome (persist self "model" ∅) = Ok (self', fs') /\
    outcome (persist self' "model" fs') = Ok (self', fs').
Proof.
  intros self. eexists. eexists. split; [reflexivity |].
  apply (persist_twice self "model" ∅). reflexivity.
Defined.

(* ===================================================================== *)
(** ** The attention wrapper *)
(* ===================================================================== *)

Section AttentionWrapperProperties.
Local Open Scope R_scope.

Lemma TimedNTM_call_row_length_le (self : TimedNTM)
    (cell_output probs probs_state : list R) :
  (length (fst (TimedNTM_call_row self cell_output probs probs_state))
   <= length probs)%nat.
Proof.
  unfold TimedNTM_call_row. cbn [fst].
  rewrite length_map, ntm_powed_length, ntm_shift_length.
  unfold ntm_interpolate.
  rewrite length_app, length_zip_with, length_take, length_drop. lia.
Qed.

Lemma reduce_sum_zip_zeros (g : list R -> R) (zs : list R)
    (values : tensor2) :
  Forall (fun z => z = 0) zs ->
  reduce_sum (zip_with (fun a v => a * g v) zs values) = 0.
Proof.
  intros Hz. revert values. induction Hz as [| z zs -> _ IH];
    intros [| v values]; cbn [zip_with]; try reflexivity.
  change (reduce_sum (?a :: ?r)) with (a + reduce_sum r). rewrite IH. lra.
Qed.

Lemma reduce_sum_zip_prefix (g : list R -> R) (p zs : list R)
    (values : tensor2) :
  Forall (fun z => z = 0) zs ->
  reduce_sum (zip_with (fun a v => a * g v) (p ++ zs) values)
  = reduce_sum (zip_with (fun a v => a * g v) p (take (length p) values)).
Proof.
  intros Hz. revert values. induction p as [| a p IH]; intros values.
  - cbn [app length take zip_with]. now apply reduce_sum_zip_zeros.
  - destruct values as [| v values]; [reflexivity |].
    cbn [app length take zip_with].
    change (reduce_sum (?x :: ?r)) with (x + reduce_sum r).
    now rewrite IH.
Qed.

Lemma context_of_prefix (p zs : list R) (values values' : tensor2)
    (n : nat) :
  Forall (fun z => z = 0) zs -> (length p <= S n)%nat ->
  take (S n) values = take (S n) values' ->
  context_of (p ++ zs) values = context_of (p ++ zs) values'.
Proof.
  intros Hz Hlen Hv. unfold context_of.
  assert (Hshape : shape1 values = shape1 values').
  { destruct values, values'; cbn in Hv; try discriminate Hv;
      [reflexivity |]. injection Hv as -> _. reflexivity. }
  rewrite Hshape. apply map_ext. intros j.
  rewrite !(reduce_sum_zip_prefix (fun v => nth j v 0)) by exact Hz.
  replace (take (length p) values)
    with (take (length p) (take (S n) values))
    by (rewrite take_take; f_equal; lia).
  replace (take (length p) values')
    with (take (length p) (take (S n) values'))
    by (rewrite take_take; f_equal; lia).
  now rewrite Hv.
Qed.

Lemma zeros_tail (scores : list R) (n : nat) :
  Forall (fun z => z = 0) (drop n (map (fun _ : R => 0) scores)).
Proof.
  apply Forall_drop, Forall_map, Forall_true. reflexivity.
Qed.

Lemma zeros_like_length (l l' : list R) :
  length l = length l' ->
  map (fun _ : R => 0) l = map (fun _ : R => 0) l'.
Proof.
  revert l'. induction l as [| x l IH]; intros [| y l'] Hl;
    try discriminate Hl; [reflexivity |].
  cbn [map]. f_equal. apply IH. now injection Hl.
Qed.

(** X14. The attention of a step does not look at the future. Two memories
    of one length that agree on the scores and the values of the positions up
    to [time], with attention states that agree before [time], give the same
    attention, the same alignments and the same next attention state:
    whatever lies after [time] in the memory has no influence. *)
Theorem time_attention_ignores_the_future
    (am am' : AttentionMechanism) (b : nat)
    (cell_output attention_state attention_state' : list R) (time : nat)
    (timed_ntm : TimedNTM) (attention_layer : option (list R -> list R)) :
  let scores := am_alignments am b cell_output attention_state in
  let scores' := am_alignments am' b cell_output attention_state' in
  length scores = length scores' ->
  take (time + 1) scores = take (time + 1) scores' ->
  take time attention_state = take time attention_state' ->
  take (time + 1) (am_values am b) = take (time + 1) (am_values am' b) ->
  _compute_time_attention_row am b cell_output attention_state time
    timed_ntm attention_layer
  = _compute_time_attention_row am' b cell_output attention_state' time
      timed_ntm attention_layer.
Proof.
  intros scores scores' Hlen Hscores Hstate Hvalues.
  unfold _compute_time_attention_row. cbv zeta.
  fold scores. fold scores'. rewrite <- Hscores, <- Hstate.
  assert (Hz : map (fun _ : R => 0) scores = map (fun _ : R => 0) scores').
  { now apply zeros_like_length. }
  rewrite <- Hz.
  pose proof (TimedNTM_call_row_length_le timed_ntm cell_output
                (take (time + 1) scores) (take time attention_state)) as Hle.
  destruct (TimedNTM_call_row timed_ntm cell_output (take (time + 1) scores)
              (take time attention_state)) as [probs next_probs_state].
  cbn [fst] in Hle. rewrite length_take in Hle.
  rewrite Nat.add_1_r in *.
  rewrite (context_of_prefix probs _ (am_values am b) (am_values am' b) time);
    [reflexivity | apply zeros_tail | lia | exact Hvalues].
Qed.

Lemma time_attention_ignores_the_future_witness :
  let timed_ntm :=
    TimedNTM_init 0 (fun _ => 0) (fun _ _ => 0) (fun _ => 0) in
  _compute_time_attention_row (toy_mechanism 3) 0 [1] [0; 0; 0] 1 timed_ntm
    None
  = _compute_time_attention_row other_future_mechanism 0 [1] [0; 0; 0] 1
      timed_ntm None.
Proof.
  intros timed_ntm.
  apply (time_attention_ignores_the_future (toy_mechanism 3)
           other_future_mechanism 0 [1] [0; 0; 0] [0; 0; 0] 1 timed_ntm None);
    reflexivity.
Defined.

Lemma compute_time_attention_row_future_zero
    (am : AttentionMechanism) (b : nat) (cell_output attention_state : list R)
    (time : nat) (timed_ntm : TimedNTM)
    (attention_layer : option (list R -> list R)) (i : nat) (x : R) :
  (time < i)%nat ->
  snd (fst (_compute_time_attention_row am b cell_output attention_state time
              timed_ntm attention_layer)) !! i = Some x ->
  x = 0.
Proof.
  intros Hi. unfold _compute_time_attention_row. cbv zeta.
  set (scores := am_alignments am b cell_output attention_state).
  pose proof (TimedNTM_call_row_length_le timed_ntm cell_output
                (take (time + 1) scores) (take time attention_state)) as Hle.
  destruct (TimedNTM_call_row timed_ntm cell_output (take (time + 1) scores)
              (take time attention_state)) as [probs next_probs_state].
  cbn [fst snd] in *. rewrite length_take in Hle.
  rewrite lookup_app_r by lia. intros Hx.
  apply list_elem_of_lookup_2 in Hx.
  pose proof (zeros_tail scores (time + 1)) as Hz.
  rewrite Forall_forall in Hz. now apply Hz.
Qed.

Lemma compute_time_attention_future_zero
    (am : AttentionMechanism) (cell_output attention_state : tensor2)
    (time : nat) (timed_ntm : TimedNTM)
    (attention_layer : option (list R -> list R)) :
  Forall (fun row => forall i x, (time < i)%nat -> row !! i = Some x -> x = 0)
    (snd (fst (_compute_time_attention am cell_output attention_state time
                 timed_ntm attention_layer))).
Proof.
  unfold _compute_time_attention. cbn [fst snd].
  apply Forall_forall. intros row Hrow.
  apply list_elem_of_In, in_map_iff in Hrow as (r & <- & Hr).
  apply list_elem_of_In, elem_of_lookup_imap in Hr
    as (b & [co st] & -> & _).
  intros i x Hi Hx.
  now apply (compute_time_attention_row_future_zero am b co st time timed_ntm
               attention_layer i x).
Qed.

(** X15. A step of [TimeAttentionWrapper] keeps the alignment history
    causal. On a wrapper that keeps the history and a state whose history is
    causal up to its time, [call] returns, advances the time by one, writes
    the alignments of the step at the old time and leaves the other entries
    as they were; the new history is causal up to the new time, so no step
    ever attends to a memory position after its own time. *)
Theorem attention_wrapper_call_keeps_history_causal
    (self : TimeAttentionWrapper) (inputs : tensor2)
    (state : AttentionWrapperState) (history : gmap nat tensor2) :
  _alignment_history self = true ->
  aws_alignment_history state = Some history ->
  causal_history (aws_time state) history ->
  exists output next_state,
    TimeAttentionWrapper_call self inputs state
    = py_ret (output, next_state) /\
    aws_time next_state = S (aws_time state) /\
    aws_alignment_history next_state
    = Some (<[aws_time state := aws_alignments next_state]> history) /\
    causal_history (aws_time next_state)
      (<[aws_time state := aws_alignments next_state]> history).
Proof.
  intros Hflag Hhist Hcausal. unfold TimeAttentionWrapper_call.
  rewrite Hflag, Hhist.
  pose proof (compute_time_attention_future_zero (_attention_mechanism self)
                match aws_cell_state state with
                | LSTMStateTuple _ h => zip_with app h inputs
                | PlainState s => zip_with app s inputs
                end
                (aws_attention_state state) (aws_time state)
                (timed_ntms self) (_attention_layer self)) as Hzero.
  cbv zeta.
  destruct (_compute_time_attention _ _ _ _ _ _)
    as [[attention alignments] next_attention_state].
  cbn [fst snd] in Hzero. py_simpl.
  destruct (_cell self (_cell_input_fn self inputs attention)
              (aws_cell_state state)) as [cell_output next_cell_state].
  eexists. eexists. split; [reflexivity |]. cbn [aws_time aws_alignments
    aws_alignment_history].
  split; [lia |]. split; [reflexivity |].
  intros t a Ht. destruct (decide (t = aws_time state)) as [-> | Hne].
  - rewrite lookup_insert_eq in Ht. injection Ht as <-.
    split; [lia | exact Hzero].
  - rewrite lookup_insert_ne in Ht by congruence.
    destruct (Hcausal t a Ht) as [Hlt Hrows]. split; [lia | exact Hrows].
Qed.

Lemma attention_wrapper_call_keeps_history_causal_witness :
  exists output next_state,
    TimeAttentionWrapper_call toy_wrapper [[1; 2]] toy_zero_state
    = py_ret (output, next_state) /\
    aws_time next_state = 1%nat /\
    aws_alignment_history next_state
    = Some (<[0%nat := aws_alignments next_state]> ∅) /\
    causal_history (aws_time next_state)
      (<[0%nat := aws_alignments next_state]> ∅).
Proof.
  apply (attention_wrapper_call_keeps_history_causal toy_wrapper [[1; 2]]
           toy_zero_state ∅).
  - reflexivity.
  - reflexivity.
  - intros t a Ht. rewrite lookup_empty in Ht. discriminate Ht.
Defined.

End AttentionWrapperProperties.

(* ===================================================================== *)
(** ** The recurrent cell: biases, inference and range *)
(* ===================================================================== *)

Section ChronoCellFurther.
Local Open Scope R_scope.

Lemma ln_le_mono (x y : R) : 0 < x -> x <= y -> ln x <= ln y.
Proof.
  intros Hx [Hlt | ->]; [left; now apply ln_increasing | right; reflexivity].
Qed.

(** X16. The chrono initialization biases the cell towards remembering. For
    a characteristic time of at least 2 and draws from [[0, 1)], every forget
    bias of the cell made by [_create_rnn_cell] lies between 0 and
    [log(characteristic_time - 1)], and every input bias between
    [- log(characteristic_time - 1)] and 0. *)
Theorem chrono_bias_range
    (characteristic_time droprate_rnn : R) (rnn_size : nat) (random : list R)
    (is_training : bool) (linear : list R -> list R)
    (norm : string -> tensor2 -> tensor2) :
  let cell := _create_rnn_cell characteristic_time rnn_size random
                droprate_rnn is_training linear norm in
  2 <= characteristic_time ->
  Forall (fun u => 0 <= u < 1) random ->
  Forall (fun bias => 0 <= bias <= ln (characteristic_time - 1))
    (_forget_bias cell) /\
  Forall (fun bias => - ln (characteristic_time - 1) <= bias <= 0)
    (_input_bias cell).
Proof.
  intros cell Hct Hrandom.
  assert (Hf : Forall (fun bias => 0 <= bias <= ln (characteristic_time - 1))
                 (_forget_bias cell)).
  { cbn [cell _create_rnn_cell _forget_bias]. apply Forall_map.
    eapply Forall_impl; [exact Hrandom |]. cbv beta. intros u Hu.
    rewrite <- ln_1. split; apply ln_le_mono; nra. }
  split; [exact Hf |].
  cbn [cell _create_rnn_cell _input_bias]. apply Forall_map.
  eapply Forall_impl; [exact Hf |]. cbv beta. intros x Hx. lra.
Qed.

Lemma chrono_bias_range_witness :
  let cell := _create_rnn_cell 3 2 [0; 1 / 2] (1 / 10) true (fun x => x)
                (fun _ x => x) in
  Forall (fun bias => 0 <= bias <= ln (3 - 1)) (_forget_bias cell) /\
  Forall (fun bias => - ln (3 - 1) <= bias <= 0) (_input_bias cell).
Proof.
  apply (chrono_bias_range 3 (1 / 10) 2 [0; 1 / 2] true (fun x => x)
           (fun _ x => x)).
  - lra.
  - repeat constructor; lra.
Defined.

Lemma tf_nn_dropout_keep_all (row noise : list R) :
  Forall (fun u => 0 <= u < 1) noise ->
  tf_nn_dropout row 1 noise = take (length noise) row.
Proof.
  intros Hn. revert row. induction Hn as [| u noise Hu _ IH];
    intros [| y row]; try reflexivity.
  unfold tf_nn_dropout in *. cbn [zip_with length take]. rewrite IH.
  f_equal. unfold tf_nn_dropout_elt. rewrite tf_floor_one by lra. field.
Qed.

Lemma dropout_rows_keep_all (g noise noise' : tensor2) :
  Forall (Forall (fun u => 0 <= u < 1)) noise ->
  Forall (Forall (fun u => 0 <= u < 1)) noise' ->
  Forall2 (fun r r' => length r = length r') noise noise' ->
  zip_with (fun row u => tf_nn_dropout row 1 u) g noise
  = zip_with (fun row u => tf_nn_dropout row 1 u) g noise'.
Proof.
  intros Hn Hn' Hshape. revert g Hn Hn'.
  induction Hshape as [| r r' noise noise' Hlen _ IH]; intros g Hn Hn'.
  - reflexivity.
  - destruct g as [| row g]; [reflexivity |].
    apply Forall_cons in Hn as [Hr Hn]. apply Forall_cons in Hn' as [Hr' Hn'].
    cbn [zip_with]. rewrite (IH g Hn Hn').
    rewrite !tf_nn_dropout_keep_all by assumption. now rewrite Hlen.
Qed.

(** X17. At inference the recurrent dropout of the cell made by
    [_create_rnn_cell] is inert: with [is_training] false the new state and
    the output of [call] do not depend on the draws of the dropout, whatever
    the rate (two noise tensors of one shape with draws from [[0, 1)] give
    the same result). *)
Theorem chrono_cell_inference_ignores_noise
    (characteristic_time droprate_rnn : R) (rnn_size : nat) (random : list R)
    (linear : list R -> list R) (norm : string -> tensor2 -> tensor2)
    (inputs : tensor2) (state : tensor2 * tensor2) (noise noise' : tensor2) :
  let cell := _create_rnn_cell characteristic_time rnn_size random
                droprate_rnn false linear norm in
  Forall (Forall (fun u => 0 <= u < 1)) noise ->
  Forall (Forall (fun u => 0 <= u < 1)) noise' ->
  Forall2 (fun r r' => length r = length r') noise noise' ->
  ChronoLayerNormBasicLSTMCell_call cell inputs state noise
  = ChronoLayerNormBasicLSTMCell_call cell inputs state noise'.
Proof.
  intros cell Hn Hn' Hshape. destruct state as [c h].
  unfold ChronoLayerNormBasicLSTMCell_call.
  cbn [cell _create_rnn_cell _layer_norm _keep_prob applies_dropout
         keep_prob_value _activation _linear _forget_bias _input_bias].
  cbv zeta. unfold tf_cast.
  replace (1 - droprate_rnn * 0) with 1 by lra.
  now rewrite (dropout_rows_keep_all _ noise noise').
Qed.

Lemma chrono_cell_inference_ignores_noise_witness :
  let cell := _create_rnn_cell 3 1 [0] (1 / 2) false
                (fun x => [1; 1; 1; 1]) (fun _ x => x) in
  ChronoLayerNormBasicLSTMCell_call cell [[1]] ([[0]], [[0]]) [[0]]
  = ChronoLayerNormBasicLSTMCell_call cell [[1]] ([[0]], [[0]]) [[9 / 10]].
Proof.
  apply (chrono_cell_inference_ignores_noise 3 (1 / 2) 1 [0]
           (fun x => [1; 1; 1; 1]) (fun _ x => x) [[1]] ([[0]], [[0]])
           [[0]] [[9 / 10]]).
  - repeat constructor; lra.
  - repeat constructor; lra.
  - repeat constructor.
Defined.

Lemma tanh_range (x : R) : -1 < tanh x < 1.
Proof.
  unfold tanh, sinh, cosh.
  pose proof (exp_pos x) as Ha. pose proof (exp_pos (- x)) as Hb.
  set (a := exp x) in *. set (b := exp (- x)) in *.
  replace ((a - b) / 2 / ((a + b) / 2)) with ((a - b) / (a + b))
    by (field; lra).
  split.
  - apply (Rmult_lt_reg_r (a + b)); [lra |].
    unfold Rdiv. rewrite Rmult_assoc, Rinv_l by lra. lra.
  - apply (Rmult_lt_reg_r (a + b)); [lra |].
    unfold Rdiv. rewrite Rmult_assoc, Rinv_l by lra. lra.
Qed.

Lemma sigmoid_range (x : R) : 0 < sigmoid x < 1.
Proof.
  unfold sigmoid. pose proof (exp_pos (- x)) as He.
  split.
  - apply Rdiv_lt_0_compat; lra.
  - apply (Rmult_lt_reg_r (1 + exp (- x))); [lra |].
    unfold Rdiv. rewrite Rmult_assoc, Rinv_l by lra. lra.
Qed.

Lemma zip2d_map2d_Forall (P : R -> Prop) (f : R -> R -> R) (g k : R -> R)
    (x y : tensor2) :
  (forall a b, P (f (g a) (k b))) ->
  Forall (Forall P) (zip2d f (map2d g x) (map2d k y)).
Proof.
  intros Hf. unfold zip2d, map2d. revert y.
  induction x as [| r x IH]; intros [| r' y]; cbn [map zip_with];
    constructor; [| apply IH].
  revert r'. induction r as [| a r IHr]; intros [| b r']; cbn [map zip_with];
    constructor; [apply Hf | apply IHr].
Qed.

(** X18. The output of the cell made by [_create_rnn_cell] is bounded: every
    entry of the new hidden state, which is also the output of [call], lies
    strictly between -1 and 1, whatever the inputs, the previous state, the
    weights and the draws of the dropout. *)
Theorem chrono_cell_output_bounded
    (characteristic_time droprate_rnn : R) (rnn_size : nat) (random : list R)
    (is_training : bool) (linear : list R -> list R)
    (norm : string -> tensor2 -> tensor2)
    (inputs : tensor2) (state : tensor2 * tensor2) (noise : tensor2) :
  let cell := _create_rnn_cell characteristic_time rnn_size random
                droprate_rnn is_training linear norm in
  let result := ChronoLayerNormBasicLSTMCell_call cell inputs state noise in
  fst result = snd (snd result) /\
  Forall (Forall (fun x => -1 < x < 1)) (fst result).
Proof.
  intros cell result. subst result. destruct state as [c h].
  unfold ChronoLayerNormBasicLSTMCell_call.
  cbn [cell _create_rnn_cell _layer_norm _keep_prob applies_dropout
         keep_prob_value _activation _linear _forget_bias _input_bias].
  cbv zeta. cbn [fst snd]. split; [reflexivity |].
  apply zip2d_map2d_Forall. intros a b.
  pose proof (tanh_range a). pose proof (sigmoid_range b). nra.
Qed.

End ChronoCellFurther.

(* ===================================================================== *)
(** ** Similarity, loss and scores: ranges and order *)
(* ===================================================================== *)

Section SimilarityRanges.
Local Open Scope R_scope.

Lemma zip_with_Forall2 {A B C} (Q : A -> Prop) (M : B -> Prop)
    (P : C -> Prop) (f : A -> B -> C) (l : list A) (k : list B) :
  (forall x y, Q x -> M y -> P (f x y)) ->
  Forall Q l -> Forall M k -> Forall P (zip_with f l k).
Proof.
  intros Hf Hl. revert k. induction Hl as [| x l Hx _ IH];
    intros k Hk; [constructor |].
  destruct Hk as [| y k Hy Hk]; cbn [zip_with]; constructor; auto.
Qed.

Lemma square_sum_nonneg (v : list R) : 0 <= square_sum v.
Proof.
  unfold square_sum. apply reduce_sum_nonneg, Forall_map, Forall_true.
  intros x. cbv beta. nra.
Qed.

Lemma dot_bound (u v : list R) :
  - (square_sum u + square_sum v) / 2 <= dot u v
  <= (square_sum u + square_sum v) / 2.
Proof.
  unfold dot. revert v. induction u as [| a u IH]; intros v.
  - cbn [zip_with]. change (reduce_sum []) with 0.
    change (square_sum []) with 0. pose proof (square_sum_nonneg v).
    unfold Rdiv. split; lra.
  - destruct v as [| b v].
    + cbn [zip_with]. change (reduce_sum []) with 0.
      change (square_sum []) with 0.
      pose proof (square_sum_nonneg (a :: u)). unfold Rdiv. split; lra.
    + cbn [zip_with].
      change (reduce_sum (?x :: ?r)) with (x + reduce_sum r).
      change (square_sum (a :: u)) with (a * a + square_sum u).
      change (square_sum (b :: v)) with (b * b + square_sum v).
      specialize (IH v).
      assert (H1 : 2 * (a * b) <= a * a + b * b)
        by (pose proof (Rle_0_sqr (a - b)) as Hs; unfold Rsqr in Hs; lra).
      assert (H2 : - (a * a + b * b) <= 2 * (a * b))
        by (pose proof (Rle_0_sqr (a + b)) as Hs; unfold Rsqr in Hs; lra).
      unfold Rdiv in *. split; lra.
Qed.

Lemma square_sum_scale (c : R) (x : list R) :
  square_sum (map (fun v => v * c) x) = c * c * square_sum x.
Proof.
  unfold square_sum. induction x as [| a x IH]; cbn [map].
  - change (reduce_sum []) with 0. lra.
  - change (reduce_sum (?y :: ?r)) with (y + reduce_sum r).
    change (reduce_sum (map (fun x0 => x0 * x0) (map (fun v => v * c) x)))
      with (reduce_sum (map (fun x0 => x0 * x0) (map (fun v => v * c) x)))
      in IH.
    rewrite IH. lra.
Qed.

Lemma l2_normalize_unit_ball (x : list R) : square_sum (l2_normalize x) <= 1.
Proof.
  unfold l2_normalize. cbv zeta. fold (square_sum x).
  set (M := Rmax (square_sum x) (1 / 10 ^ 12)).
  assert (HM : 0 < M).
  { apply Rlt_le_trans with (1 / 10 ^ 12); [| apply Rmax_r].
    apply Rdiv_lt_0_compat; [lra | apply pow_lt; lra]. }
  assert (Hx : square_sum x <= M) by apply Rmax_l.
  rewrite square_sum_scale.
  assert (Hs : sqrt M * sqrt M = M) by (apply sqrt_sqrt; lra).
  assert (Hpos : 0 < sqrt M) by now apply sqrt_lt_R0.
  replace (1 / sqrt M * (1 / sqrt M)) with (/ M)
    by (rewrite <- Hs at 1; field; lra).
  apply (Rmult_le_reg_r M); [exact HM |].
  rewrite Rmult_assoc, (Rmult_comm (square_sum x)), <- Rmult_assoc.
  rewrite Rinv_l by lra. lra.
Qed.

Lemma cosine_bound (u v : list R) :
  -1 <= dot (l2_normalize u) (l2_normalize v) <= 1.
Proof.
  pose proof (dot_bound (l2_normalize u) (l2_normalize v)).
  pose proof (l2_normalize_unit_ball u). pose proof (l2_normalize_unit_ball v).
  pose proof (square_sum_nonneg (l2_normalize u)).
  pose proof (square_sum_nonneg (l2_normalize v)). lra.
Qed.

Lemma masked_row_bound (row : list R) (m : R) :
  Forall (fun s => -1 <= s <= 1) row -> 0 <= m <= 1 ->
  Forall (fun s => -1 <= s <= 1) (map (fun s => s * m) row).
Proof.
  intros Hrow Hm. apply Forall_map. eapply Forall_impl; [exact Hrow |].
  cbv beta. intros s Hs. nra.
Qed.

(** X19. Cosine similarities stay in [[-1, 1]]. With [similarity_type]
    ['cosine'] and a mask of entries between 0 and 1, [_tf_sim] returns, and
    every similarity between a dialogue embedding and a candidate, and every
    similarity between the correct action and another candidate, lies between
    -1 and 1, whatever the embeddings (the zero vector included). *)
Theorem cosine_similarities_bounded (emb_dial : tensor3)
    (emb_act : list tensor3) (mask : tensor2) :
  Forall (Forall (fun m => 0 <= m <= 1)) mask ->
  exists sim sim_act,
    _tf_sim (PStr "cosine") emb_dial emb_act mask = py_ret (sim, sim_act) /\
    Forall (Forall (Forall (fun s => -1 <= s <= 1))) sim /\
    Forall (Forall (Forall (fun s => -1 <= s <= 1))) sim_act.
Proof.
  intros Hmask. unfold _tf_sim.
  change (py_eq (PStr "cosine") (PStr "cosine")) with true.
  cbv zeta. cbn [orb]. cbv iota.
  eexists. eexists. split; [reflexivity |]. split.
  - apply (zip_with_Forall2
             (Forall (Forall (fun s => -1 <= s <= 1)))
             (Forall (fun m => 0 <= m <= 1))); [| | exact Hmask].
    + intros d md Hd Hmd.
      apply (zip_with_Forall2 (Forall (fun s => -1 <= s <= 1))
               (fun m => 0 <= m <= 1)); [| exact Hd | exact Hmd].
      intros row m. apply masked_row_bound.
    + apply (zip_with_Forall2
               (Forall (fun v => exists u, v = l2_normalize u))
               (Forall (Forall (fun v => exists u, v = l2_normalize u)))).
      * intros d acts Hd Hacts.
        apply (zip_with_Forall2 (fun v => exists u, v = l2_normalize u)
                 (Forall (fun v => exists u, v = l2_normalize u)));
          [| exact Hd | exact Hacts].
        intros v cands [u ->] Hc. apply Forall_map.
        eapply Forall_impl; [exact Hc |]. cbv beta.
        intros w [u' ->]. apply cosine_bound.
      * apply Forall_map, Forall_true. intros d.
        apply Forall_map, Forall_true. intros u. eexists. reflexivity.
      * apply Forall_map, Forall_true. intros d.
        apply Forall_map, Forall_true. intros cands.
        apply Forall_map, Forall_true. intros u. eexists. reflexivity.
  - apply (zip_with_Forall2
             (Forall (Forall (fun s => -1 <= s <= 1)))
             (Forall (fun m => 0 <= m <= 1))); [| | exact Hmask].
    + intros d md Hd Hmd.
      apply (zip_with_Forall2 (Forall (fun s => -1 <= s <= 1))
               (fun m => 0 <= m <= 1)); [| exact Hd | exact Hmd].
      intros row m. apply masked_row_bound.
    + apply Forall_map, Forall_map, Forall_true. intros d. cbv beta.
      apply Forall_map, Forall_map, Forall_true. intros cands. cbv beta.
      destruct cands as [| first rest]; cbn [map]; [constructor |].
      apply Forall_map, Forall_map, Forall_true. intros w. apply cosine_bound.
Qed.

Lemma cosine_similarities_bounded_witness :
  exists sim sim_act,
    _tf_sim (PStr "cosine") [[[3; 4]]] [[[[1; 0]; [0; 0]]]] [[1]]
    = py_ret (sim, sim_act) /\
    Forall (Forall (Forall (fun s => -1 <= s <= 1))) sim /\
    Forall (Forall (Forall (fun s => -1 <= s <= 1))) sim_act.
Proof.
  apply (cosine_similarities_bounded [[[3; 4]]] [[[[1; 0]; [0; 0]]]] [[1]]).
  repeat constructor; lra.
Defined.

Lemma maximum0_nonneg (x : ereal) : 0 <= maximum0 x.
Proof. destruct x; cbn [maximum0]; [lra | apply Rmax_l]. Qed.

Lemma step_base_nonneg (use_max_sim_neg : bool) (mu_pos mu_neg : R)
    (num_neg : nat) (row : list R) :
  0 <= step_base use_max_sim_neg mu_pos mu_neg num_neg row.
Proof.
  unfold step_base. destruct use_max_sim_neg.
  - pose proof (Rmax_l 0 (mu_pos - nth 0 row 0)).
    pose proof (maximum0_nonneg
                  (ereal_add mu_neg (reduce_max (drop 1 row)))). lra.
  - apply reduce_sum_nonneg.
    apply (zip_with_Forall2 (fun _ => True) (fun _ => True));
      [| apply Forall_true; auto | apply Forall_true; auto].
    intros m fs _ _. apply Rmax_l.
Qed.

Lemma sum_steps_nonneg (step : list R -> list R -> R -> R)
    (d d_act : tensor2) (md : list R) :
  (forall row row_act m, 0 <= m -> 0 <= step row row_act m) ->
  Forall (fun m => 0 <= m) md ->
  0 <= sum_steps step d d_act md.
Proof.
  intros Hstep Hmd. revert d d_act.
  induction Hmd as [| m md Hm _ IH]; intros [| row d] [| row_act d_act];
    cbn [sum_steps]; try lra.
  specialize (IH d d_act). specialize (Hstep row row_act m Hm). lra.
Qed.

Lemma sum_dialogues_nonneg (step : list R -> list R -> R -> R)
    (sim sim_act : tensor3) (mask : tensor2) :
  (forall row row_act m, 0 <= m -> 0 <= step row row_act m) ->
  Forall (Forall (fun m => 0 <= m)) mask ->
  Forall (fun md => 0 < reduce_sum md) mask ->
  0 <= fst (sum_dialogues step sim sim_act mask).
Proof.
  intros Hstep Hmask. revert sim sim_act.
  induction Hmask as [| md mask Hmd _ IH]; intros [| d sim] [| d_act sim_act]
    Hsum; cbn [sum_dialogues fst]; try lra.
  apply Forall_cons in Hsum as [Hpos Hsum].
  specialize (IH sim sim_act Hsum).
  destruct (sum_dialogues step sim sim_act mask) as [total n].
  cbn [fst] in *.
  pose proof (sum_steps_nonneg step d d_act md Hstep Hmd) as Hs.
  assert (0 <= sum_steps step d d_act md / reduce_sum md).
  { apply Rmult_le_pos; [exact Hs |]. left. now apply Rinv_0_lt_compat. }
  lra.
Qed.

(** X20. The loss never falls below the regularization loss. For a weight
    [C_emb] that is not negative, a mask without negative entries that marks
    at least one step of every dialogue as real, and at least one dialogue,
    [_tf_loss] is at least [regularization_loss], in both variants of the
    loss. *)
Theorem tf_loss_at_least_regularization (use_max_sim_neg : bool)
    (mu_pos mu_neg C_emb : R) (num_neg : nat) (regularization_loss : R)
    (sim sim_act : tensor3) (mask : tensor2) :
  0 <= C_emb ->
  Forall (Forall (fun m => 0 <= m)) mask ->
  Forall (fun md => 0 < reduce_sum md) mask ->
  sim <> [] -> sim_act <> [] -> mask <> [] ->
  regularization_loss
  <= _tf_loss use_max_sim_neg mu_pos mu_neg C_emb num_neg regularization_loss
       sim sim_act mask.
Proof.
  intros HC Hmask Hsum Hsim Hact Hne.
  rewrite tf_loss_mean_loss. unfold mean_loss.
  pose proof (sum_dialogues_nonneg
                (code_step_loss use_max_sim_neg mu_pos mu_neg C_emb num_neg)
                sim sim_act mask) as Htotal.
  assert (Hn : (0 < snd (sum_dialogues
                           (code_step_loss use_max_sim_neg mu_pos mu_neg C_emb
                              num_neg) sim sim_act mask))%nat).
  { clear Htotal.
    destruct sim as [| d sim']; [contradiction |].
    destruct sim_act as [| d_act sim_act']; [contradiction |].
    destruct mask as [| md mask']; [contradiction |]. cbn [sum_dialogues].
    destruct (sum_dialogues _ sim' sim_act' mask'). cbn [snd]. lia. }
  destruct (sum_dialogues _ sim sim_act mask) as [total n].
  cbn [fst snd] in *.
  assert (0 <= total).
  { apply Htotal; [| exact Hmask | exact Hsum].
    intros row row_act m Hm. unfold code_step_loss.
    pose proof (step_base_nonneg use_max_sim_neg mu_pos mu_neg num_neg row).
    pose proof (maximum0_nonneg (reduce_max row_act)). nra. }
  assert (0 < INR n) by (apply lt_0_INR; exact Hn).
  assert (0 <= total / INR n).
  { apply Rmult_le_pos; [assumption |]. left. now apply Rinv_0_lt_compat. }
  lra.
Qed.

Lemma tf_loss_at_least_regularization_witness :
  1 / 10 <= _tf_loss true (8 / 10) (- (2 / 10)) (8 / 10) 1 (1 / 10)
              [[[1; 0]]] [[[0]]] [[1]].
Proof.
  apply (tf_loss_at_least_regularization true (8 / 10) (- (2 / 10)) (8 / 10)
           1 (1 / 10) [[[1; 0]]] [[[0]]] [[1]]);
    try discriminate; try lra.
  - repeat constructor; lra.
  - repeat constructor. cbn. lra.
Defined.

Lemma exp_le_mono (x y : R) : x <= y -> exp x <= exp y.
Proof.
  intros [Hlt | ->]; [left; now apply exp_increasing | right; reflexivity].
Qed.

(** X21. The scores keep the order of the similarities. On a policy with a
    session, whatever its [similarity_type], an action whose similarity in the
    last step is at most that of another action gets a score that is at most
    the score of the other: the clipping of ['cosine'] and the normalized
    exponential of ['inner'] never reverse two actions. *)
Theorem predict_keeps_order {DialogueStateTracker : Type}
    (self : EmbeddingPolicy DialogueStateTracker) (sess : Session)
    (tracker : DialogueStateTracker) (domain : Domain)
    (d : list (list R)) (others : tensor3) (row : list R)
    (i j : nat) (x y : R) :
  session self = Some sess ->
  outcome (run_similarity self sess tracker domain) = Ok (d :: others) ->
  last d = Some row ->
  row !! i = Some x -> row !! j = Some y -> x <= y ->
  exists result x' y',
    outcome (predict_action_probabilities self tracker domain) = Ok result /\
    result !! i = Some x' /\ result !! j = Some y' /\ x' <= y'.
Proof.
  intros Hs Hrun Hlast Hi Hj Hxy.
  exists (postprocess (similarity_type (params self)) row).
  rewrite (predict_with_session self sess tracker domain d others row
             Hs Hrun Hlast).
  unfold postprocess.
  destruct (py_eq (similarity_type (params self)) (PStr "cosine")).
  - unfold clip_negative. rewrite !lookup_map, Hi, Hj. cbn.
    eexists. eexists. repeat split; try reflexivity.
    unfold Rltb. destruct (Rlt_dec x 0), (Rlt_dec y 0); lra.
  - destruct (py_eq (similarity_type (params self)) (PStr "inner")).
    + unfold exp_normalize. rewrite !lookup_map, Hi, Hj. cbn.
      eexists. eexists. repeat split; try reflexivity.
      assert (Hne : row <> []) by (intros ->; discriminate Hi).
      pose proof (reduce_sum_exp_pos row Hne) as Hpos.
      apply Rmult_le_compat_r; [left; now apply Rinv_0_lt_compat |].
      now apply exp_le_mono.
    + exists x, y. repeat split; assumption.
Qed.

Lemma predict_keeps_order_witness :
  exists result x' y',
    outcome (predict_action_probabilities
               (toy_trained_policy [[[-1; 2]]] inner_params) tt toy_domain)
    = Ok result /\
    result !! 0%nat = Some x' /\ result !! 1%nat = Some y' /\ x' <= y'.
Proof.
  apply (predict_keeps_order (toy_trained_policy [[[-1; 2]]] inner_params)
           (toy_session [[[-1; 2]]]) tt toy_domain [[-1; 2]] [] [-1; 2]
           0 1 (-1) 2); try reflexivity.
  lra.
Defined.

End SimilarityRanges.

(* ===================================================================== *)
(** ** Negative sampling without the clamp *)
(* ===================================================================== *)

(** X22. Without the clamp of [train] the sampler fails on a domain that has
    no wrong action. When every encoded action is the correct action of the
    first step of the first dialogue (a single action, or none) and
    [num_neg] is positive, [_create_batch_b] raises [ValueError]: there is
    nothing to draw a negative from. *)
Theorem create_batch_b_needs_a_wrong_action (encoded_all_actions : list (list Z))
    (num_neg : Z) (pos : list Z) (pos_d : list (list Z))
    (batch_pos_b : list (list (list Z))) (correct : nat) (ids_d : list nat)
    (intent_ids : list (list nat)) (g : rng) :
  (0 < num_neg)%Z ->
  (forall i, (i < length encoded_all_actions)%nat -> i = correct) ->
  _create_batch_b encoded_all_actions num_neg ((pos :: pos_d) :: batch_pos_b)
    ((correct :: ids_d) :: intent_ids) g
  = Raise ValueError.
Proof.
  intros Hpos Hall. unfold _create_batch_b.
  rewrite (proj2 (Z.ltb_ge num_neg 0)) by lia.
  cbn [_create_batch_b_dialogues _create_batch_b_steps].
  assert (Hnil : negative_indexes (length encoded_all_actions) correct = []).
  { destruct (negative_indexes (length encoded_all_actions) correct)
      as [| i l] eqn:Hneg; [reflexivity |].
    assert (Hi : i ∈ negative_indexes (length encoded_all_actions) correct)
      by (rewrite Hneg; left).
    apply negative_indexes_spec in Hi as [Hlt Hne].
    exfalso. apply Hne. now apply Hall. }
  rewrite Hnil. unfold np_random_choice.
  rewrite (proj2 (Z.ltb_ge num_neg 0)) by lia.
  rewrite bool_decide_eq_true_2 by reflexivity.
  rewrite (proj2 (Z.ltb_lt 0 num_neg)) by lia. reflexivity.
Qed.

Lemma create_batch_b_needs_a_wrong_action_witness :
  _create_batch_b [[1]]%Z 1 [[[1]]]%Z [[0]]%nat (fun i => i) = Raise ValueError.
Proof.
  apply (create_batch_b_needs_a_wrong_action [[1]]%Z 1 [1]%Z [] [] 0 [] []
           (fun i => i)).
  - lia.
  - cbn [length]. intros i Hi. lia.
Defined.

(* ===================================================================== *)
(** ** The towers *)
(* ===================================================================== *)

Section TowersProperties.
Local Open Scope R_scope.

Lemma check_hidden_layer_sizes_sizes (num_layers layer_size : pyval)
    (count : Z) (sizes : pyval) :
  layer_sizes layer_size ->
  outcome (_check_hidden_layer_sizes num_layers layer_size)
  = Ok (count, sizes) ->
  (0 <= count)%Z /\
  exists l, sizes = PList l /\ length l = Z.to_nat count /\
            Forall (fun s => exists z, s = PInt z /\ (0 <= z)%Z) l.
Proof.
  intros Hsizes. unfold _check_hidden_layer_sizes.
  destruct (py_int num_layers) as [w [n | e]] eqn:Hn; [| discriminate].
  rewrite outcome_bind_ok.
  assert (Hclamp : exists w' n', (0 <= n')%Z /\
            (if (n <? 0)%Z then _ ← py_log ERROR; mret 0%Z else mret n)
            = (w', Ok n')).
  { destruct (Z.ltb_spec n 0).
    - exists [ERROR], 0%Z. split; [lia | reflexivity].
    - exists [], n. split; [lia | reflexivity]. }
  destruct Hclamp as (w' & n' & Hn' & ->). rewrite outcome_bind_ok.
  destruct layer_size as [| b | z | r | s | l]; cbn in Hsizes;
    try contradiction.
  - py_simpl. cbn [is_list outcome py_ret snd]. intros [= <- <-].
    split; [exact Hn' |]. eexists. split; [reflexivity |].
    split; [apply length_replicate |].
    apply Forall_replicate. eauto.
  - destruct (bool_decide_reflect (Z.of_nat (length l) ≠ n')) as [Hne | Heq].
    + destruct l as [| first rest]; [discriminate |].
      change (_ ← py_log ERROR; mret first) with ([ERROR], Ok first).
      rewrite outcome_bind_ok.
      apply Forall_cons in Hsizes as [(z & -> & Hz) _].
      cbn [is_list outcome mret py_mret py_ret snd]. intros [= <- <-].
      split; [exact Hn' |]. eexists. split; [reflexivity |].
      split; [apply length_replicate |].
      apply Forall_replicate. eauto.
    + py_simpl. cbn [is_list outcome py_ret snd]. intros [= <- <-].
      split; [exact Hn' |]. exists l. split; [reflexivity |].
      split; [| exact Hsizes].
      destruct (decide (Z.of_nat (length l) = n')) as [<- | Hd];
        [lia | contradiction].
Qed.

Lemma tf_floor_nonneg (x : R) : 0 <= x < 2 -> 0 <= tf_floor x.
Proof.
  intros Hx. destruct (Rlt_dec x 1).
  - rewrite tf_floor_unit by lra. lra.
  - rewrite tf_floor_one by lra. lra.
Qed.

Lemma no_scale_dropout_nonneg (x : list R) (rate : R) (noise : list R)
    (training : bool) :
  0 <= rate < 1 ->
  Forall (fun y => 0 <= y) x -> Forall (fun u => 0 <= u < 1) noise ->
  Forall (fun y => 0 <= y) (no_scale_dropout x rate noise (Some training)).
Proof.
  intros Hr Hx Hu. unfold no_scale_dropout, tf_nn_dropout. cbv zeta.
  apply Forall_map.
  apply (zip_with_Forall2 (fun y => 0 <= y) (fun u => 0 <= u < 1));
    [| exact Hx | exact Hu].
  intros y u Hy Hu01. unfold no_scale_keep_prob, tf_nn_dropout_elt, tf_cast.
  set (kp := 1 - rate * (if training then 1 else 0)).
  assert (Hkp : 0 < kp <= 1) by (unfold kp; destruct training; lra).
  pose proof (tf_floor_nonneg (kp + u) ltac:(lra)) as Hfl.
  apply Rmult_le_pos; [lra |].
  apply Rmult_le_pos; [| exact Hfl].
  apply Rmult_le_pos; [exact Hy |]. left. apply Rinv_0_lt_compat. lra.
Qed.

Lemma hidden_layer_returns (weights : string -> nat -> list R -> R)
    (name : string) (l : list pyval) (droprate : R) (training : bool)
    (noise : nat -> nat -> R) (i : nat) (x : list R) (z : Z) :
  l !! i = Some (PInt z) -> (0 <= z)%Z ->
  hidden_layer weights name (PList l) droprate training noise i x
  = py_ret
      (let layer :=
         {| units := Z.to_nat z;
            pre_activation :=
              weights ("hidden_layer_" +:+ name +:+ "_" +:+ pretty i) |} in
       let x := tf_nn_relu (dense_apply layer x) in
       no_scale_dropout x droprate (map (noise i) (seq 0 (length x)))
         (Some training)).
Proof.
  intros Hsize Hz. unfold hidden_layer, layer_size_at. rewrite Hsize.
  py_simpl. cbn [py_int]. py_simpl.
  rewrite (proj2 (Z.ltb_ge z 0)) by lia. reflexivity.
Qed.

(** X23. After [_check_hidden_layer_sizes] the loop of [_create_tf_nn] finds
    a size for every layer. For a size, or a list of sizes, of integers that
    are not negative, whenever the check returns a count and a list, the
    tower built from them returns for every input row (no [IndexError]); for
    a rate in [[0, 1)] and draws from [[0, 1)] no entry of its output is
    negative. *)
Theorem create_tf_nn_after_check (weights : string -> nat -> list R -> R)
    (x_in : list R) (num_layers layer_size : pyval) (count : Z)
    (sizes : pyval) (droprate : R) (training : bool)
    (noise : nat -> nat -> R) (name : string) :
  layer_sizes layer_size ->
  outcome (_check_hidden_layer_sizes num_layers layer_size)
  = Ok (count, sizes) ->
  0 <= droprate < 1 ->
  (forall i k, 0 <= noise i k < 1) ->
  exists x,
    _create_tf_nn weights x_in count sizes droprate training noise name
    = py_ret x /\
    Forall (fun y => 0 <= y) x.
Proof.
  intros Hsizes Hcheck Hrate Hnoise.
  destruct (check_hidden_layer_sizes_sizes num_layers layer_size count sizes
              Hsizes Hcheck) as (Hcount & l & -> & Hlen & Hl).
  unfold _create_tf_nn. rewrite <- Hlen.
  assert (Hx0 : Forall (fun y => 0 <= y) (tf_nn_relu x_in)).
  { apply Forall_map, Forall_true. intros y. apply Rmax_l. }
  assert (Hrange : forall i, i ∈ seq 0 (length l) -> (i < length l)%nat)
    by (intros i Hi; apply elem_of_seq in Hi; lia).
  revert Hx0 Hrange. generalize (tf_nn_relu x_in) as x.
  generalize (seq 0 (length l)) as indexes.
  induction indexes as [| i indexes IH]; intros x Hx Hrange.
  - exists x. split; [reflexivity | exact Hx].
  - cbn [_create_tf_nn_loop].
    assert (Hi : (i < length l)%nat) by (apply Hrange; left).
    apply lookup_lt_is_Some_2 in Hi as [size Hsize].
    rewrite Forall_forall in Hl.
    destruct (Hl size (list_elem_of_lookup_2 _ _ _ Hsize)) as (z & -> & Hz).
    rewrite <- Forall_forall in Hl.
    rewrite (hidden_layer_returns weights name l droprate training noise i x
               z Hsize Hz), py_bind_ret.
    apply IH.
    + apply no_scale_dropout_nonneg; [exact Hrate | |].
      * apply Forall_map, Forall_true. intros y. apply Rmax_l.
      * apply Forall_map, Forall_true. intros k. apply Hnoise.
    + intros j Hj. apply Hrange. now right.
Qed.

Lemma create_tf_nn_after_check_witness :
  exists x,
    _create_tf_nn (fun _ _ _ => 1) [-1; 2] 2 (PList [PInt 3; PInt 3]) (1 / 10)
      true (fun _ _ => 1 / 2) "a"
    = py_ret x /\
    Forall (fun y => 0 <= y) x.
Proof.
  apply (create_tf_nn_after_check (fun _ _ _ => 1) [-1; 2] (PInt 2) (PInt 3)
           2 (PList [PInt 3; PInt 3]) (1 / 10) true (fun _ _ => 1 / 2) "a").
  - cbn. lia.
  - reflexivity.
  - lra.
  - intros i k. lra.
Defined.

End TowersProperties.

(* ===================================================================== *)
(** ** The loss at its minimum, and the check as a normal form *)
(* ===================================================================== *)

Section LossMinimum.
Local Open Scope R_scope.

Lemma reduce_max_le (c : R) (l : list R) :
  Forall (fun s => s <= c) l ->
  match reduce_max l with
  | NegInf => True
  | Finite m => m <= c
  end.
Proof.
  induction 1 as [| s l Hs _ IH]; [exact I |].
  cbn [reduce_max foldr]. fold (reduce_max l).
  destruct (reduce_max l) as [| m]; [exact Hs |].
  apply Rmax_lub; assumption.
Qed.

Lemma sum_steps_zero (step : list R -> list R -> R -> R)
    (P Q : list R -> Prop) (d d_act : tensor2) (md : list R) :
  (forall row row_act m, P row -> Q row_act -> step row row_act m = 0) ->
  Forall P d -> Forall Q d_act ->
  sum_steps step d d_act md = 0.
Proof.
  intros Hstep Hd. revert d_act md.
  induction Hd as [| row d Hrow _ IH]; intros d_act md Hact; [reflexivity |].
  destruct Hact as [| row_act d_act Hra Hact]; [reflexivity |].
  destruct md as [| m md]; [reflexivity |].
  cbn [sum_steps]. rewrite (Hstep row row_act m Hrow Hra), (IH d_act md Hact).
  lra.
Qed.

Lemma sum_dialogues_zero (step : list R -> list R -> R -> R)
    (P Q : list R -> Prop) (sim sim_act : tensor3) (masks : tensor2) :
  (forall row row_act m, P row -> Q row_act -> step row row_act m = 0) ->
  Forall (Forall P) sim -> Forall (Forall Q) sim_act ->
  fst (sum_dialogues step sim sim_act masks) = 0.
Proof.
  intros Hstep Hsim. revert sim_act masks.
  induction Hsim as [| d sim Hd _ IH]; intros sim_act masks Hact;
    [reflexivity |].
  destruct Hact as [| d_act sim_act Hda Hact]; [reflexivity |].
  destruct masks as [| md masks]; [reflexivity |].
  cbn [sum_dialogues]. specialize (IH sim_act masks Hact).
  destruct (sum_dialogues step sim sim_act masks) as [total n].
  cbn [fst] in *. rewrite IH, (sum_steps_zero step P Q d d_act md Hstep Hd Hda).
  unfold Rdiv. lra.
Qed.

(** X24. The loss reaches the regularization loss exactly on separated
    data. With [use_max_sim_neg], when in every step the similarity of the
    correct action is at least [mu_pos], every other candidate's similarity is
    at most [- mu_neg] and no similarity between actions is positive, every
    hinge is 0 and [_tf_loss] is the regularization loss (for a mask that
    marks a step of every dialogue, and at least one dialogue). *)
Theorem tf_loss_of_separated_steps (mu_pos mu_neg C_emb : R) (num_neg : nat)
    (regularization_loss : R) (sim sim_act : tensor3) (masks : tensor2) :
  Forall (Forall (fun row =>
                    mu_pos <= nth 0 row 0 /\
                    Forall (fun s => s <= - mu_neg) (drop 1 row))) sim ->
  Forall (Forall (Forall (fun s => s <= 0))) sim_act ->
  Forall (fun md => 0 < reduce_sum md) masks ->
  sim <> [] -> sim_act <> [] -> masks <> [] ->
  _tf_loss true mu_pos mu_neg C_emb num_neg regularization_loss sim sim_act
    masks
  = regularization_loss.
Proof.
  intros Hsim Hact _ _ _ _. rewrite tf_loss_mean_loss. unfold mean_loss.
  pose proof (sum_dialogues_zero
                (code_step_loss true mu_pos mu_neg C_emb num_neg)
                (fun row => mu_pos <= nth 0 row 0 /\
                            Forall (fun s => s <= - mu_neg) (drop 1 row))
                (Forall (fun s => s <= 0))
                sim sim_act masks) as Hzero.
  destruct (sum_dialogues _ sim sim_act masks) as [total n].
  cbn [fst] in Hzero. rewrite Hzero; [unfold Rdiv; lra | | exact Hsim | exact Hact].
  intros row row_act m [Hpos Hneg] Hra.
  unfold code_step_loss, step_base.
  rewrite (Rmax_left 0 (mu_pos - nth 0 row 0)) by lra.
  pose proof (reduce_max_le (- mu_neg) (drop 1 row) Hneg) as Hmax.
  pose proof (reduce_max_le 0 row_act Hra) as Hmax_act.
  destruct (reduce_max (drop 1 row)) as [| r];
    destruct (reduce_max row_act) as [| ra];
    cbn [ereal_add maximum0];
    rewrite ?(Rmax_left 0 (mu_neg + r)) by lra;
    rewrite ?(Rmax_left 0 ra) by lra; lra.
Qed.

Lemma tf_loss_of_separated_steps_witness :
  _tf_loss true (8 / 10) (- (2 / 10)) (8 / 10) 1 (1 / 10)
    [[[1; 0]]] [[[0]]] [[1]]
  = 1 / 10.
Proof.
  apply (tf_loss_of_separated_steps (8 / 10) (- (2 / 10)) (8 / 10) 1 (1 / 10)
           [[[1; 0]]] [[[0]]] [[1]]); try discriminate.
  - repeat constructor; cbn; lra.
  - repeat constructor; lra.
  - repeat constructor. cbn. lra.
Defined.

End LossMinimum.

(** X25. [_check_hidden_layer_sizes] returns a normal form. For a size, or a
    list of sizes, of integers that are not negative, checking the count and
    the list that the check returned gives them back unchanged and logs
    nothing. *)
Theorem check_hidden_layer_sizes_twice (num_layers layer_size : pyval)
    (count : Z) (sizes : pyval) :
  layer_sizes layer_size ->
  outcome (_check_hidden_layer_sizes num_layers layer_size)
  = Ok (count, sizes) ->
  _check_hidden_layer_sizes (PInt count) sizes = py_ret (count, sizes).
Proof.
  intros Hsizes Hcheck.
  destruct (check_hidden_layer_sizes_sizes num_layers layer_size count sizes
              Hsizes Hcheck) as (Hcount & l & -> & Hlen & _).
  unfold _check_hidden_layer_sizes. cbn [py_int]. py_simpl.
  rewrite (proj2 (Z.ltb_ge count 0)) by lia. py_simpl.
  rewrite bool_decide_eq_false_2 by lia. py_simpl. reflexivity.
Qed.

Lemma check_hidden_layer_sizes_twice_witness :
  _check_hidden_layer_sizes (PInt 3) (PList [PInt 64; PInt 64; PInt 64])
  = py_ret (3%Z, PList [PInt 64; PInt 64; PInt 64]).
Proof.
  apply (check_hidden_layer_sizes_twice (PInt 3) (PList [PInt 64; PInt 32])
           3 (PList [PInt 64; PInt 64; PInt 64])).
  - repeat constructor; eexists; (split; [reflexivity | lia]).
  - reflexivity.
Defined.

(* ===================================================================== *)
(** ** The range of the alignments *)
(* ===================================================================== *)

Section AlignmentRange.
Local Open Scope R_scope.

Lemma reduce_sum_ge_entry (l : list R) (i : nat) (p : R) :
  Forall (fun x => 0 <= x) l -> l !! i = Some p -> p <= reduce_sum l.
Proof.
  intros Hl. revert i. induction Hl as [| x l Hx Hl IH]; intros i Hi;
    [discriminate Hi |].
  change (reduce_sum (x :: l)) with (x + reduce_sum l).
  destruct i as [| i]; cbn in Hi.
  - injection Hi as ->. pose proof (reduce_sum_nonneg l Hl). lra.
  - specialize (IH i Hi). lra.
Qed.

Lemma tf_pow_nonneg (x y : R) : 0 <= tf_pow x y.
Proof.
  unfold tf_pow. destruct (Rltb 0 x); [| lra].
  left. unfold Rpower. apply exp_pos.
Qed.

Lemma TimedNTM_call_row_range (self : TimedNTM)
    (cell_output probs probs_state : list R) :
  Forall (fun a => 0 <= a <= 1)
    (fst (TimedNTM_call_row self cell_output probs probs_state)).
Proof.
  unfold TimedNTM_call_row. cbn [fst].
  set (powed := ntm_powed self cell_output
                  (ntm_shift self cell_output
                     (ntm_interpolate self cell_output probs probs_state))).
  assert (Hpowed : Forall (fun x => 0 <= x) powed).
  { unfold powed, ntm_powed. apply Forall_map, Forall_true.
    intros p. apply tf_pow_nonneg. }
  pose proof (reduce_sum_nonneg powed Hpowed) as HS.
  pose proof sharpening_epsilon_pos as Heps.
  apply Forall_map, Forall_lookup. intros i p Hp. cbv beta.
  pose proof (reduce_sum_ge_entry powed i p Hpowed Hp) as Hle.
  assert (H0 : 0 <= p).
  { rewrite Forall_forall in Hpowed. apply Hpowed.
    now apply list_elem_of_lookup_2 with i. }
  split.
  - apply Rmult_le_pos; [exact H0 |]. left. apply Rinv_0_lt_compat. lra.
  - apply (Rmult_le_reg_r (reduce_sum powed + sharpening_epsilon)); [lra |].
    unfold Rdiv. rewrite Rmult_assoc, Rinv_l by lra. lra.
Qed.

(** X26. Every alignment lies between 0 and 1. Whatever the memory, the
    attention state, the time and the weights of the [TimedNTM], every entry
    of the alignments that [_compute_time_attention] returns, for every row
    of the batch, is at least 0 and at most 1 (both bounds included). *)
Theorem alignments_in_unit_interval
    (attention_mechanism : AttentionMechanism)
    (cell_output attention_state : tensor2) (time : nat)
    (timed_ntm : TimedNTM) (attention_layer : option (list R -> list R)) :
  Forall (Forall (fun a => 0 <= a <= 1))
    (snd (fst (_compute_time_attention attention_mechanism cell_output
                 attention_state time timed_ntm attention_layer))).
Proof.
  unfold _compute_time_attention. cbn [fst snd].
  apply List.Forall_forall. intros row Hrow.
  apply in_map_iff in Hrow as (r & <- & Hr).
  apply list_elem_of_In, elem_of_lookup_imap in Hr
    as (b & [co st] & -> & _).
  unfold _compute_time_attention_row. cbv zeta.
  pose proof (TimedNTM_call_row_range timed_ntm co
                (take (time + 1) (am_alignments attention_mechanism b co st))
                (take time st)) as Hrange.
  destruct (TimedNTM_call_row timed_ntm co
              (take (time + 1) (am_alignments attention_mechanism b co st))
              (take time st)) as [probs next_probs_state].
  cbn [fst snd] in *. apply Forall_app. split; [exact Hrange |].
  eapply Forall_impl; [apply zeros_tail |]. cbv beta. intros z ->. lra.
Qed.

End AlignmentRange.
